(** * SmartScheduler: a shallow embedding of the prediction and response core

    The development follows the three programs of the repository:
    - [Kernel]    : kernel/smartscheduler.c  (signature store, EMA predictor,
                    sampling timer);
    - [Daemon]    : user/scheduler_daemon.c  (reading of the proc files,
                    escalation, cooldown, restoration);
    - [TopSpikes] : user/top_spikes.c        (ranking by score).

    C [int] values are integers of [Z] with the 32-bit wrap-around written
    out ([wrap_int]); the kernel is built with wrapping signed arithmetic,
    and the user-space tools are modelled the same way. Properties that
    depend on the arithmetic state the range in which nothing overflows.
    C [/] truncates toward zero and is [Z.quot]. *)

From Stdlib Require Import ZArith Lia List Sorted Permutation Ascii.
From stdpp Require Import base gmap list strings.

Local Open Scope Z_scope.

(** ** Machine integers *)

Definition INT_MIN : Z := - 2 ^ 31.
Definition INT_MAX : Z := 2 ^ 31 - 1.

(** Reduction of a mathematical integer to a signed 32-bit [int]. *)
Definition wrap_int (z : Z) : Z := (z + 2 ^ 31) mod 2 ^ 32 - 2 ^ 31.

(** Reduction to [unsigned int], [unsigned long] and [u64]. *)
Definition wrap_uint (z : Z) : Z := z mod 2 ^ 32.
Definition wrap_u64 (z : Z) : Z := z mod 2 ^ 64.

Definition int_add (a b : Z) : Z := wrap_int (a + b).
Definition int_sub (a b : Z) : Z := wrap_int (a - b).
Definition int_mul (a b : Z) : Z := wrap_int (a * b).
Definition int_div (a b : Z) : Z := wrap_int (Z.quot a b).

Definition in_int (z : Z) : Prop := INT_MIN <= z <= INT_MAX.

(** ** kernel/smartscheduler.c *)

Module Kernel.

(** Configuration parameters. *)
Definition ALPHA : Z := 30.
Definition ALPHA_COMPLEMENT : Z := 100 - ALPHA.

Definition CPU_SPIKE_THRESHOLD : Z := 2000.
Definition MEM_SPIKE_THRESHOLD : Z := 1500.
Definition IO_SPIKE_THRESHOLD : Z := 1000.

Definition MAX_TRACKED_PROCS : Z := 4096.

(** Kernel constants used by the module (linux/sched.h). *)
Definition TASK_COMM_LEN : nat := 16.
Definition PF_KTHREAD : Z := 2097152.

(** Prediction flags. *)
Definition FLAG_CPU_SPIKE_PREDICTED : Z := Z.shiftl 1 0.
Definition FLAG_MEM_SPIKE_PREDICTED : Z := Z.shiftl 1 1.
Definition FLAG_IO_SPIKE_PREDICTED : Z := Z.shiftl 1 2.
Definition FLAG_ACTIVE : Z := Z.shiftl 1 7.

(** Per-process behavioural signature ([struct proc_signature]; the hash
    linkage is the key of the store below). *)
Record proc_signature : Type := mk_sig {
  pid : Z;
  comm : string;
  cpu_ema : Z;
  mem_ema : Z;
  io_ema : Z;
  cpu_prev : Z;
  mem_prev : Z;
  io_prev : Z;
  cpu_roc : Z;
  mem_roc : Z;
  io_roc : Z;
  flags : Z;
  last_update : Z;
  created : Z;
  cpu_spikes_predicted : Z;
  mem_spikes_predicted : Z;
  io_spikes_predicted : Z;
  total_samples : Z
}.

(** Statistical functions. *)
Definition update_ema (old_ema sample : Z) : Z :=
  int_div (int_add (int_mul ALPHA sample) (int_mul ALPHA_COMPLEMENT old_ema)) 100.

Definition calc_rate_of_change (current_val previous : Z) : Z :=
  int_sub current_val previous.

Definition is_spike_predicted (roc threshold : Z) : bool :=
  roc >? threshold.

(** [atomic_inc] and [atomic_dec] on an [atomic_t]. *)
Definition atomic_inc (v : Z) : Z := wrap_int (v + 1).
Definition atomic_dec (v : Z) : Z := wrap_int (v - 1).

(** [update_signature]: the signature is updated in place and the global
    [total_predictions] is threaded through. *)
Definition update_signature (sig : proc_signature)
    (cpu_sample mem_sample io_sample : Z) (jiffies : Z)
    (total_predictions : Z) : proc_signature * Z :=
  (* store previous values *)
  let cpu_prev' := cpu_ema sig in
  let mem_prev' := mem_ema sig in
  let io_prev' := io_ema sig in
  (* update EMAs *)
  let cpu_ema' := update_ema (cpu_ema sig) cpu_sample in
  let mem_ema' := update_ema (mem_ema sig) mem_sample in
  let io_ema' := update_ema (io_ema sig) io_sample in
  (* rates of change *)
  let cpu_roc' := calc_rate_of_change cpu_ema' cpu_prev' in
  let mem_roc' := calc_rate_of_change mem_ema' mem_prev' in
  let io_roc' := calc_rate_of_change io_ema' io_prev' in
  (* clear old prediction flags *)
  let f0 := Z.land (flags sig)
              (wrap_uint (Z.lnot (Z.lor (Z.lor FLAG_CPU_SPIKE_PREDICTED
                                               FLAG_MEM_SPIKE_PREDICTED)
                                        FLAG_IO_SPIKE_PREDICTED))) in
  (* set new prediction flags *)
  let cpu_hit := is_spike_predicted cpu_roc' CPU_SPIKE_THRESHOLD in
  let f1 := if cpu_hit then Z.lor f0 FLAG_CPU_SPIKE_PREDICTED else f0 in
  let n1 := if cpu_hit then wrap_u64 (cpu_spikes_predicted sig + 1)
            else cpu_spikes_predicted sig in
  let t1 := if cpu_hit then atomic_inc total_predictions else total_predictions in
  let mem_hit := is_spike_predicted mem_roc' MEM_SPIKE_THRESHOLD in
  let f2 := if mem_hit then Z.lor f1 FLAG_MEM_SPIKE_PREDICTED else f1 in
  let n2 := if mem_hit then wrap_u64 (mem_spikes_predicted sig + 1)
            else mem_spikes_predicted sig in
  let t2 := if mem_hit then atomic_inc t1 else t1 in
  let io_hit := is_spike_predicted io_roc' IO_SPIKE_THRESHOLD in
  let f3 := if io_hit then Z.lor f2 FLAG_IO_SPIKE_PREDICTED else f2 in
  let n3 := if io_hit then wrap_u64 (io_spikes_predicted sig + 1)
            else io_spikes_predicted sig in
  let t3 := if io_hit then atomic_inc t2 else t2 in
  ({| pid := pid sig; comm := comm sig;
      cpu_ema := cpu_ema'; mem_ema := mem_ema'; io_ema := io_ema';
      cpu_prev := cpu_prev'; mem_prev := mem_prev'; io_prev := io_prev';
      cpu_roc := cpu_roc'; mem_roc := mem_roc'; io_roc := io_roc';
      flags := f3;
      last_update := jiffies; created := created sig;
      cpu_spikes_predicted := n1;
      mem_spikes_predicted := n2;
      io_spikes_predicted := n3;
      total_samples := wrap_u64 (total_samples sig + 1) |}, t3).


(** Module state: the hash table [proc_signatures] keyed by pid (a bucket
    scan that compares [sig->pid] with the key is a lookup by pid), and the
    two module counters. *)
Record module_state : Type := mk_state {
  proc_signatures : gmap Z proc_signature;
  total_tracked : Z;
  total_predictions : Z
}.

Definition module_init : module_state :=
  {| proc_signatures := ∅; total_tracked := 0; total_predictions := 0 |}.

(** The signature [kzalloc] returns, after the field initialisation of
    [get_or_create_signature]: everything zero except pid, name, the two
    timestamps and [FLAG_ACTIVE]. [strncpy] keeps [TASK_COMM_LEN - 1]
    characters. *)
Definition new_signature (jiffies : Z) (p : Z) (name : option string)
    : proc_signature :=
  {| pid := p;
     comm := match name with
             | Some c => String.substring 0 (TASK_COMM_LEN - 1)%nat c
             | None => EmptyString
             end;
     cpu_ema := 0; mem_ema := 0; io_ema := 0;
     cpu_prev := 0; mem_prev := 0; io_prev := 0;
     cpu_roc := 0; mem_roc := 0; io_roc := 0;
     flags := FLAG_ACTIVE;
     last_update := jiffies; created := jiffies;
     cpu_spikes_predicted := 0; mem_spikes_predicted := 0;
     io_spikes_predicted := 0; total_samples := 0 |}.

(** [get_or_create_signature]; [kzalloc_ok] is the outcome of the
    allocation, [None] is the NULL result. *)
Definition get_or_create_signature (jiffies : Z) (kzalloc_ok : bool)
    (p : Z) (name : option string) (st : module_state)
    : option proc_signature * module_state :=
  match proc_signatures st !! p with
  | Some sig => (Some sig, st)
  | None =>
      if total_tracked st >=? MAX_TRACKED_PROCS then (None, st)
      else if negb kzalloc_ok then (None, st)
      else
        let sig := new_signature jiffies p name in
        (Some sig,
         {| proc_signatures := <[p := sig]> (proc_signatures st);
            total_tracked := atomic_inc (total_tracked st);
            total_predictions := total_predictions st |})
  end.

(** [remove_signature]: unlink, decrement, free. The module defines it but
    no function of the module calls it. *)
Definition remove_signature (sig : proc_signature) (st : module_state)
    : module_state :=
  {| proc_signatures := delete (pid sig) (proc_signatures st);
     total_tracked := atomic_dec (total_tracked st);
     total_predictions := total_predictions st |}.

(** The fields of [struct task_struct] the sampler reads; [mm] is the
    [total_vm] of the address space, [None] for a task without one. *)
Record task_struct : Type := mk_task {
  t_pid : Z;
  t_comm : string;
  t_flags : Z;
  exit_state : Z;
  utime : Z;
  stime : Z;
  start_time : Z;
  mm : option Z;
  ioac_read_bytes : Z;
  ioac_write_bytes : Z
}.

(** Sampling functions; the arithmetic is unsigned 64-bit, the result is
    cast to [int]. In [get_cpu_sample] the divisor
    [jiffies - start_time + 1] is 0 as a [u64] when [start_time] is
    [jiffies + 1] modulo [2 ^ 64]: the C division then faults and the tick
    never returns, where the division of [Z] gives 0. What is stated of a
    tick is stated of the ticks that complete. *)
Definition get_cpu_sample (jiffies : Z) (task : task_struct) : Z :=
  let total_time := wrap_u64 (utime task + stime task) in
  wrap_int (wrap_u64 (total_time * 100)
            / wrap_u64 (jiffies - start_time task + 1)).

Definition get_mem_sample (task : task_struct) : Z :=
  match mm task with
  | Some total_vm => wrap_int (wrap_u64 (total_vm * 100) / 1024)
  | None => 0
  end.

Definition get_io_sample (task_io_accounting : bool) (task : task_struct) : Z :=
  if task_io_accounting
  then wrap_int (wrap_u64 (ioac_read_bytes task + ioac_write_bytes task) / 1024)
  else 0.

(** What one timer tick observes outside the module. *)
Record tick_env : Type := mk_env {
  jiffies : Z;
  task_io_accounting : bool;          (* CONFIG_TASK_IO_ACCOUNTING *)
  kzalloc_ok : Z -> bool              (* does the allocation for this pid succeed *)
}.

(** Body of the [for_each_process] loop. *)
Definition sample_task (e : tick_env) (st : module_state) (task : task_struct)
    : module_state :=
  if negb (Z.land (t_flags task) PF_KTHREAD =? 0) then st
  else if negb (exit_state task =? 0) then st
  else
    let cpu_sample := get_cpu_sample (jiffies e) task in
    let mem_sample := get_mem_sample task in
    let io_sample := get_io_sample (task_io_accounting e) task in
    match get_or_create_signature (jiffies e) (kzalloc_ok e (t_pid task))
            (t_pid task) (Some (t_comm task)) st with
    | (Some sig, st1) =>
        let '(sig', tp) :=
          update_signature sig cpu_sample mem_sample io_sample (jiffies e)
            (total_predictions st1) in
        {| proc_signatures := <[t_pid task := sig']> (proc_signatures st1);
           total_tracked := total_tracked st1;
           total_predictions := tp |}
    | (None, st1) => st1
    end.

(** [sample_timer_callback]: one pass over the live process list. *)
Definition sample_timer_callback (e : tick_env) (tasks : list task_struct)
    (st : module_state) : module_state :=
  fold_left (sample_task e) tasks st.

(** Values on the fixed-point scale for which [ALPHA * sample +
    ALPHA_COMPLEMENT * ema] cannot leave the range of [int]. *)
Definition fits_scale (x : Z) : Prop := Z.abs x <= INT_MAX / 100.

(** The three integer operations of [update_ema] stay inside [int]. *)
Definition no_overflow (old_ema sample : Z) : Prop :=
  in_int (ALPHA * sample)
  /\ in_int (ALPHA_COMPLEMENT * old_ema)
  /\ in_int (ALPHA * sample + ALPHA_COMPLEMENT * old_ema).

(** The counter of the store agrees with the table and respects the limit. *)
Definition store_ok (st : module_state) : Prop :=
  total_tracked st = Z.of_nat (size (proc_signatures st))
  /\ total_tracked st <= MAX_TRACKED_PROCS.




(** Two live user tasks and two ticks, for running the sampler. *)
Definition task_a : task_struct :=
  mk_task 7 "worker" 0 0 100 50 10 (Some 2048) 4096 0.
Definition task_b : task_struct :=
  mk_task 8 "shell" 0 0 20 10 500 (Some 512) 0 0.
Definition tick_1 : tick_env := mk_env 1000 true (fun _ => true).
Definition tick_2 : tick_env := mk_env 1025 true (fun _ => true).

(** A task the sampler does not skip. *)
Definition sampled (task : task_struct) : bool :=
  (Z.land (t_flags task) PF_KTHREAD =? 0) && (exit_state task =? 0).

(** The signature of pid [q] carries the time of tick [e]. *)
Definition stamped (e : tick_env) (st : module_state) (q : Z) : Prop :=
  exists sig, proc_signatures st !! q = Some sig /\ last_update sig = jiffies e.

(** The EMA of a resource after [n] ticks that all read the sample [s]. *)
Fixpoint ema_seq (e0 s : Z) (n : nat) : Z :=
  match n with
  | O => e0
  | S k => update_ema (ema_seq e0 s k) s
  end.

(** The rate of change computed at tick [n + 1] of that run. *)
Definition roc_seq (e0 s : Z) (n : nat) : Z :=
  calc_rate_of_change (ema_seq e0 s (S n)) (ema_seq e0 s n).

(** [n] ticks of [update_signature] that all read the same three samples. *)
Fixpoint repeat_update (sig : proc_signature) (c m i : Z) (n : nat)
    : proc_signature :=
  match n with
  | O => sig
  | S k => fst (update_signature (repeat_update sig c m i k) c m i 0 0)
  end.

(** A run of the sampling timer: each tick has its own environment and
    its own process list. *)
Definition run_ticks (ticks : list (tick_env * list task_struct))
    (st : module_state) : module_state :=
  fold_left (fun st t => sample_timer_callback (fst t) (snd t) st) ticks st.

(** [update_signature] with the three samples the tick reads for [task]. *)
Definition sample_result (e : tick_env) (task : task_struct)
    (sig : proc_signature) (tp : Z) : proc_signature * Z :=
  update_signature sig (get_cpu_sample (jiffies e) task)
    (get_mem_sample task) (get_io_sample (task_io_accounting e) task)
    (jiffies e) tp.

(** The signature that update leaves; it does not depend on the counter. *)
Definition sample_update (e : tick_env) (task : task_struct)
    (sig : proc_signature) : proc_signature :=
  fst (sample_result e task sig 0).

(** The flag word that goes with the stored rates of change. *)
Definition expected_flags (sig : proc_signature) : Z :=
  FLAG_ACTIVE
  + (if cpu_roc sig >? CPU_SPIKE_THRESHOLD then FLAG_CPU_SPIKE_PREDICTED else 0)
  + (if mem_roc sig >? MEM_SPIKE_THRESHOLD then FLAG_MEM_SPIKE_PREDICTED else 0)
  + (if io_roc sig >? IO_SPIKE_THRESHOLD then FLAG_IO_SPIKE_PREDICTED else 0).

(** The fields of a signature agree with each other. *)
Definition sig_consistent (sig : proc_signature) : Prop :=
  (fits_scale (cpu_ema sig) /\ fits_scale (mem_ema sig)
   /\ fits_scale (io_ema sig))
  /\ (fits_scale (cpu_prev sig) /\ fits_scale (mem_prev sig)
      /\ fits_scale (io_prev sig))
  /\ (cpu_roc sig = cpu_ema sig - cpu_prev sig
      /\ mem_roc sig = mem_ema sig - mem_prev sig
      /\ io_roc sig = io_ema sig - io_prev sig)
  /\ flags sig = expected_flags sig.

(** The store is counted right, every signature sits under its own pid and
    is consistent. *)
Definition table_ok (st : module_state) : Prop :=
  store_ok st
  /\ forall q sig, proc_signatures st !! q = Some sig ->
       pid sig = q /\ sig_consistent sig.

(** Predictions counted in one signature, and in a whole table. *)
Definition predicted (sig : proc_signature) : Z :=
  cpu_spikes_predicted sig + mem_spikes_predicted sig + io_spikes_predicted sig.

Definition sum_predicted (m : gmap Z proc_signature) : Z :=
  map_fold (fun _ sig acc => predicted sig + acc) 0 m.

Definition counts_ok (st : module_state) : Prop :=
  total_predictions st = wrap_int (sum_predicted (proc_signatures st)).

(** A non-negative EMA and a sample, both on the fixed-point scale. *)
Definition rising_in_range (ema sample : Z) : Prop :=
  0 <= ema /\ fits_scale ema /\ fits_scale sample.

(** Lines of the predictions file after the title and the two header rows;
    the legend that closes the file is left out. *)
Inductive seq_line : Type :=
| PredictionRow (p : Z) (name : string) (cpu_flag mem_flag io_flag : bool)
    (fl : Z)
| TruncatedNote
| NoProcessesNote.

(** The row of one signature; a flag character is ['*'] for [true] and
    ['-'] for [false]. *)
Definition prediction_row (sig : proc_signature) : seq_line :=
  PredictionRow (pid sig) (comm sig)
    (negb (Z.land (flags sig) FLAG_CPU_SPIKE_PREDICTED =? 0))
    (negb (Z.land (flags sig) FLAG_MEM_SPIKE_PREDICTED =? 0))
    (negb (Z.land (flags sig) FLAG_IO_SPIKE_PREDICTED =? 0))
    (flags sig).

(** The [hash_for_each] loop of [predictions_show] over the signatures in
    the order the table yields them, with its [count] and its [break]. *)
Fixpoint predictions_loop (walk : list proc_signature) (count : Z)
    (out : list seq_line) : Z * list seq_line :=
  match walk with
  | [] => (count, out)
  | sig :: rest =>
      let out1 := out ++ [prediction_row sig] in
      let count1 := int_add count 1 in
      if count1 >=? 100 then (count1, out1 ++ [TruncatedNote])
      else predictions_loop rest count1 out1
  end.

Definition predictions_show (walk : list proc_signature) : list seq_line :=
  let '(count, out) := predictions_loop walk 0 [] in
  if count =? 0 then out ++ [NoProcessesNote] else out.

(** The three samples a tick reads for a task lie between 0 and [M]. *)
Definition samples_within (M : Z) (e : tick_env) (t : task_struct) : Prop :=
  0 <= get_cpu_sample (jiffies e) t <= M
  /\ 0 <= get_mem_sample t <= M
  /\ 0 <= get_io_sample (task_io_accounting e) t <= M.

(** The EMAs of a signature, current and previous, lie between 0 and [M]. *)
Definition emas_within (M : Z) (sig : proc_signature) : Prop :=
  (0 <= cpu_ema sig <= M /\ 0 <= mem_ema sig <= M /\ 0 <= io_ema sig <= M)
  /\ (0 <= cpu_prev sig <= M /\ 0 <= mem_prev sig <= M
      /\ 0 <= io_prev sig <= M).

(** A task whose address space has 295279001 pages, seen by four ticks 25
    jiffies apart: its memory sample is beyond the scale of [fits_scale]. *)
Definition task_big : task_struct :=
  mk_task 11 "mapper" 0 0 0 0 0 (Some 295279001) 0 0.

Definition big_ticks : list (tick_env * list task_struct) :=
  map (fun k => (mk_env (1000 + 25 * Z.of_nat k) true (fun _ => true),
                 [task_big])) (seq 0 4).

End Kernel.

(** ** user/scheduler_daemon.c *)

Module Daemon.

Definition CHECK_INTERVAL_MS : Z := 500.
Definition PERSISTENT_CHECK_INTERVAL : Z := 5.
Definition MAX_TRACKED : Z := 1024.

(** Spike types. *)
Definition SPIKE_CPU : Z := 1.
Definition SPIKE_MEM : Z := 2.
Definition SPIKE_IO : Z := 4.

Inductive EscalationLevel : Type :=
| ESCALATION_NONE
| ESCALATION_ADVISORY
| ESCALATION_SOFT
| ESCALATION_HARD
| ESCALATION_CRITICAL.

(** The value of each enumerator; [>=] on levels compares these. *)
Definition level_value (l : EscalationLevel) : Z :=
  match l with
  | ESCALATION_NONE => 0
  | ESCALATION_ADVISORY => 1
  | ESCALATION_SOFT => 2
  | ESCALATION_HARD => 3
  | ESCALATION_CRITICAL => 4
  end.

Definition level_eqb (a b : EscalationLevel) : bool :=
  level_value a =? level_value b.
Definition level_geb (a b : EscalationLevel) : bool :=
  level_value a >=? level_value b.

Inductive ActionResult : Type :=
| ACTION_SUCCESS
| ACTION_FAILED
| ACTION_SKIPPED
| ACTION_COOLDOWN.

Definition is_success (r : ActionResult) : bool :=
  match r with ACTION_SUCCESS => true | _ => false end.

Record SpikeConfig : Type := mk_config {
  name : string;
  nice_boost : Z;
  ionice_class : Z;
  ionice_level : Z;
  cooldown_secs : Z;
  persistent_threshold : Z
}.

Definition spike_configs : list SpikeConfig :=
  [ mk_config "CPU" (-5) 0 0 10 5;
    mk_config "MEM" 0 0 0 15 8;
    mk_config "I/O" 0 2 0 10 5 ].

(** [spike_configs[i]]. *)
Definition spike_config (i : nat) : SpikeConfig :=
  nth i spike_configs (mk_config "" 0 0 0 0 0).

Record TrackedProcess : Type := mk_tracked {
  pid : Z;
  comm : string;
  original_nice : Z;
  current_nice : Z;
  adjusted : Z;
  adjusted_time : Z;
  last_seen : Z;
  spike_type : Z;
  spike_samples : Z;
  escalation : EscalationLevel;
  action_count : Z
}.

Record Stats : Type := mk_stats {
  cpu_advisories : Z;
  mem_advisories : Z;
  io_advisories : Z;
  cpu_boosts : Z;
  mem_actions : Z;
  io_boosts : Z;
  restorations : Z;
  escalations : Z;
  persistent_spikes : Z
}.

(** What the daemon does to the outside: records written by [log_action]
    and the calls that reach the action sink ([set_nice],
    [set_io_priority], the write to [oom_score_adj]). *)
Inductive event : Type :=
| EvLog (category action : string) (p : Z)
| EvSetNice (p nice_val : Z)
| EvSetIoPriority (p ioprio_class ioprio_level : Z)
| EvOomScoreAdj (p : Z).

Definition is_sink_call (e : event) : bool :=
  match e with
  | EvLog _ _ _ => false
  | _ => true
  end.

(** Global state. [tracked_count] is the length of [tracked]; the events
    are kept in the order they happen. *)
Record daemon : Type := mk_daemon {
  tracked : list TrackedProcess;
  stats : Stats;
  dry_run : bool;
  last_persistent_check : Z;
  trace : list event
}.

Definition tracked_count (d : daemon) : Z := Z.of_nat (length (tracked d)).

Definition stats_zero : Stats := mk_stats 0 0 0 0 0 0 0 0 0.

Definition daemon_init (dry : bool) (start : Z) : daemon :=
  mk_daemon [] stats_zero dry start [].

(** What a call observes outside the daemon: the clock and the outcome of
    the system calls. [getpriority] is [None] when the call fails. *)
Record world : Type := mk_world {
  now : Z;
  getpriority : Z -> option Z;
  setpriority_ok : Z -> Z -> bool;
  ionice_ok : Z -> Z -> Z -> bool
}.

Definition with_tracked (l : list TrackedProcess) (d : daemon) : daemon :=
  mk_daemon l (stats d) (dry_run d) (last_persistent_check d) (trace d).
Definition with_stats (s : Stats) (d : daemon) : daemon :=
  mk_daemon (tracked d) s (dry_run d) (last_persistent_check d) (trace d).
Definition emit (e : event) (d : daemon) : daemon :=
  mk_daemon (tracked d) (stats d) (dry_run d) (last_persistent_check d)
    (trace d ++ [e]).

(** [*p = v] for [p = &tracked[i]]. *)
Definition store (i : nat) (p : TrackedProcess) (d : daemon) : daemon :=
  with_tracked (<[i := p]> (tracked d)) d.

Definition log_action (category action : string) (p : Z) (d : daemon) : daemon :=
  emit (EvLog category action p) d.

(** [find_tracked]: the first slot with this pid, with its content. *)
Fixpoint find_from (i : nat) (p : Z) (l : list TrackedProcess)
    : option (nat * TrackedProcess) :=
  match l with
  | [] => None
  | x :: rest => if pid x =? p then Some (i, x) else find_from (S i) p rest
  end.

Definition find_tracked (p : Z) (d : daemon) : option (nat * TrackedProcess) :=
  find_from 0 p (tracked d).

(** The entry [add_tracked] writes: all zero but pid, name and time. *)
Definition fresh_tracked (w : world) (p : Z) (c : string) : TrackedProcess :=
  mk_tracked p (String.substring 0 31 c) 0 0 0 0 (now w) 0 0 ESCALATION_NONE 0.

Definition add_tracked (w : world) (p : Z) (c : string) (d : daemon)
    : option (nat * TrackedProcess) * daemon :=
  if tracked_count d >=? MAX_TRACKED then (None, d)
  else (Some (length (tracked d), fresh_tracked w p c),
        with_tracked (tracked d ++ [fresh_tracked w p c]) d).

Definition get_nice (w : world) (p : Z) : Z :=
  match getpriority w p with
  | Some n => n
  | None => 0
  end.

Definition set_nice (w : world) (p nice_val : Z) (d : daemon)
    : ActionResult * daemon :=
  let d1 := emit (EvSetNice p nice_val) d in
  if dry_run d then (ACTION_SUCCESS, log_action "DRY-RUN" "Would set nice" p d1)
  else if setpriority_ok w p nice_val then (ACTION_SUCCESS, d1)
  else (ACTION_FAILED, d1).

Definition set_io_priority (w : world) (p ioprio_class ioprio_level : Z)
    (d : daemon) : ActionResult * daemon :=
  let d1 := emit (EvSetIoPriority p ioprio_class ioprio_level) d in
  if dry_run d then (ACTION_SUCCESS, log_action "DRY-RUN" "Would set ionice" p d1)
  else if ionice_ok w p ioprio_class ioprio_level then (ACTION_SUCCESS, d1)
  else (ACTION_FAILED, d1).

(** Escalation level from the spike history. *)
Definition get_escalation_level (p : TrackedProcess) : EscalationLevel :=
  if spike_samples p <=? 2 then ESCALATION_ADVISORY
  else if spike_samples p <=? 5 then ESCALATION_SOFT
  else if spike_samples p <=? 10 then ESCALATION_HARD
  else ESCALATION_CRITICAL.

(** [stats.<counter>++]. *)
Definition inc_cpu_advisories (s : Stats) : Stats :=
  mk_stats (int_add (cpu_advisories s) 1) (mem_advisories s) (io_advisories s)
    (cpu_boosts s) (mem_actions s) (io_boosts s) (restorations s)
    (escalations s) (persistent_spikes s).
Definition inc_mem_advisories (s : Stats) : Stats :=
  mk_stats (cpu_advisories s) (int_add (mem_advisories s) 1) (io_advisories s)
    (cpu_boosts s) (mem_actions s) (io_boosts s) (restorations s)
    (escalations s) (persistent_spikes s).
Definition inc_io_advisories (s : Stats) : Stats :=
  mk_stats (cpu_advisories s) (mem_advisories s) (int_add (io_advisories s) 1)
    (cpu_boosts s) (mem_actions s) (io_boosts s) (restorations s)
    (escalations s) (persistent_spikes s).
Definition inc_cpu_boosts (s : Stats) : Stats :=
  mk_stats (cpu_advisories s) (mem_advisories s) (io_advisories s)
    (int_add (cpu_boosts s) 1) (mem_actions s) (io_boosts s) (restorations s)
    (escalations s) (persistent_spikes s).
Definition inc_mem_actions (s : Stats) : Stats :=
  mk_stats (cpu_advisories s) (mem_advisories s) (io_advisories s)
    (cpu_boosts s) (int_add (mem_actions s) 1) (io_boosts s) (restorations s)
    (escalations s) (persistent_spikes s).
Definition inc_io_boosts (s : Stats) : Stats :=
  mk_stats (cpu_advisories s) (mem_advisories s) (io_advisories s)
    (cpu_boosts s) (mem_actions s) (int_add (io_boosts s) 1) (restorations s)
    (escalations s) (persistent_spikes s).
Definition inc_restorations (s : Stats) : Stats :=
  mk_stats (cpu_advisories s) (mem_advisories s) (io_advisories s)
    (cpu_boosts s) (mem_actions s) (io_boosts s) (int_add (restorations s) 1)
    (escalations s) (persistent_spikes s).
Definition inc_escalations (s : Stats) : Stats :=
  mk_stats (cpu_advisories s) (mem_advisories s) (io_advisories s)
    (cpu_boosts s) (mem_actions s) (io_boosts s) (restorations s)
    (int_add (escalations s) 1) (persistent_spikes s).
Definition inc_persistent_spikes (s : Stats) : Stats :=
  mk_stats (cpu_advisories s) (mem_advisories s) (io_advisories s)
    (cpu_boosts s) (mem_actions s) (io_boosts s) (restorations s)
    (escalations s) (int_add (persistent_spikes s) 1).

Definition bump (f : Stats -> Stats) (d : daemon) : daemon :=
  with_stats (f (stats d)) d.

(** [p->original_nice = n]. *)
Definition set_original_nice (n : Z) (p : TrackedProcess) : TrackedProcess :=
  mk_tracked (pid p) (comm p) n (current_nice p) (adjusted p)
    (adjusted_time p) (last_seen p) (spike_type p) (spike_samples p)
    (escalation p) (action_count p).

(** The three statements every handler starts with:
    [p->spike_type |= kind; p->spike_samples++; p->last_seen = now]. *)
Definition mark_spike (kind : Z) (w : world) (p : TrackedProcess)
    : TrackedProcess :=
  mk_tracked (pid p) (comm p) (original_nice p) (current_nice p) (adjusted p)
    (adjusted_time p) (now w) (Z.lor (spike_type p) kind)
    (int_add (spike_samples p) 1) (escalation p) (action_count p).

(** The cooldown test of the CPU and I/O handlers. *)
Definition in_cooldown (w : world) (cfg : nat) (p : TrackedProcess) : bool :=
  negb (adjusted p =? 0)
  && (now w - adjusted_time p <? cooldown_secs (spike_config cfg)).

(** Handle a CPU spike. *)
Definition handle_cpu_spike (w : world) (p0 : Z) (c : string) (roc : Z)
    (d : daemon) : daemon :=
  let slot :=
    match find_tracked p0 d with
    | Some (i, p) => Some (i, p, d)
    | None =>
        match add_tracked w p0 c d with
        | (Some (i, p), d1) =>
            let p' := set_original_nice (get_nice w p0) p in
            Some (i, p', store i p' d1)
        | (None, _) => None
        end
    end in
  match slot with
  | None => d
  | Some (i, p, d0) =>
      let p1 := mark_spike SPIKE_CPU w p in
      let d1 := store i p1 d0 in
      let level := get_escalation_level p1 in
      if level_eqb level ESCALATION_ADVISORY then
        (* just log, no action *)
        bump inc_cpu_advisories (log_action "CPU" "ADVISORY" p0 d1)
      else if in_cooldown w 0 p1 then d1
      else
        let boost0 := nice_boost (spike_config 0) in
        let boost1 := if level_geb level ESCALATION_HARD then -10 else boost0 in
        let boost2 := if level_geb level ESCALATION_CRITICAL then -15 else boost1 in
        match set_nice w p0 boost2 d1 with
        | (ACTION_SUCCESS, d2) =>
            let p2 :=
              mk_tracked (pid p1) (comm p1) (original_nice p1) boost2 1
                (now w) (last_seen p1) (spike_type p1) (spike_samples p1)
                level (int_add (action_count p1) 1) in
            let d3 := bump inc_cpu_boosts (store i p2 d2) in
            let d4 := if level_geb level ESCALATION_HARD
                      then bump inc_escalations d3 else d3 in
            log_action "CPU" "BOOST" p0 d4
        | (_, d2) => d2
        end
  end.

(** Handle a memory spike. *)
Definition handle_mem_spike (w : world) (p0 : Z) (c : string) (roc : Z)
    (d : daemon) : daemon :=
  let slot :=
    match find_tracked p0 d with
    | Some (i, p) => Some (i, p, d)
    | None =>
        match add_tracked w p0 c d with
        | (Some (i, p), d1) => Some (i, p, d1)
        | (None, _) => None
        end
    end in
  match slot with
  | None => d
  | Some (i, p, d0) =>
      let p1 := mark_spike SPIKE_MEM w p in
      let d1 := store i p1 d0 in
      let level := get_escalation_level p1 in
      if level_eqb level ESCALATION_ADVISORY then
        bump inc_mem_advisories (log_action "MEM" "ADVISORY" p0 d1)
      else if level_eqb level ESCALATION_SOFT then
        bump inc_mem_advisories (log_action "MEM" "WARNING" p0 d1)
      else if level_geb level ESCALATION_HARD then
        let d2 := bump inc_persistent_spikes
                    (bump inc_mem_actions (log_action "MEM" "ALERT" p0 d1)) in
        if level_geb level ESCALATION_CRITICAL && negb (dry_run d2) then
          log_action "MEM" "OOM_SCORE" p0 (emit (EvOomScoreAdj p0) d2)
        else d2
      else d1
  end.

(** Handle an I/O spike. *)
Definition handle_io_spike (w : world) (p0 : Z) (c : string) (roc : Z)
    (d : daemon) : daemon :=
  let slot :=
    match find_tracked p0 d with
    | Some (i, p) => Some (i, p, d)
    | None =>
        match add_tracked w p0 c d with
        | (Some (i, p), d1) => Some (i, p, d1)
        | (None, _) => None
        end
    end in
  match slot with
  | None => d
  | Some (i, p, d0) =>
      let p1 := mark_spike SPIKE_IO w p in
      let d1 := store i p1 d0 in
      let level := get_escalation_level p1 in
      if level_eqb level ESCALATION_ADVISORY then
        bump inc_io_advisories (log_action "I/O" "ADVISORY" p0 d1)
      else if in_cooldown w 2 p1 then d1
      else
        let hard := level_geb level ESCALATION_HARD in
        let io_class := if hard then 1 else ionice_class (spike_config 2) in
        let io_level := if hard then 4 else ionice_level (spike_config 2) in
        match set_io_priority w p0 io_class io_level d1 with
        | (ACTION_SUCCESS, d2) =>
            let p2 :=
              mk_tracked (pid p1) (comm p1) (original_nice p1)
                (current_nice p1) 1 (now w) (last_seen p1) (spike_type p1)
                (spike_samples p1) (escalation p1)
                (int_add (action_count p1) 1) in
            log_action "I/O" "BOOST" p0 (bump inc_io_boosts (store i p2 d2))
        | (_, d2) => d2
        end
  end.

(** The entry a successful restoration leaves. *)
Definition restored (p : TrackedProcess) : TrackedProcess :=
  mk_tracked (pid p) (comm p) (original_nice p) (original_nice p) 0
    (adjusted_time p) (last_seen p) (spike_type p) 0 ESCALATION_NONE
    (action_count p).

(** The test that guards a restoration. *)
Definition restore_due (w : world) (p : TrackedProcess) : bool :=
  negb (adjusted p =? 0) && (now w - last_seen p >? 5).

(** Body of the loop of [restore_priorities] for [p = &tracked[i]]. *)
Definition restore_slot (w : world) (d : daemon) (i : nat) : daemon :=
  match tracked d !! i with
  | None => d
  | Some p =>
      if restore_due w p then
        match set_nice w (pid p) (original_nice p) d with
        | (ACTION_SUCCESS, d1) =>
            bump inc_restorations
              (store i (restored p) (log_action "RESTORE" "PRIORITY" (pid p) d1))
        | (_, d1) => d1
        end
      else d
  end.

(** Restore original priorities: [for (i = 0; i < tracked_count; i++)]. *)
Definition restore_priorities (w : world) (d : daemon) : daemon :=
  fold_left (restore_slot w) (seq 0 (length (tracked d))) d.

(** Check for persistent spikes: the entries reported, when the check is
    due; the report only prints. *)
Definition is_persistent (w : world) (p : TrackedProcess) : bool :=
  (spike_samples p >=? 5) && (now w - last_seen p <? 2).

Definition check_persistent_spikes (w : world) (d : daemon)
    : option (list TrackedProcess) * daemon :=
  if now w - last_persistent_check d <? PERSISTENT_CHECK_INTERVAL then (None, d)
  else (Some (filter (fun p => is_persistent w p = true) (tracked d)),
        mk_daemon (tracked d) (stats d) (dry_run d) (now w) (trace d)).

(** *** Reading the proc files *)

Definition MAX_LINE : nat := 256.

Definition newline : ascii := "010"%char.

(** What the calls [fgets (line, sizeof (line), f)] return one after the
    other until the end of the file, [room] being the number of characters
    the buffer still takes: a buffer ends after a newline or when it is
    full. *)
Fixpoint fgets_lines (room : nat) (s : string) : list string :=
  match s with
  | EmptyString => []
  | String a rest =>
      if Ascii.eqb a newline || (room <=? 1)%nat
      then String a EmptyString :: fgets_lines (MAX_LINE - 1) rest
      else match fgets_lines (room - 1) rest with
           | [] => [String a EmptyString]
           | l :: ls => String a l :: ls
           end
  end.

Definition file_lines (content : string) : list string :=
  fgets_lines (MAX_LINE - 1) content.

(** The text [sscanf] reads from a buffer: it ends at the first NUL. *)
Fixpoint c_string (s : string) : string :=
  match s with
  | EmptyString => EmptyString
  | String a rest =>
      if Ascii.eqb a zero then EmptyString else String a (c_string rest)
  end.

(** [isspace] in the C locale (the daemon never calls [setlocale]). *)
Definition isspace (a : ascii) : bool :=
  let n := nat_of_ascii a in
  (n =? 32)%nat || ((9 <=? n)%nat && (n <=? 13)%nat).

Fixpoint skip_space (s : string) : string :=
  match s with
  | EmptyString => EmptyString
  | String a rest => if isspace a then skip_space rest else s
  end.

Definition digit_of (a : ascii) : option Z :=
  let n := nat_of_ascii a in
  if (48 <=? n)%nat && (n <=? 57)%nat then Some (Z.of_nat n - 48) else None.

Fixpoint scan_digits (acc : Z) (s : string) : Z * string :=
  match s with
  | EmptyString => (acc, s)
  | String a rest =>
      match digit_of a with
      | Some v => scan_digits (10 * acc + v) rest
      | None => (acc, s)
      end
  end.

Definition LONG_MAX : Z := 9223372036854775807.
Definition LONG_MIN : Z := -9223372036854775808.

(** A [%d] conversion of the C library stores [(int) strtol (...)]: the
    number read is clamped to [long], then cut to 32 bits. *)
Definition store_int (v : Z) : Z :=
  wrap_int (Z.max LONG_MIN (Z.min LONG_MAX v)).

(** [%d]: white space, an optional sign, at least one decimal digit. *)
Definition scan_int (s : string) : option (Z * string) :=
  let s1 := skip_space s in
  let '(neg, s2) :=
    match s1 with
    | String a rest =>
        if Ascii.eqb a "-" then (true, rest)
        else if Ascii.eqb a "+" then (false, rest)
        else (false, s1)
    | EmptyString => (false, s1)
    end in
  match s2 with
  | String a _ =>
      match digit_of a with
      | Some _ =>
          let '(v, rest) := scan_digits 0 s2 in
          Some (store_int (if neg then - v else v), rest)
      | None => None
      end
  | EmptyString => None
  end.

(** The characters a [%<width>s] conversion stores, and what follows. *)
Fixpoint take_word (width : nat) (s : string) : string * string :=
  match width, s with
  | S n, String a rest =>
      if isspace a then (EmptyString, s)
      else let '(word, s') := take_word n rest in (String a word, s')
  | _, _ => (EmptyString, s)
  end.

(** [%<width>s]: white space, then at least one character that is not. *)
Definition scan_string (width : nat) (s : string) : option (string * string) :=
  match take_word width (skip_space s) with
  | (EmptyString, _) => None
  | (word, rest) => Some (word, rest)
  end.

(** [ %c]: the blank of the format skips white space, [%c] takes the next
    character. *)
Definition scan_char (s : string) : option (ascii * string) :=
  match skip_space s with
  | String a rest => Some (a, rest)
  | EmptyString => None
  end.

(** [sscanf (line, "%d %31s %c %c %c %x", ...) >= 5]: the pid, the name and
    the three marks stored when at least five conversions succeed. The
    sixth value is not used. *)
Definition scan_prediction (line : string)
    : option (Z * string * ascii * ascii * ascii) :=
  '(p, s1) ← scan_int (c_string line);
  '(c, s2) ← scan_string 31 s1;
  '(cpu_flag, s3) ← scan_char s2;
  '(mem_flag, s4) ← scan_char s3;
  '(io_flag, _) ← scan_char s4;
  Some (p, c, cpu_flag, mem_flag, io_flag).

(** [sscanf (line, "%d %d %d %d %d %d %d", ...) >= 7]: the pid and the
    three rates of change stored. *)
Definition scan_stats (line : string) : option (Z * (Z * Z * Z)) :=
  '(p, s1) ← scan_int (c_string line);
  '(_, s2) ← scan_int s1;
  '(_, s3) ← scan_int s2;
  '(_, s4) ← scan_int s3;
  '(c_roc, s5) ← scan_int s4;
  '(m_roc, s6) ← scan_int s5;
  '(i_roc, _) ← scan_int s6;
  Some (p, (c_roc, m_roc, i_roc)).

(** The two files of the kernel module as one pass of the daemon reads
    them; [None] when [fopen] fails. *)
Record proc_files : Type := mk_files {
  predictions_file : option string;
  stats_file : option string
}.

(** The [while (fgets ...)] loop of [read_roc_values]. *)
Fixpoint find_roc (p0 : Z) (lines : list string) : Z * Z * Z :=
  match lines with
  | [] => (0, 0, 0)
  | line :: rest =>
      match scan_stats line with
      | Some (p, rocs) => if p =? p0 then rocs else find_roc p0 rest
      | None => find_roc p0 rest
      end
  end.

(** Parse stats file to get ROC values: the three variables start at 0. *)
Definition read_roc_values (stats : option string) (p0 : Z) : Z * Z * Z :=
  match stats with
  | None => (0, 0, 0)
  | Some content => find_roc p0 (drop 4 (file_lines content))
  end.

Definition is_star (a : ascii) : bool := Ascii.eqb a "*".

(** Body of the [while (fgets ...)] loop of [process_predictions]. *)
Definition process_line (w : world) (stats : option string) (d : daemon)
    (line : string) : daemon :=
  match scan_prediction line with
  | None => d
  | Some (p0, c, cpu_flag, mem_flag, io_flag) =>
      let '(cpu_roc, mem_roc, io_roc) := read_roc_values stats p0 in
      let d1 := if is_star cpu_flag
                then handle_cpu_spike w p0 c cpu_roc d else d in
      let d2 := if is_star mem_flag
                then handle_mem_spike w p0 c mem_roc d1 else d1 in
      if is_star io_flag then handle_io_spike w p0 c io_roc d2 else d2
  end.

(** [process_predictions] up to [fclose]: four header lines are skipped,
    the others handled in order. *)
Definition handle_lines (w : world) (stats : option string)
    (content : string) (d : daemon) : daemon :=
  fold_left (process_line w stats) (drop 4 (file_lines content)) d.

(** Process predictions file. *)
Definition process_predictions (w : world) (fs : proc_files) (d : daemon)
    : daemon :=
  match predictions_file fs with
  | None => d
  | Some content =>
      restore_priorities w (handle_lines w (stats_file fs) content d)
  end.

(** Body of the [while (running)] loop of [main]. *)
Definition main_loop_body (w : world) (fs : proc_files) (d : daemon)
    : daemon :=
  snd (check_persistent_spikes w (process_predictions w fs d)).

(** Everything the main loop can do to the state, one call at a time. *)
Inductive step : daemon -> daemon -> Prop :=
| step_cpu w p c roc d : step d (handle_cpu_spike w p c roc d)
| step_mem w p c roc d : step d (handle_mem_spike w p c roc d)
| step_io w p c roc d : step d (handle_io_spike w p c roc d)
| step_restore w d : step d (restore_priorities w d)
| step_persistent w d : step d (snd (check_persistent_spikes w d)).

Definition reachable (d : daemon) : Prop :=
  exists dry start, rtc step (daemon_init dry start) d.

(** The handler of each spike category. *)
Inductive spike_kind : Type := KCpu | KMem | KIo.

Definition handle (k : spike_kind)
    : world -> Z -> string -> Z -> daemon -> daemon :=
  match k with
  | KCpu => handle_cpu_spike
  | KMem => handle_mem_spike
  | KIo => handle_io_spike
  end.

(** Whether the call [set_nice (pid, nice_val)] reports success. *)
Definition set_nice_ok (w : world) (d : daemon) (p nice_val : Z) : bool :=
  dry_run d || setpriority_ok w p nice_val.

(** Whether every action on pid [p] reports success. *)
Definition sink_succeeds (w : world) (d : daemon) (p : Z) : Prop :=
  dry_run d = true
  \/ ((forall n, setpriority_ok w p n = true)
      /\ (forall cl lv, ionice_ok w p cl lv = true)).

(** An entry whose stored level is not NONE is marked adjusted. *)
Definition well_marked (p : TrackedProcess) : Prop :=
  escalation p <> ESCALATION_NONE -> adjusted p <> 0.


(** Number of action sink calls recorded in a trace. *)
Definition sink_calls (t : list event) : nat :=
  length (List.filter is_sink_call t).

(** The configuration entry of each category. *)
Definition config_of (k : spike_kind) : SpikeConfig :=
  match k with
  | KCpu => spike_config 0
  | KMem => spike_config 1
  | KIo => spike_config 2
  end.

(** A handler keeps the pid of the slot it works on and its marking. *)
Definition same_slot (p p' : TrackedProcess) : Prop :=
  pid p' = pid p /\ (well_marked p -> well_marked p').

(** The entry the loop leaves in a slot. *)
Definition restore_outcome (w : world) (d : daemon) (p : TrackedProcess)
    : TrackedProcess :=
  if restore_due w p && set_nice_ok w d (pid p) (original_nice p)
  then restored p else p.

(** A clock reading with system calls that all succeed or all fail. *)
Definition world_at (t : Z) (ok : bool) : world :=
  mk_world t (fun _ => Some 0) (fun _ _ => ok) (fun _ _ _ => ok).

(** [n] spikes of one category for one pid, under the same world. *)
Fixpoint repeat_spike (k : spike_kind) (w : world) (p : Z) (n : nat)
    (d : daemon) : daemon :=
  match n with
  | O => d
  | S m => handle k w p "job" 2500 (repeat_spike k w p m d)
  end.

(** A table with [MAX_TRACKED] entries, for the pids 1..1024. *)
Definition full_table : daemon :=
  mk_daemon
    (map (fun n => fresh_tracked (world_at 0 true) (Z.of_nat n) "job")
       (seq 1 1024))
    stats_zero false 0 [].

(** The bit a handler sets in [spike_type]. *)
Definition kind_bit (k : spike_kind) : Z :=
  match k with
  | KCpu => SPIKE_CPU
  | KMem => SPIKE_MEM
  | KIo => SPIKE_IO
  end.

(** What identifies an entry and what a restoration goes back to. *)
Definition same_identity (p p' : TrackedProcess) : Prop :=
  pid p' = pid p /\ comm p' = comm p /\ original_nice p' = original_nice p.

(** [adjusted] is used as a boolean. *)
Definition adjusted_flag (p : TrackedProcess) : Prop :=
  adjusted p = 0 \/ adjusted p = 1.

(** The calls to the action sink recorded in a trace, in order. *)
Definition sink_events (t : list event) : list event :=
  List.filter is_sink_call t.

(** The call a restoration makes for an entry. *)
Definition restore_call (p : TrackedProcess) : event :=
  EvSetNice (pid p) (original_nice p).

(** Number of ['*'] among the three marks [sscanf] stored. *)
Definition stars (cpu_flag mem_flag io_flag : ascii) : Z :=
  Z.b2z (is_star cpu_flag) + Z.b2z (is_star mem_flag)
  + Z.b2z (is_star io_flag).

(** A line from which [sscanf] stores pid [p0] and a ['*'] as the memory
    mark only. *)
Definition mem_only_line (p0 : Z) (line : string) : Prop :=
  exists c cpu_flag io_flag,
    scan_prediction line = Some (p0, c, cpu_flag, "*"%char, io_flag)
    /\ is_star cpu_flag = false /\ is_star io_flag = false.

(** A predictions file with one such line after its header; from its
    other lines [sscanf] stores fewer than five values. *)
Definition mem_only_text (p0 : Z) (content : string) : Prop :=
  exists before line after,
    drop 4 (file_lines content) = before ++ line :: after
    /\ Forall (fun l => scan_prediction l = None) before
    /\ mem_only_line p0 line
    /\ Forall (fun l => scan_prediction l = None) after.

(** The files of a pass whose predictions file is such a text. *)
Definition mem_only_files (p0 : Z) (fs : proc_files) : Prop :=
  exists content,
    predictions_file fs = Some content /\ mem_only_text p0 content.

(** Passes of [process_predictions], each at its clock reading and over
    the files as they are then. *)
Definition passes (ps : list (world * proc_files)) (d : daemon) : daemon :=
  fold_left (fun d x => process_predictions (fst x) (snd x) d) ps d.

(** Lines joined as the kernel module prints them, each ending in a
    newline. *)
Definition text_of (rows : list string) : string :=
  fold_right (fun row rest => row +:+ String newline rest) EmptyString rows.

(** The predictions file as [predictions_show] prints it around fewer
    than 100 rows. *)
Definition predictions_text (rows : list string) : string :=
  text_of (["=== Current Predictions ===";
            "";
            "PID      COMM                CPU    MEM    I/O    FLAGS";
            "---      ----                ---    ---    ---    -----"]
           ++ rows
           ++ match rows with
              | [] => ["(no processes currently tracked)"]
              | _ => []
              end
           ++ ["";
               "Legend: * = spike predicted, - = normal"]).

End Daemon.

(** ** user/top_spikes.c *)

Module TopSpikes.

Definition MAX_PROCS : nat := 512.

Record Process : Type := mk_process {
  pid : Z;
  cpu_ema : Z;
  mem_ema : Z;
  io_ema : Z;
  cpu_roc : Z;
  mem_roc : Z;
  io_roc : Z;
  score : Z
}.

(** [abs] of the C library on [int]. *)
Definition c_abs (x : Z) : Z := wrap_int (Z.abs x).

(** Comparison functions handed to [qsort]. *)
Definition compare_by_score (a b : Process) : Z := int_sub (score b) (score a).
Definition compare_by_cpu (a b : Process) : Z := int_sub (cpu_roc b) (cpu_roc a).
Definition compare_by_mem (a b : Process) : Z := int_sub (mem_roc b) (mem_roc a).
Definition compare_by_io (a b : Process) : Z := int_sub (io_roc b) (io_roc a).

(** The seven integers [sscanf] reads from a line of the stats file. *)
Record stat_line : Type := mk_line {
  ln_pid : Z;
  ln_cpu_ema : Z;
  ln_mem_ema : Z;
  ln_io_ema : Z;
  ln_cpu_roc : Z;
  ln_mem_roc : Z;
  ln_io_roc : Z
}.

(** The array slot filled from a line, with the overall score. *)
Definition process_of_line (l : stat_line) : Process :=
  mk_process (ln_pid l) (ln_cpu_ema l) (ln_mem_ema l) (ln_io_ema l)
    (ln_cpu_roc l) (ln_mem_roc l) (ln_io_roc l)
    (int_add (int_add (c_abs (ln_cpu_roc l)) (c_abs (ln_mem_roc l)))
       (c_abs (ln_io_roc l))).

(** The reading loop of [read_stats] over the lines after the header; a
    line is [None] when [sscanf] does not find seven integers. [procs] is
    the filled part of the array. *)
Fixpoint read_lines (lines : list (option stat_line)) (procs : list Process)
    : list Process :=
  match lines with
  | [] => procs
  | ln :: rest =>
      if (length procs <? MAX_PROCS)%nat then
        match ln with
        | Some l => read_lines rest (procs ++ [process_of_line l])
        | None => read_lines rest procs
        end
      else procs
  end.

Definition read_stats (lines : list (option stat_line)) : list Process :=
  read_lines lines [].

(** Sort modes of the command line: 0 = score, 1 = cpu, 2 = mem, 3 = io. *)
Inductive sort_mode : Type := by_score | by_cpu | by_mem | by_io.

Definition comparator (m : sort_mode) : Process -> Process -> Z :=
  match m with
  | by_score => compare_by_score
  | by_cpu => compare_by_cpu
  | by_mem => compare_by_mem
  | by_io => compare_by_io
  end.

(** [top_n] after option parsing: 10 by default, the argument of [-n]
    (already through [atoi]) forced into 1..100 otherwise. *)
Definition parse_top_n (opt_n : option Z) : Z :=
  match opt_n with
  | None => 10
  | Some n =>
      let n1 := if n <? 1 then 1 else n in
      if n1 >? 100 then 100 else n1
  end.

(** What the C library promises of [qsort]: the array is rearranged so that
    no element compares greater than its successor. The order of elements
    that compare equal is not specified. *)
Definition qsort_result (cmp : Process -> Process -> Z)
    (before after : list Process) : Prop :=
  Permutation before after /\ Sorted (fun a b => cmp a b <= 0) after.

(** The rows [print_results] shows: [i < top_n && i < proc_count]. *)
Definition print_results (top_n : Z) (procs : list Process) : list Process :=
  firstn (Z.to_nat top_n) procs.

(** A run of [main]: the rows displayed, for some result of [qsort]. *)
Definition top_spikes (opt_n : option Z) (m : sort_mode)
    (lines : list (option stat_line)) (shown : list Process) : Prop :=
  exists sorted,
    qsort_result (comparator m) (read_stats lines) sorted
    /\ shown = print_results (parse_top_n opt_n) sorted.

(** Insertion sort with the comparator: one way to meet the contract of
    [qsort], used to run the tool on concrete inputs. *)
Fixpoint insert_by (cmp : Process -> Process -> Z) (x : Process)
    (l : list Process) : list Process :=
  match l with
  | [] => [x]
  | y :: rest => if cmp x y <=? 0 then x :: l else y :: insert_by cmp x rest
  end.

Fixpoint isort_by (cmp : Process -> Process -> Z) (l : list Process)
    : list Process :=
  match l with
  | [] => []
  | x :: rest => insert_by cmp x (isort_by cmp rest)
  end.

(** Rates of change whose three absolute values add up inside [int]. *)
Definition roc_in_range (x : Z) : Prop := Z.abs x <= INT_MAX / 3.

(** A line whose rates of change are in that range. *)
Definition line_in_range (ln : option stat_line) : Prop :=
  match ln with
  | Some l => roc_in_range (ln_cpu_roc l) /\ roc_in_range (ln_mem_roc l)
              /\ roc_in_range (ln_io_roc l)
  | None => True
  end.

(** A score no comparison can overflow on. *)
Definition score_in_range (p : Process) : Prop := 0 <= score p <= INT_MAX.

(** Descending order of scores. *)
Definition by_score_desc (a b : Process) : Prop := score b <= score a.

(** A line for pid [p] whose score is [s]. *)
Definition line_with_score (p s : Z) : option stat_line :=
  Some (mk_line p 0 0 0 s 0 0).

(** Four processes with the scores 10, 9000, 50, 200. *)
Definition four_lines : list (option stat_line) :=
  [line_with_score 1 10; line_with_score 2 9000; line_with_score 3 50;
   line_with_score 4 200].

(** [n] lines, for the pids 1..n, with score equal to pid. *)
Definition many_lines (n : nat) : list (option stat_line) :=
  map (fun k => line_with_score (Z.of_nat k) (Z.of_nat k)) (seq 1 n).

(** The lines [sscanf] accepts, in file order. *)
Definition parsed_lines (lines : list (option stat_line)) : list stat_line :=
  omap id lines.

(** The field a sort mode orders by. *)
Definition sort_key (m : sort_mode) (p : Process) : Z :=
  match m with
  | by_score => score p
  | by_cpu => cpu_roc p
  | by_mem => mem_roc p
  | by_io => io_roc p
  end.

(** Descending order of that field. *)
Definition by_key_desc (m : sort_mode) (a b : Process) : Prop :=
  sort_key m b <= sort_key m a.

(** Rates of change whose pairwise differences stay inside [int]. *)
Definition rate_in_half_range (x : Z) : Prop := Z.abs x <= INT_MAX / 2.

Definition line_in_half_range (ln : option stat_line) : Prop :=
  match ln with
  | Some l => rate_in_half_range (ln_cpu_roc l)
              /\ rate_in_half_range (ln_mem_roc l)
              /\ rate_in_half_range (ln_io_roc l)
  | None => True
  end.

(** Three rows whose CPU rates of change are -9000, 50 and 200, and a line
    that does not parse. *)
Definition falling_lines : list (option stat_line) :=
  [Some (mk_line 1 0 0 0 (-9000) 0 0); Some (mk_line 2 0 0 0 50 0 0);
   None; Some (mk_line 3 0 0 0 200 0 0)].

End TopSpikes.

(** ** From the module to the ranking tool *)

Module Pipeline.

(** The data line [stats_show] prints for a signature, as the seven
    integers [sscanf] reads back from it in the tool: the row is written
    with [%d] conversions separated by blanks, so each [int] reads back as
    itself; the eighth column, the number of samples, is not read. *)
Definition stats_line (sig : Kernel.proc_signature) : TopSpikes.stat_line :=
  TopSpikes.mk_line (Kernel.pid sig)
    (Kernel.cpu_ema sig) (Kernel.mem_ema sig) (Kernel.io_ema sig)
    (Kernel.cpu_roc sig) (Kernel.mem_roc sig) (Kernel.io_roc sig).

(** The lines of the stats file after its four header lines, for the
    signatures in the order [hash_for_each] yields them; [stats_show] has
    no limit on their number. *)
Definition stats_lines (walk : list Kernel.proc_signature)
    : list (option TopSpikes.stat_line) :=
  map (fun sig => Some (stats_line sig)) walk.

(** Every signature of the list is in the table. *)
Definition walk_of (st : Kernel.module_state)
    (walk : list Kernel.proc_signature) : Prop :=
  Forall (fun sig => exists q, Kernel.proc_signatures st !! q = Some sig) walk.

End Pipeline.

(** * Properties *)

(** ** Machine integers *)

Lemma wrap_int_small z : in_int z -> wrap_int z = z.
Proof.
  unfold in_int, INT_MIN, INT_MAX, wrap_int. intros H.
  rewrite Z.mod_small; lia.
Qed.

Lemma wrap_int_range z : in_int (wrap_int z).
Proof.
  unfold in_int, INT_MIN, INT_MAX, wrap_int.
  pose proof (Z.mod_pos_bound (z + 2 ^ 31) (2 ^ 32)). lia.
Qed.

Lemma int_add_small a b : in_int (a + b) -> int_add a b = a + b.
Proof. apply wrap_int_small. Qed.

Lemma int_sub_small a b : in_int (a - b) -> int_sub a b = a - b.
Proof. apply wrap_int_small. Qed.

Lemma int_mul_small a b : in_int (a * b) -> int_mul a b = a * b.
Proof. apply wrap_int_small. Qed.

Lemma int_div_small a b : in_int (Z.quot a b) -> int_div a b = Z.quot a b.
Proof. apply wrap_int_small. Qed.

(** ** The predictor and the signature store *)

Module KernelFacts.
Import Kernel.

(** The update without overflow is the recurrence on integers. *)
Lemma update_ema_exact (e s : Z) :
  in_int (ALPHA * s) -> in_int (ALPHA_COMPLEMENT * e) ->
  in_int (ALPHA * s + ALPHA_COMPLEMENT * e) ->
  update_ema e s = Z.quot (30 * s + 70 * e) 100.
Proof.
  intros Hs He Hsum. unfold update_ema.
  rewrite (int_mul_small _ _ Hs), (int_mul_small _ _ He).
  rewrite (int_add_small _ _ Hsum).
  rewrite int_div_small; [reflexivity|].
  unfold ALPHA_COMPLEMENT, ALPHA, in_int, INT_MIN, INT_MAX in *.
  Z.to_euclidean_division_equations. lia.
Qed.

Lemma roc_exact (e s : Z) :
  in_int (ALPHA * s) -> in_int (ALPHA_COMPLEMENT * e) ->
  in_int (ALPHA * s + ALPHA_COMPLEMENT * e) ->
  calc_rate_of_change (update_ema e s) e = update_ema e s - e.
Proof.
  intros Hs He Hsum. unfold calc_rate_of_change.
  apply int_sub_small. rewrite (update_ema_exact e s Hs He Hsum).
  unfold ALPHA_COMPLEMENT, ALPHA, in_int, INT_MIN, INT_MAX in *.
  Z.to_euclidean_division_equations. lia.
Qed.

Lemma fits_scale_no_overflow (e s : Z) :
  fits_scale e -> fits_scale s ->
  in_int (ALPHA * s) /\ in_int (ALPHA_COMPLEMENT * e)
  /\ in_int (ALPHA * s + ALPHA_COMPLEMENT * e).
Proof.
  unfold fits_scale, in_int, ALPHA_COMPLEMENT, ALPHA.
  change (INT_MAX / 100) with 21474836.
  change INT_MAX with 2147483647. change INT_MIN with (-2147483648).
  lia.
Qed.

(** One step moves the EMA toward the sample and never past it. *)
Lemma update_ema_between (e s : Z) :
  fits_scale e -> fits_scale s ->
  (e <= s -> e <= update_ema e s <= s)
  /\ (s <= e -> s <= update_ema e s <= e).
Proof.
  intros He Hs.
  destruct (fits_scale_no_overflow e s He Hs) as (H1 & H2 & H3).
  rewrite (update_ema_exact e s H1 H2 H3).
  split; intros Hle; Z.to_euclidean_division_equations; lia.
Qed.

Lemma update_ema_fits (e s : Z) :
  fits_scale e -> fits_scale s -> fits_scale (update_ema e s).
Proof.
  intros He Hs. pose proof (update_ema_between e s He Hs) as [Hup Hdown].
  unfold fits_scale in *. lia.
Qed.

Lemma ema_seq_fits (e0 s : Z) (n : nat) :
  fits_scale e0 -> fits_scale s -> fits_scale (ema_seq e0 s n).
Proof.
  intros He Hs. induction n as [|n IH]; cbn [ema_seq]; [assumption|].
  now apply update_ema_fits.
Qed.

Lemma ema_seq_shift (e0 s : Z) (n : nat) :
  ema_seq e0 s (S n) = ema_seq (update_ema e0 s) s n.
Proof.
  induction n as [|n IH]; [reflexivity|].
  cbn [ema_seq] in *. now rewrite IH.
Qed.

Lemma ema_seq_below (e0 s : Z) (n : nat) :
  fits_scale e0 -> fits_scale s -> e0 <= s ->
  e0 <= ema_seq e0 s n <= s.
Proof.
  intros He Hs Hle. induction n as [|n IH]; cbn [ema_seq]; [lia|].
  pose proof (ema_seq_fits e0 s n He Hs) as Hn.
  destruct (update_ema_between (ema_seq e0 s n) s Hn Hs) as [Hup _]. lia.
Qed.

Lemma ema_seq_above (e0 s : Z) (n : nat) :
  fits_scale e0 -> fits_scale s -> s <= e0 ->
  s <= ema_seq e0 s n <= e0.
Proof.
  intros He Hs Hle. induction n as [|n IH]; cbn [ema_seq]; [lia|].
  pose proof (ema_seq_fits e0 s n He Hs) as Hn.
  destruct (update_ema_between (ema_seq e0 s n) s Hn Hs) as [_ Hdown]. lia.
Qed.

(** Once a step leaves the EMA unchanged, every later step does. *)
Lemma ema_seq_stuck (e0 s : Z) (n : nat) :
  update_ema e0 s = e0 -> ema_seq e0 s n = e0.
Proof.
  intros Hfix. induction n as [|n IH]; cbn [ema_seq]; [reflexivity|].
  now rewrite IH.
Qed.

(** The distance to the sample is a natural number that a moving step
    strictly decreases, so the run stops moving. *)
Lemma ema_seq_stabilises (k : nat) :
  forall e0 s, fits_scale e0 -> fits_scale s ->
    (Z.to_nat (Z.abs (s - e0)) <= k)%nat ->
    exists N, forall n, (N <= n)%nat -> ema_seq e0 s (S n) = ema_seq e0 s n.
Proof.
  induction k as [|k IH]; intros e0 s He Hs Hk.
  - exists O. intros n _.
    assert (e0 = s) as -> by lia.
    assert (update_ema s s = s) as Hfix.
    { destruct (update_ema_between s s Hs Hs) as [Hup _]. lia. }
    now rewrite !ema_seq_stuck.
  - destruct (Z.eq_dec (update_ema e0 s) e0) as [Hfix|Hmove].
    + exists O. intros n _. now rewrite !ema_seq_stuck.
    + destruct (update_ema_between e0 s He Hs) as [Hup Hdown].
      destruct (IH (update_ema e0 s) s (update_ema_fits e0 s He Hs) Hs)
        as [N HN]; [lia|].
      exists (S N). intros n Hn. destruct n as [|n]; [lia|].
      rewrite (ema_seq_shift e0 s (S n)), (ema_seq_shift e0 s n).
      apply HN. lia.
Qed.

(** The fields [update_signature] writes, read back. *)
Lemma update_signature_fields (sig : proc_signature) (c m i j tp : Z) :
  let sig' := fst (update_signature sig c m i j tp) in
  cpu_ema sig' = update_ema (cpu_ema sig) c
  /\ mem_ema sig' = update_ema (mem_ema sig) m
  /\ io_ema sig' = update_ema (io_ema sig) i
  /\ cpu_roc sig' = calc_rate_of_change (update_ema (cpu_ema sig) c) (cpu_ema sig)
  /\ mem_roc sig' = calc_rate_of_change (update_ema (mem_ema sig) m) (mem_ema sig)
  /\ io_roc sig' = calc_rate_of_change (update_ema (io_ema sig) i) (io_ema sig)
  /\ pid sig' = pid sig /\ last_update sig' = j.
Proof. cbv zeta. unfold update_signature. cbn. repeat split; reflexivity. Qed.

(** Whatever its arguments, [update_ema] returns a value on the scale:
    every EMA the module stores (0 at creation, a result of [update_ema]
    afterwards) satisfies [fits_scale]. *)
Lemma update_ema_always_fits (e s : Z) : fits_scale (update_ema e s).
Proof.
  unfold update_ema, int_div, fits_scale.
  pose proof (wrap_int_range
                (int_mul ALPHA s + int_mul ALPHA_COMPLEMENT e)) as Hsum.
  fold (int_add (int_mul ALPHA s) (int_mul ALPHA_COMPLEMENT e)) in Hsum.
  set (x := int_add (int_mul ALPHA s) (int_mul ALPHA_COMPLEMENT e)) in *.
  change (INT_MAX / 100) with 21474836.
  unfold in_int, INT_MIN, INT_MAX in Hsum.
  rewrite wrap_int_small.
  - Z.to_euclidean_division_equations. lia.
  - unfold in_int, INT_MIN, INT_MAX.
    Z.to_euclidean_division_equations. lia.
Qed.

Lemma stored_emas_fit (sig : proc_signature) (c m i j tp : Z) :
  let sig' := fst (update_signature sig c m i j tp) in
  fits_scale (cpu_ema sig') /\ fits_scale (mem_ema sig')
  /\ fits_scale (io_ema sig').
Proof.
  destruct (update_signature_fields sig c m i j tp)
    as (E1 & E2 & E3 & _).
  cbv zeta. rewrite E1, E2, E3.
  repeat split; apply update_ema_always_fits.
Qed.

(** The EMAs and rates of change of a signature fed the same samples are
    the runs [ema_seq] and [roc_seq]. *)
Lemma repeat_update_runs (sig : proc_signature) (c m i : Z) (n : nat) :
  let sig' := repeat_update sig c m i n in
  let sig'' := repeat_update sig c m i (S n) in
  (cpu_ema sig' = ema_seq (cpu_ema sig) c n
   /\ mem_ema sig' = ema_seq (mem_ema sig) m n
   /\ io_ema sig' = ema_seq (io_ema sig) i n)
  /\ (cpu_roc sig'' = roc_seq (cpu_ema sig) c n
      /\ mem_roc sig'' = roc_seq (mem_ema sig) m n
      /\ io_roc sig'' = roc_seq (io_ema sig) i n).
Proof.
  cbv zeta.
  assert (cpu_ema (repeat_update sig c m i n) = ema_seq (cpu_ema sig) c n
          /\ mem_ema (repeat_update sig c m i n) = ema_seq (mem_ema sig) m n
          /\ io_ema (repeat_update sig c m i n) = ema_seq (io_ema sig) i n)
    as (Ec & Em & Ei).
  { induction n as [|n (Ec & Em & Ei)]; [now repeat split|].
    cbn [repeat_update ema_seq].
    destruct (update_signature_fields (repeat_update sig c m i n) c m i 0 0)
      as (E1 & E2 & E3 & _).
    rewrite E1, E2, E3, Ec, Em, Ei. now repeat split. }
  split; [now repeat split|].
  cbn [repeat_update]. unfold roc_seq. cbn [ema_seq].
  destruct (update_signature_fields (repeat_update sig c m i n) c m i 0 0)
    as (_ & _ & _ & R1 & R2 & R3 & _).
  rewrite R1, R2, R3, Ec, Em, Ei. now repeat split.
Qed.

(** The mask that clears the three prediction bits, and its low bits. *)
Lemma clear_mask_value :
  wrap_uint (Z.lnot (Z.lor (Z.lor FLAG_CPU_SPIKE_PREDICTED
                                  FLAG_MEM_SPIKE_PREDICTED)
                           FLAG_IO_SPIKE_PREDICTED)) = 4294967288.
Proof. reflexivity. Qed.

Lemma cleared_bit (f n : Z) :
  0 <= n <= 2 -> Z.testbit (Z.land f 4294967288) n = false.
Proof.
  intros Hn. rewrite Z.land_spec.
  assert (n = 0 \/ n = 1 \/ n = 2) as [-> | [-> | ->]] by lia;
    cbn; apply Bool.andb_false_r.
Qed.

Lemma lor_flag_bit (f k n : Z) :
  0 <= k -> 0 <= n ->
  Z.testbit (Z.lor f (Z.shiftl 1 k)) n = Z.testbit f n || (n =? k).
Proof.
  intros Hk Hn. rewrite Z.lor_spec, Z.shiftl_spec by assumption.
  f_equal. destruct (Z.eqb_spec n k) as [->|Hne].
  - now rewrite Z.sub_diag.
  - destruct (Z.lt_ge_cases n k).
    + apply Z.testbit_neg_r. lia.
    + apply Z.bits_above_log2; [lia|]. cbn. lia.
Qed.

(** C3. After an update of a signature each of the three spike flags is set
    exactly when the rate of change computed in this update is strictly
    above the threshold of its resource, whatever the flags were before:
    a flag never survives from an earlier tick. At a rate of change equal
    to the threshold (2000, 1500, 1000) the flag stays clear, one above it
    the flag is set, and a following tick with a slower rise clears it. *)
Theorem C3_spike_flags_current_tick (sig : proc_signature) (c m i j tp : Z) :
  let sig' := fst (update_signature sig c m i j tp) in
  Z.testbit (flags sig') 0 = (cpu_roc sig' >? 2000)
  /\ Z.testbit (flags sig') 1 = (mem_roc sig' >? 1500)
  /\ Z.testbit (flags sig') 2 = (io_roc sig' >? 1000)
  /\ (let at_threshold :=
        fst (update_signature (new_signature 0 1 None) 6667 5000 3334 1 0) in
      let above_threshold :=
        fst (update_signature (new_signature 0 1 None) 6670 5004 3337 1 0) in
      let next_tick :=
        fst (update_signature above_threshold 6670 5004 3337 2 0) in
      (cpu_roc at_threshold = 2000 /\ mem_roc at_threshold = 1500
       /\ io_roc at_threshold = 1000 /\ flags at_threshold = FLAG_ACTIVE)
      /\ (cpu_roc above_threshold = 2001 /\ mem_roc above_threshold = 1501
          /\ io_roc above_threshold = 1001
          /\ flags above_threshold =
             Z.lor FLAG_ACTIVE
               (Z.lor FLAG_CPU_SPIKE_PREDICTED
                  (Z.lor FLAG_MEM_SPIKE_PREDICTED FLAG_IO_SPIKE_PREDICTED)))
      /\ (cpu_roc next_tick = 1400 /\ flags next_tick = FLAG_ACTIVE)).
Proof.
  cbv zeta. split; [|split; [|split]].
  4: { vm_compute. repeat split; reflexivity. }
  all: unfold update_signature; cbn [fst flags cpu_roc mem_roc io_roc];
    rewrite clear_mask_value;
    unfold is_spike_predicted, CPU_SPIKE_THRESHOLD, MEM_SPIKE_THRESHOLD,
      IO_SPIKE_THRESHOLD, FLAG_CPU_SPIKE_PREDICTED, FLAG_MEM_SPIKE_PREDICTED,
      FLAG_IO_SPIKE_PREDICTED;
    repeat match goal with
           | |- context [if ?b then _ else _] => destruct b
           end;
    rewrite ?lor_flag_bit, ?cleared_bit by lia; reflexivity.
Qed.

(** *** The store: creation and capacity *)

Lemma atomic_inc_small (v : Z) :
  0 <= v < MAX_TRACKED_PROCS -> atomic_inc v = v + 1.
Proof.
  intros Hv. unfold atomic_inc. apply wrap_int_small.
  unfold in_int, INT_MIN, INT_MAX, MAX_TRACKED_PROCS in *. lia.
Qed.

Lemma get_or_create_found j ok p name st sig :
  proc_signatures st !! p = Some sig ->
  get_or_create_signature j ok p name st = (Some sig, st).
Proof. intros H. unfold get_or_create_signature. now rewrite H. Qed.


Lemma get_or_create_new j p name st :
  proc_signatures st !! p = None ->
  0 <= total_tracked st < MAX_TRACKED_PROCS ->
  get_or_create_signature j true p name st =
  (Some (new_signature j p name),
   mk_state (<[p := new_signature j p name]> (proc_signatures st))
     (total_tracked st + 1) (total_predictions st)).
Proof.
  intros H Hroom. unfold get_or_create_signature. rewrite H.
  destruct (Z.geb_spec (total_tracked st) MAX_TRACKED_PROCS); [lia|].
  cbn [negb]. now rewrite atomic_inc_small.
Qed.



Lemma store_ok_init : store_ok module_init.
Proof. split; cbn; [reflexivity|]. unfold MAX_TRACKED_PROCS. lia. Qed.








(** *** The sampling tick *)

Lemma get_or_create_keeps j ok p name st q :
  is_Some (proc_signatures st !! q) ->
  is_Some (proc_signatures (snd (get_or_create_signature j ok p name st)) !! q).
Proof.
  intros Hq. unfold get_or_create_signature.
  destruct (proc_signatures st !! p) eqn:Hp; [exact Hq|].
  destruct (total_tracked st >=? MAX_TRACKED_PROCS); [exact Hq|].
  destruct ok; cbn [negb snd proc_signatures]; [|exact Hq].
  rewrite lookup_insert_ne; [exact Hq|].
  intros ->. rewrite Hp in Hq. now destruct Hq.
Qed.

(** What [sample_task] does to the table, case by case. *)
Lemma sample_task_table (e : tick_env) (st : module_state) (t : task_struct) :
  proc_signatures (sample_task e st t) = proc_signatures st
  \/ (sampled t = true
      /\ exists sig',
           last_update sig' = jiffies e
           /\ proc_signatures (sample_task e st t)
              = <[t_pid t := sig']> (proc_signatures st)).
Proof.
  unfold sample_task, sampled.
  destruct (Z.land (t_flags t) PF_KTHREAD =? 0); cbn [negb andb]; [|now left].
  destruct (exit_state t =? 0); cbn [negb]; [|now left].
  unfold get_or_create_signature.
  destruct (proc_signatures st !! t_pid t) as [sig|] eqn:Hp.
  - right. split; [reflexivity|].
    destruct (update_signature_fields sig (get_cpu_sample (jiffies e) t)
                (get_mem_sample t) (get_io_sample (task_io_accounting e) t)
                (jiffies e) (total_predictions st))
      as (_ & _ & _ & _ & _ & _ & _ & Hlu).
    destruct (update_signature sig _ _ _ _ _) as [sig' tp] eqn:Hup.
    exists sig'. split; [exact Hlu|reflexivity].
  - destruct (total_tracked st >=? MAX_TRACKED_PROCS); [now left|].
    destruct (kzalloc_ok e (t_pid t)); cbn [negb]; [|now left].
    right. split; [reflexivity|].
    destruct (update_signature_fields (new_signature (jiffies e) (t_pid t)
                                         (Some (t_comm t)))
                (get_cpu_sample (jiffies e) t)
                (get_mem_sample t) (get_io_sample (task_io_accounting e) t)
                (jiffies e) (total_predictions st))
      as (_ & _ & _ & _ & _ & _ & _ & Hlu).
    cbn [total_predictions proc_signatures].
    destruct (update_signature _ _ _ _ _ _) as [sig' tp] eqn:Hup.
    exists sig'. split; [exact Hlu|].
    cbn [proc_signatures]. apply insert_insert_eq.
Qed.

Lemma sample_task_keeps e st t q :
  is_Some (proc_signatures st !! q) ->
  is_Some (proc_signatures (sample_task e st t) !! q).
Proof.
  intros Hq. destruct (sample_task_table e st t) as [-> | (_ & sig' & _ & ->)];
    [exact Hq|].
  destruct (decide (t_pid t = q)) as [->|Hne].
  - rewrite lookup_insert_eq. now eexists.
  - now rewrite lookup_insert_ne.
Qed.

Lemma sample_task_origin e st t q :
  is_Some (proc_signatures (sample_task e st t) !! q) ->
  is_Some (proc_signatures st !! q) \/ (t_pid t = q /\ sampled t = true).
Proof.
  destruct (sample_task_table e st t) as [-> | (Hs & sig' & _ & ->)];
    [now left|].
  destruct (decide (t_pid t = q)) as [->|Hne]; [now right|].
  rewrite lookup_insert_ne by assumption. now left.
Qed.

Lemma sample_task_stamps e st t :
  sampled t = true -> is_Some (proc_signatures st !! t_pid t) ->
  stamped e (sample_task e st t) (t_pid t).
Proof.
  intros Hs [sig Hsig]. unfold stamped, sample_task.
  unfold sampled in Hs. apply andb_prop in Hs as [-> ->]. cbn [negb].
  rewrite (get_or_create_found _ _ _ _ _ _ Hsig).
  destruct (update_signature_fields sig (get_cpu_sample (jiffies e) t)
              (get_mem_sample t) (get_io_sample (task_io_accounting e) t)
              (jiffies e) (total_predictions st))
    as (_ & _ & _ & _ & _ & _ & _ & Hlu).
  destruct (update_signature sig _ _ _ _ _) as [sig' tp].
  exists sig'. cbn [proc_signatures]. rewrite lookup_insert_eq. now split.
Qed.

Lemma sample_task_stamped_kept e st t q :
  stamped e st q -> stamped e (sample_task e st t) q.
Proof.
  intros (sig & Hsig & Hlu). unfold stamped.
  destruct (sample_task_table e st t) as [-> | (_ & sig' & Hlu' & ->)];
    [now exists sig|].
  destruct (decide (t_pid t = q)) as [->|Hne].
  - exists sig'. now rewrite lookup_insert_eq.
  - exists sig. now rewrite lookup_insert_ne.
Qed.

Lemma callback_keeps e tasks : forall st q,
  is_Some (proc_signatures st !! q) ->
  is_Some (proc_signatures (sample_timer_callback e tasks st) !! q).
Proof.
  unfold sample_timer_callback.
  induction tasks as [|t rest IH]; intros st q Hq; cbn [fold_left];
    [exact Hq|].
  apply IH. now apply sample_task_keeps.
Qed.

Lemma callback_origin e tasks : forall st q,
  is_Some (proc_signatures (sample_timer_callback e tasks st) !! q) ->
  is_Some (proc_signatures st !! q)
  \/ exists t, t ∈ tasks /\ t_pid t = q /\ sampled t = true.
Proof.
  unfold sample_timer_callback.
  induction tasks as [|t rest IH]; intros st q Hq; cbn [fold_left] in *;
    [now left|].
  destruct (IH _ _ Hq) as [Hin | (t' & Hin & Hp & Hs)].
  - destruct (sample_task_origin _ _ _ _ Hin) as [Hst | [Hp Hs]];
      [now left|].
    right. exists t. split; [left|now split].
  - right. exists t'. split; [now right|now split].
Qed.

Lemma callback_stamped_kept e tasks : forall st q,
  stamped e st q -> stamped e (sample_timer_callback e tasks st) q.
Proof.
  unfold sample_timer_callback.
  induction tasks as [|t rest IH]; intros st q Hq; cbn [fold_left];
    [exact Hq|].
  apply IH. now apply sample_task_stamped_kept.
Qed.

Lemma callback_stamps e tasks : forall st t,
  t ∈ tasks -> sampled t = true ->
  is_Some (proc_signatures st !! t_pid t) ->
  stamped e (sample_timer_callback e tasks st) (t_pid t).
Proof.
  induction tasks as [|t0 rest IH]; intros st t Hin Hs Hq.
  - now apply elem_of_nil in Hin.
  - apply elem_of_cons in Hin as [->|Hin].
    + apply (callback_stamped_kept e rest). now apply sample_task_stamps.
    + apply (IH (sample_task e st t0)); try assumption.
      now apply sample_task_keeps.
Qed.

Lemma sample_task_total e st t :
  0 <= total_tracked st ->
  total_tracked st <= total_tracked (sample_task e st t)
  /\ (total_tracked st < MAX_TRACKED_PROCS ->
      total_tracked (sample_task e st t) <= total_tracked st + 1).
Proof.
  intros Hpos. unfold sample_task.
  destruct (Z.land (t_flags t) PF_KTHREAD =? 0); cbn [negb]; [|lia].
  destruct (exit_state t =? 0); cbn [negb]; [|lia].
  unfold get_or_create_signature.
  destruct (proc_signatures st !! t_pid t) as [sig|].
  - destruct (update_signature sig _ _ _ _ _). cbn [total_tracked]. lia.
  - destruct (Z.geb_spec (total_tracked st) MAX_TRACKED_PROCS); [lia|].
    destruct (kzalloc_ok e (t_pid t)); cbn [negb]; [|lia].
    destruct (update_signature _ _ _ _ _ _). cbn [total_tracked].
    rewrite atomic_inc_small by lia. lia.
Qed.

Lemma sample_task_creates e st t :
  sampled t = true -> kzalloc_ok e (t_pid t) = true ->
  total_tracked st < MAX_TRACKED_PROCS ->
  is_Some (proc_signatures (sample_task e st t) !! t_pid t).
Proof.
  intros Hs Hmem Hroom. unfold sample_task.
  unfold sampled in Hs. apply andb_prop in Hs as [-> ->]. cbn [negb].
  unfold get_or_create_signature.
  destruct (proc_signatures st !! t_pid t) as [sig|].
  - destruct (update_signature sig _ _ _ _ _). cbn [proc_signatures].
    rewrite lookup_insert_eq. now eexists.
  - destruct (Z.geb_spec (total_tracked st) MAX_TRACKED_PROCS); [lia|].
    rewrite Hmem. cbn [negb].
    destruct (update_signature _ _ _ _ _ _). cbn [proc_signatures].
    rewrite lookup_insert_eq. now eexists.
Qed.

Lemma callback_creates e tasks : forall st t,
  0 <= total_tracked st ->
  total_tracked st + Z.of_nat (length tasks) <= MAX_TRACKED_PROCS ->
  (forall t', t' ∈ tasks -> kzalloc_ok e (t_pid t') = true) ->
  t ∈ tasks -> sampled t = true ->
  is_Some (proc_signatures (sample_timer_callback e tasks st) !! t_pid t).
Proof.
  induction tasks as [|t0 rest IH]; intros st t Hpos Hroom Hmem Hin Hs.
  - now apply elem_of_nil in Hin.
  - cbn [length] in Hroom.
    destruct (sample_task_total e st t0 Hpos) as [Hlo Hhi].
    apply elem_of_cons in Hin as [->|Hin].
    + apply (callback_keeps e rest). apply sample_task_creates;
        [assumption|apply Hmem; left|lia].
    + apply (IH (sample_task e st t0)); try assumption; try lia.
      intros t' Ht'. apply Hmem. now right.
Qed.

(** What a sampling tick does to the store: it never removes a signature
    (every pid in the store before the tick is in the store after it, in
    the snapshot or not); a pid is in the store after the tick only if it
    was there before or a live user task of the snapshot has it; such a
    task gets its signature whenever the limit and the allocator allow,
    and the signature of a sampled task is stamped with the tick. *)
Theorem tick_never_removes (e : tick_env) (tasks : list task_struct)
    (st : module_state) :
  let st' := sample_timer_callback e tasks st in
  (forall q, is_Some (proc_signatures st !! q) ->
             is_Some (proc_signatures st' !! q))
  /\ (forall q, is_Some (proc_signatures st' !! q) ->
        is_Some (proc_signatures st !! q)
        \/ exists t, t ∈ tasks /\ t_pid t = q /\ sampled t = true)
  /\ (forall t, t ∈ tasks -> sampled t = true ->
        is_Some (proc_signatures st !! t_pid t) ->
        exists sig, proc_signatures st' !! t_pid t = Some sig
                    /\ last_update sig = jiffies e)
  /\ (0 <= total_tracked st ->
      total_tracked st + Z.of_nat (length tasks) <= MAX_TRACKED_PROCS ->
      (forall t, t ∈ tasks -> kzalloc_ok e (t_pid t) = true) ->
      forall t, t ∈ tasks -> sampled t = true ->
        is_Some (proc_signatures st' !! t_pid t)).
Proof.
  cbv zeta. split; [|split; [|split]].
  - intros q. apply callback_keeps.
  - intros q. apply callback_origin.
  - intros t Hin Hs Hq. now apply callback_stamps.
  - intros Hpos Hroom Hmem t Hin Hs. now apply callback_creates.
Qed.

Example tick_never_removes_example :
  let st1 := sample_timer_callback tick_1 [task_a] module_init in
  let st2 := sample_timer_callback tick_2 [task_b] st1 in
  is_Some (proc_signatures st1 !! 7)
  /\ is_Some (proc_signatures st2 !! 7)
  /\ is_Some (proc_signatures st2 !! 8).
Proof.
  cbv zeta.
  assert (is_Some (proc_signatures
                     (sample_timer_callback tick_1 [task_a] module_init) !! 7))
    as H1 by (vm_compute; eexists; reflexivity).
  split; [exact H1|]. split.
  - destruct (tick_never_removes tick_2 [task_b]
                (sample_timer_callback tick_1 [task_a] module_init))
      as (Hkeep & _).
    exact (Hkeep 7 H1).
  - destruct (tick_never_removes tick_2 [task_b]
                (sample_timer_callback tick_1 [task_a] module_init))
      as (_ & _ & _ & Hnew).
    apply (Hnew ltac:(vm_compute; discriminate) ltac:(vm_compute; discriminate)
             ltac:(intros; reflexivity) task_b ltac:(left) ltac:(reflexivity)).
Defined.

(** C2, on the code. Task 7 is sampled at the first tick; the snapshot of
    the second tick holds only task 8, so pid 7 has left. The claim has the
    signature of pid 7 removed at the second tick; after that tick it is
    still in the store, unchanged, and the store counts two signatures. *)
Theorem C2_exited_pid_keeps_signature :
  let st1 := sample_timer_callback tick_1 [task_a] module_init in
  let st2 := sample_timer_callback tick_2 [task_b] st1 in
  ~ (exists t, t ∈ [task_b] /\ t_pid t = 7)
  /\ proc_signatures st2 !! 7 = proc_signatures st1 !! 7
  /\ proc_signatures st2 !! 7 <> None
  /\ total_tracked st2 = 2.
Proof.
  cbv zeta. split.
  - intros (t & Hin & Hp). apply list_elem_of_singleton in Hin. subst t.
    discriminate Hp.
  - vm_compute. repeat split; discriminate.
Qed.

(** *** The store over any run of ticks *)

(** The updated signature does not depend on the global counter. *)
Lemma update_signature_sig_only sig c m i j tp :
  fst (update_signature sig c m i j tp) = fst (update_signature sig c m i j 0).
Proof. unfold update_signature. cbv zeta. cbn [fst]. reflexivity. Qed.

(** What one iteration of the loop does to the state: nothing, an update
    of the signature found, or a creation followed by the update. *)
Lemma sample_task_cases (e : tick_env) (st : module_state) (t : task_struct) :
  (sample_task e st t = st
   /\ (sampled t = false
       \/ (proc_signatures st !! t_pid t = None
           /\ (MAX_TRACKED_PROCS <= total_tracked st
               \/ kzalloc_ok e (t_pid t) = false))))
  \/ (sampled t = true
      /\ exists sig, proc_signatures st !! t_pid t = Some sig
         /\ sample_task e st t
            = mk_state (<[t_pid t := sample_update e t sig]> (proc_signatures st))
                (total_tracked st)
                (snd (sample_result e t sig (total_predictions st))))
  \/ (sampled t = true
      /\ proc_signatures st !! t_pid t = None
      /\ total_tracked st < MAX_TRACKED_PROCS
      /\ kzalloc_ok e (t_pid t) = true
      /\ sample_task e st t
         = mk_state
             (<[t_pid t := sample_update e t
                             (new_signature (jiffies e) (t_pid t) (Some (t_comm t)))]>
                (proc_signatures st))
             (atomic_inc (total_tracked st))
             (snd (sample_result e t
                     (new_signature (jiffies e) (t_pid t) (Some (t_comm t)))
                     (total_predictions st)))).
Proof.
  unfold sample_task, sampled, sample_update, sample_result.
  destruct (Z.land (t_flags t) PF_KTHREAD =? 0); cbn [negb andb];
    [|left; split; [reflexivity|now left]].
  destruct (exit_state t =? 0); cbn [negb];
    [|left; split; [reflexivity|now left]].
  unfold get_or_create_signature.
  destruct (proc_signatures st !! t_pid t) as [sig|] eqn:Hp.
  - right; left. split; [reflexivity|]. exists sig. split; [reflexivity|].
    pose proof (update_signature_sig_only sig (get_cpu_sample (jiffies e) t)
      (get_mem_sample t) (get_io_sample (task_io_accounting e) t) (jiffies e)
      (total_predictions st)) as Hs.
    destruct (update_signature sig _ _ _ _ (total_predictions st))
      as [sig' tp].
    cbn [fst snd] in *. rewrite Hs. reflexivity.
  - destruct (Z.geb_spec (total_tracked st) MAX_TRACKED_PROCS).
    { left. split; [reflexivity|]. right. split; [reflexivity|now left]. }
    destruct (kzalloc_ok e (t_pid t)); cbn [negb].
    2: { left. split; [reflexivity|]. right. split; [reflexivity|now right]. }
    right; right. split; [reflexivity|]. split; [reflexivity|].
    split; [lia|]. split; [reflexivity|].
    cbn [total_predictions proc_signatures total_tracked].
    pose proof (update_signature_sig_only
      (new_signature (jiffies e) (t_pid t) (Some (t_comm t)))
      (get_cpu_sample (jiffies e) t)
      (get_mem_sample t) (get_io_sample (task_io_accounting e) t) (jiffies e)
      (total_predictions st)) as Hs.
    destruct (update_signature _ _ _ _ _ (total_predictions st))
      as [sig' tp].
    cbn [fst snd] in *. rewrite Hs, insert_insert_eq. reflexivity.
Qed.

Lemma new_signature_consistent j p name : sig_consistent (new_signature j p name).
Proof.
  unfold sig_consistent, fits_scale, expected_flags. cbn.
  repeat split; try reflexivity; vm_compute; discriminate.
Qed.

Lemma roc_of_fitting (a b : Z) :
  fits_scale a -> fits_scale b -> calc_rate_of_change a b = a - b.
Proof.
  unfold fits_scale, calc_rate_of_change. intros Ha Hb.
  apply int_sub_small. unfold in_int, INT_MIN, INT_MAX in *.
  change (2 ^ 31) with 2147483648 in *.
  change ((2147483648 - 1) / 100) with 21474836 in *. lia.
Qed.

(** From a flag word with [FLAG_ACTIVE] and no bit above the prediction
    bits, the update leaves [FLAG_ACTIVE] and the bits of this update. *)
Lemma update_flags_value (sig : proc_signature) (c m i j tp : Z) :
  128 <= flags sig <= 135 ->
  flags (fst (update_signature sig c m i j tp))
  = expected_flags (fst (update_signature sig c m i j tp)).
Proof.
  intros Hf.
  assert (Hcases : flags sig = 128 \/ flags sig = 129 \/ flags sig = 130
                   \/ flags sig = 131 \/ flags sig = 132 \/ flags sig = 133
                   \/ flags sig = 134 \/ flags sig = 135) by lia.
  unfold expected_flags, update_signature, is_spike_predicted. cbv zeta.
  cbn [fst flags cpu_roc mem_roc io_roc].
  rewrite clear_mask_value.
  destruct (_ >? CPU_SPIKE_THRESHOLD), (_ >? MEM_SPIKE_THRESHOLD),
    (_ >? IO_SPIKE_THRESHOLD);
    repeat (destruct Hcases as [->|Hcases]); try rewrite Hcases; reflexivity.
Qed.

Lemma update_signature_consistent (sig : proc_signature) (c m i j tp : Z) :
  sig_consistent sig -> sig_consistent (fst (update_signature sig c m i j tp)).
Proof.
  intros [(Hc & Hm & Hi) (_ & _ & Hfl)].
  pose proof (update_signature_fields sig c m i j tp) as Hf. cbv zeta in Hf.
  set (sig' := fst (update_signature sig c m i j tp)) in *.
  assert (Hprev : cpu_prev sig' = cpu_ema sig /\ mem_prev sig' = mem_ema sig
                  /\ io_prev sig' = io_ema sig) by (repeat split; reflexivity).
  destruct Hprev as (Hp1 & Hp2 & Hp3).
  destruct Hf as (E1 & E2 & E3 & R1 & R2 & R3 & _).
  split; [|split; [|split]].
  - rewrite E1, E2, E3. repeat split; apply update_ema_always_fits.
  - rewrite Hp1, Hp2, Hp3. repeat split; assumption.
  - rewrite R1, R2, R3, E1, E2, E3, Hp1, Hp2, Hp3.
    repeat split; apply roc_of_fitting; auto using update_ema_always_fits.
  - apply update_flags_value. rewrite Hfl. unfold expected_flags.
    destruct (_ >? _), (_ >? _), (_ >? _); vm_compute; split; discriminate.
Qed.

Lemma sample_update_pid e t sig : pid (sample_update e t sig) = pid sig.
Proof. reflexivity. Qed.

Lemma table_ok_init : table_ok module_init.
Proof.
  split; [apply store_ok_init|]. intros q sig H. cbn in H.
  rewrite lookup_empty in H. discriminate.
Qed.

Lemma table_ok_sample_task e st t : table_ok st -> table_ok (sample_task e st t).
Proof.
  intros [[Hsz Hmax] Hsigs].
  destruct (sample_task_cases e st t)
    as [[-> _]|[(_ & sig & Hp & ->)|(_ & Hp & Hlt & _ & ->)]].
  - split; [split|]; assumption.
  - destruct (Hsigs _ _ Hp) as [Hpid Hcons].
    split; [split|]; cbn [proc_signatures total_tracked].
    + rewrite Hsz. f_equal. unfold size, map_size.
      symmetry. apply map_size_insert_Some. eauto.
    + assumption.
    + intros q s Hq. destruct (decide (q = t_pid t)) as [->|Hne].
      * rewrite lookup_insert_eq in Hq. injection Hq as <-.
        split; [rewrite sample_update_pid; exact Hpid|].
        apply update_signature_consistent, Hcons.
      * rewrite lookup_insert_ne in Hq by congruence. eauto.
  - assert (Hnn : 0 <= total_tracked st) by lia.
    split; [split|]; cbn [proc_signatures total_tracked].
    + rewrite atomic_inc_small by lia.
      rewrite map_size_insert_None by assumption. lia.
    + rewrite atomic_inc_small by lia. lia.
    + intros q s Hq. destruct (decide (q = t_pid t)) as [->|Hne].
      * rewrite lookup_insert_eq in Hq. injection Hq as <-.
        split; [reflexivity|].
        apply update_signature_consistent, new_signature_consistent.
      * rewrite lookup_insert_ne in Hq by congruence. eauto.
Qed.

Lemma table_ok_callback e tasks : forall st,
  table_ok st -> table_ok (sample_timer_callback e tasks st).
Proof.
  unfold sample_timer_callback.
  induction tasks as [|t tasks IH]; intros st H; [exact H|].
  cbn [fold_left]. apply IH, table_ok_sample_task, H.
Qed.

Lemma table_ok_run ticks : forall st, table_ok st -> table_ok (run_ticks ticks st).
Proof.
  unfold run_ticks.
  induction ticks as [|[e tasks] ticks IH]; intros st H; [exact H|].
  cbn [fold_left fst snd]. apply IH, table_ok_callback, H.
Qed.

(** X1. After any number of timer ticks from module load, whatever the
    process lists and allocation outcomes were, the counter
    [total_tracked] equals the number of signatures in the table, it never
    exceeds [MAX_TRACKED_PROCS], and every signature is stored under its
    own pid. *)
Theorem X1_store_invariant (ticks : list (tick_env * list task_struct)) :
  let st := run_ticks ticks module_init in
  total_tracked st = Z.of_nat (size (proc_signatures st))
  /\ total_tracked st <= MAX_TRACKED_PROCS
  /\ (forall q sig, proc_signatures st !! q = Some sig -> pid sig = q).
Proof.
  cbv zeta. destruct (table_ok_run ticks module_init table_ok_init)
    as [[H1 H2] H3].
  repeat split; try assumption. intros q sig H. apply (H3 _ _ H).
Qed.

(** X2. Every signature found in the table after any run of ticks has its
    three EMAs and its three previous EMAs within [INT_MAX / 100] in
    absolute value, its three rates of change equal to the exact
    difference of the EMA and the previous EMA (no wrap-around), and a
    flag word that is [FLAG_ACTIVE] plus exactly the prediction bits of
    the rates of change above their thresholds. *)
Theorem X2_signature_invariant (ticks : list (tick_env * list task_struct))
    (q : Z) (sig : proc_signature) :
  proc_signatures (run_ticks ticks module_init) !! q = Some sig ->
  (fits_scale (cpu_ema sig) /\ fits_scale (mem_ema sig)
   /\ fits_scale (io_ema sig))
  /\ (fits_scale (cpu_prev sig) /\ fits_scale (mem_prev sig)
      /\ fits_scale (io_prev sig))
  /\ (cpu_roc sig = cpu_ema sig - cpu_prev sig
      /\ mem_roc sig = mem_ema sig - mem_prev sig
      /\ io_roc sig = io_ema sig - io_prev sig)
  /\ flags sig = expected_flags sig.
Proof.
  intros H. destruct (table_ok_run ticks module_init table_ok_init) as [_ H3].
  apply (H3 _ _ H).
Qed.

Lemma X2_signature_invariant_witness :
  exists sig,
    proc_signatures (run_ticks [(tick_1, [task_a]); (tick_2, [task_a; task_b])]
                       module_init) !! 7 = Some sig
    /\ cpu_roc sig = cpu_ema sig - cpu_prev sig
    /\ flags sig = expected_flags sig.
Proof.
  eexists. split; [vm_compute; reflexivity|].
  match goal with |- cpu_roc ?s = _ /\ _ =>
    pose proof (X2_signature_invariant
      [(tick_1, [task_a]); (tick_2, [task_a; task_b])] 7 s) as H end.
  destruct H as (_ & _ & (H1 & _) & H2); [vm_compute; reflexivity|].
  split; assumption.
Defined.

(** *** The prediction counters *)

Lemma atomic_inc_wrap (x : Z) : atomic_inc (wrap_int x) = wrap_int (x + 1).
Proof.
  unfold atomic_inc, wrap_int. change (2 ^ 31) with 2147483648.
  change (2 ^ 32) with 4294967296.
  Z.to_euclidean_division_equations. lia.
Qed.

Lemma wrap_u64_shift (u : Z) : exists q, wrap_u64 u = u - 4294967296 * q.
Proof.
  exists (4294967296 * (u / 2 ^ 64)). unfold wrap_u64.
  pose proof (Z.div_mod u (2 ^ 64)) as H.
  change (2 ^ 64) with (4294967296 * 4294967296) in *. lia.
Qed.

(** One update moves the global counter by as much as the counters of the
    signature, modulo [2 ^ 32]. *)
Lemma update_signature_counts (sig : proc_signature) (c m i j x : Z) :
  snd (update_signature sig c m i j (wrap_int x))
  = wrap_int (x - predicted sig
              + predicted (fst (update_signature sig c m i j 0))).
Proof.
  unfold update_signature, predicted. cbv zeta.
  cbn [fst snd cpu_spikes_predicted mem_spikes_predicted io_spikes_predicted].
  destruct (wrap_u64_shift (cpu_spikes_predicted sig + 1)) as [q1 ->].
  destruct (wrap_u64_shift (mem_spikes_predicted sig + 1)) as [q2 ->].
  destruct (wrap_u64_shift (io_spikes_predicted sig + 1)) as [q3 ->].
  destruct (is_spike_predicted _ CPU_SPIKE_THRESHOLD),
    (is_spike_predicted _ MEM_SPIKE_THRESHOLD),
    (is_spike_predicted _ IO_SPIKE_THRESHOLD);
    rewrite ?atomic_inc_wrap.
  all: unfold wrap_int; change (2 ^ 31) with 2147483648;
    change (2 ^ 32) with 4294967296;
    Z.to_euclidean_division_equations; lia.
Qed.

Lemma sum_predicted_insert_None (m : gmap Z proc_signature) k v :
  m !! k = None -> sum_predicted (<[k:=v]> m) = predicted v + sum_predicted m.
Proof.
  intros H. unfold sum_predicted.
  rewrite map_fold_insert_L; [reflexivity| |exact H].
  intros. lia.
Qed.

Lemma sum_predicted_insert_Some (m : gmap Z proc_signature) k v v' :
  m !! k = Some v ->
  sum_predicted (<[k:=v']> m) = sum_predicted m - predicted v + predicted v'.
Proof.
  intros H.
  rewrite <- (insert_delete_id m k v H) at 2.
  rewrite <- (insert_delete_eq m).
  rewrite !sum_predicted_insert_None by apply lookup_delete_eq. lia.
Qed.

Lemma counts_ok_sample_task e st t : counts_ok st -> counts_ok (sample_task e st t).
Proof.
  unfold counts_ok. intros H.
  destruct (sample_task_cases e st t)
    as [[-> _]|[(_ & sig & Hp & ->)|(_ & Hp & Hlt & _ & ->)]].
  - exact H.
  - cbn [proc_signatures total_predictions]. unfold sample_update, sample_result.
    rewrite H, update_signature_counts.
    rewrite (sum_predicted_insert_Some _ _ sig) by exact Hp.
    reflexivity.
  - cbn [proc_signatures total_predictions]. unfold sample_update, sample_result.
    rewrite H, update_signature_counts.
    rewrite sum_predicted_insert_None by exact Hp.
    f_equal. unfold predicted at 1. cbn [new_signature cpu_spikes_predicted
      mem_spikes_predicted io_spikes_predicted]. lia.
Qed.

Lemma counts_ok_run ticks : forall st, counts_ok st -> counts_ok (run_ticks ticks st).
Proof.
  unfold run_ticks, sample_timer_callback.
  induction ticks as [|[e tasks] ticks IH]; intros st H; [exact H|].
  cbn [fold_left fst snd]. apply IH. clear IH. revert st H.
  induction tasks as [|t tasks IHt]; intros st H; [exact H|].
  cbn [fold_left]. apply IHt, counts_ok_sample_task, H.
Qed.

(** X3. After any run of ticks the module-wide counter [total_predictions]
    is the sum, over all signatures in the table, of their CPU, memory and
    I/O prediction counters, reduced to a 32-bit [int]: no prediction is
    counted in one place and not in the other. *)
Theorem X3_prediction_counters_agree (ticks : list (tick_env * list task_struct)) :
  let st := run_ticks ticks module_init in
  total_predictions st = wrap_int (sum_predicted (proc_signatures st)).
Proof.
  apply counts_ok_run. unfold counts_ok, sum_predicted. cbn.
  rewrite map_fold_empty. reflexivity.
Qed.

(** *** Removal *)

Lemma atomic_dec_inc (v : Z) :
  0 <= v < MAX_TRACKED_PROCS -> atomic_dec (atomic_inc v) = v.
Proof.
  intros H. rewrite atomic_inc_small by exact H.
  unfold atomic_dec. rewrite wrap_int_small; [lia|].
  unfold in_int, INT_MIN, INT_MAX, MAX_TRACKED_PROCS in *. lia.
Qed.

(** X4. In a well-counted store with room, creating the signature of a pid
    that has none and then calling [remove_signature] on it gives back the
    state before the creation: table, [total_tracked] and
    [total_predictions]; in between the signature is in the table and the
    store is still well counted. *)
Theorem X4_create_remove_round_trip (j p : Z) (name : option string)
    (st : module_state) :
  store_ok st ->
  proc_signatures st !! p = None ->
  total_tracked st < MAX_TRACKED_PROCS ->
  exists sig st1,
    get_or_create_signature j true p name st = (Some sig, st1)
    /\ proc_signatures st1 !! p = Some sig
    /\ store_ok st1
    /\ remove_signature sig st1 = st.
Proof.
  intros [Hsz Hmax] Hp Hlt.
  assert (Hr : 0 <= total_tracked st < MAX_TRACKED_PROCS) by lia.
  rewrite (get_or_create_new j p name st Hp Hr).
  eexists _, _. split; [reflexivity|].
  cbn [proc_signatures total_tracked].
  split; [apply lookup_insert_eq|]. split.
  - split; cbn [proc_signatures total_tracked]; [|lia].
    rewrite map_size_insert_None by exact Hp. lia.
  - unfold remove_signature. cbn [proc_signatures total_tracked
      total_predictions new_signature pid].
    rewrite delete_insert_id by exact Hp.
    replace (total_tracked st + 1) with (atomic_inc (total_tracked st))
      by (apply atomic_inc_small; exact Hr).
    rewrite atomic_dec_inc by exact Hr. destruct st; reflexivity.
Qed.

Lemma X4_create_remove_round_trip_witness :
  exists sig st1,
    get_or_create_signature 0 true 7 (Some "worker") module_init = (Some sig, st1)
    /\ proc_signatures st1 !! 7 = Some sig
    /\ store_ok st1
    /\ remove_signature sig st1 = module_init.
Proof.
  apply (X4_create_remove_round_trip 0 7 (Some "worker") module_init).
  - apply store_ok_init.
  - reflexivity.
  - reflexivity.
Defined.

(** *** One tick, task by task *)

(** A task leaves the signatures of the other pids alone. *)
Lemma sample_task_frame e st t q :
  (sampled t = true -> t_pid t <> q) ->
  proc_signatures (sample_task e st t) !! q = proc_signatures st !! q.
Proof.
  intros H.
  destruct (sample_task_cases e st t)
    as [[-> _]|[(Hs & sig & _ & ->)|(Hs & _ & _ & _ & ->)]];
    [reflexivity| |]; cbn [proc_signatures];
    apply lookup_insert_ne; auto.
Qed.

Lemma callback_frame e tasks : forall st q,
  (forall t, t ∈ tasks -> sampled t = true -> t_pid t <> q) ->
  proc_signatures (sample_timer_callback e tasks st) !! q
  = proc_signatures st !! q.
Proof.
  unfold sample_timer_callback.
  induction tasks as [|t tasks IH]; intros st q H; [reflexivity|].
  cbn [fold_left]. rewrite IH.
  - apply sample_task_frame. apply H. left.
  - intros t' Ht'. apply H. now right.
Qed.

(** X5. One tick over a process list without repeated pids: a sampled task
    that had a signature has it replaced by the update of that signature
    with the task's own three samples; a sampled task without one gets the
    update of a fresh signature, provided the table has room for the whole
    list and the allocations succeed; and the signature of every pid that
    no sampled task of the list carries is left as it was. *)
Theorem X5_tick_updates_each_task_once (e : tick_env)
    (tasks : list task_struct) (st : module_state) :
  NoDup (map t_pid tasks) ->
  let st' := sample_timer_callback e tasks st in
  (forall t sig, t ∈ tasks -> sampled t = true ->
     proc_signatures st !! t_pid t = Some sig ->
     proc_signatures st' !! t_pid t = Some (sample_update e t sig))
  /\ (forall t, t ∈ tasks -> sampled t = true ->
        proc_signatures st !! t_pid t = None ->
        0 <= total_tracked st ->
        total_tracked st + Z.of_nat (length tasks) <= MAX_TRACKED_PROCS ->
        (forall t', t' ∈ tasks -> kzalloc_ok e (t_pid t') = true) ->
        proc_signatures st' !! t_pid t
        = Some (sample_update e t
                  (new_signature (jiffies e) (t_pid t) (Some (t_comm t)))))
  /\ (forall q, (forall t, t ∈ tasks -> sampled t = true -> t_pid t <> q) ->
        proc_signatures st' !! q = proc_signatures st !! q).
Proof.
  intros Hnd. cbv zeta. split; [|split]; [| |apply callback_frame].
  - revert st. induction tasks as [|t0 tasks IH]; intros st t sig Hin Hs Hp.
    { inversion Hin. }
    apply NoDup_cons in Hnd as [Hnotin Hnd].
    unfold sample_timer_callback. cbn [fold_left].
    fold (sample_timer_callback e tasks (sample_task e st t0)).
    apply elem_of_cons in Hin as [->|Hin].
    + rewrite callback_frame.
      * destruct (sample_task_cases e st t0)
          as [[_ [Hf|[Hf _]]]|[(_ & sig' & Hp' & ->)|(_ & Hf & _)]];
          try congruence.
        cbn [proc_signatures]. rewrite lookup_insert_eq. congruence.
      * intros t' Ht' _ Heq. apply Hnotin. rewrite <- Heq.
        apply list_elem_of_fmap. eauto.
    + apply IH; try assumption.
      rewrite sample_task_frame; [exact Hp|].
      intros _ Heq. apply Hnotin. rewrite Heq.
      apply list_elem_of_fmap. eauto.
  - revert st. induction tasks as [|t0 tasks IH];
      intros st t Hin Hs Hp H0 Hcap Hok.
    { inversion Hin. }
    apply NoDup_cons in Hnd as [Hnotin Hnd].
    unfold sample_timer_callback. cbn [fold_left].
    fold (sample_timer_callback e tasks (sample_task e st t0)).
    cbn [length] in Hcap.
    apply elem_of_cons in Hin as [->|Hin].
    + rewrite callback_frame.
      * destruct (sample_task_cases e st t0)
          as [[_ [Hf|[_ [Hf|Hf]]]]|[(_ & sig' & Hp' & _)|(_ & _ & _ & _ & ->)]];
          try congruence; try lia.
        -- rewrite Hok in Hf by left. discriminate.
        -- cbn [proc_signatures]. apply lookup_insert_eq.
      * intros t' Ht' _ Heq. apply Hnotin. rewrite <- Heq.
        apply list_elem_of_fmap. eauto.
    + destruct (sample_task_total e st t0 H0) as [H1 H2].
      apply IH; try assumption.
      * rewrite sample_task_frame; [exact Hp|].
        intros _ Heq. apply Hnotin. rewrite Heq.
        apply list_elem_of_fmap. eauto.
      * lia.
      * assert (total_tracked (sample_task e st t0) <= total_tracked st + 1)
          by (apply H2; lia). lia.
      * intros t' Ht'. apply Hok. now right.
Qed.

Lemma X5_tick_updates_each_task_once_witness :
  NoDup (map t_pid [task_a; task_b])
  /\ proc_signatures
       (sample_timer_callback tick_2 [task_a; task_b]
          (sample_timer_callback tick_1 [task_a] module_init)) !! 7
     = option_map (sample_update tick_2 task_a)
         (proc_signatures (sample_timer_callback tick_1 [task_a] module_init) !! 7).
Proof.
  assert (Hnd : NoDup (map t_pid [task_a; task_b])).
  { cbn. apply NoDup_cons. split;
      [rewrite list_elem_of_singleton; discriminate|apply NoDup_singleton]. }
  split; [exact Hnd|].
  destruct (X5_tick_updates_each_task_once tick_2 [task_a; task_b]
              (sample_timer_callback tick_1 [task_a] module_init) Hnd)
    as [H _].
  destruct (proc_signatures (sample_timer_callback tick_1 [task_a] module_init)
              !! 7) as [sig|] eqn:Hp; [|vm_compute in Hp; discriminate].
  cbn [option_map]. apply (H task_a sig); [left|reflexivity|exact Hp].
Defined.

(** *** Thresholds in units of the sample *)

(** The three threshold tests on [update_ema e s - e], solved for [s - e]. *)
Lemma spike_iff_jump (e s : Z) :
  rising_in_range e s ->
  is_spike_predicted (calc_rate_of_change (update_ema e s) e) CPU_SPIKE_THRESHOLD
    = (s - e >=? 6670)
  /\ is_spike_predicted (calc_rate_of_change (update_ema e s) e) MEM_SPIKE_THRESHOLD
    = (s - e >=? 5004)
  /\ is_spike_predicted (calc_rate_of_change (update_ema e s) e) IO_SPIKE_THRESHOLD
    = (s - e >=? 3337).
Proof.
  intros (H0 & He & Hs).
  destruct (fits_scale_no_overflow e s He Hs) as (O1 & O2 & O3).
  rewrite (roc_exact e s O1 O2 O3), (update_ema_exact e s O1 O2 O3).
  unfold is_spike_predicted, CPU_SPIKE_THRESHOLD, MEM_SPIKE_THRESHOLD,
    IO_SPIKE_THRESHOLD.
  repeat split.
  all: match goal with |- (?a >? ?b) = (?c >=? ?d) =>
         destruct (Z.gtb_spec a b), (Z.geb_spec c d); try reflexivity; exfalso
       end.
  all: Z.to_euclidean_division_equations; lia.
Qed.

Lemma update_flag_bits (sig : proc_signature) (c m i j tp : Z) :
  let sig' := fst (update_signature sig c m i j tp) in
  Z.testbit (flags sig') 0 = is_spike_predicted (cpu_roc sig') CPU_SPIKE_THRESHOLD
  /\ Z.testbit (flags sig') 1 = is_spike_predicted (mem_roc sig') MEM_SPIKE_THRESHOLD
  /\ Z.testbit (flags sig') 2 = is_spike_predicted (io_roc sig') IO_SPIKE_THRESHOLD.
Proof.
  cbv zeta. split; [|split].
  all: unfold update_signature; cbn [fst flags cpu_roc mem_roc io_roc];
    rewrite clear_mask_value;
    unfold FLAG_CPU_SPIKE_PREDICTED, FLAG_MEM_SPIKE_PREDICTED,
      FLAG_IO_SPIKE_PREDICTED;
    repeat match goal with
           | |- context [if ?b then _ else _] => destruct b
           end;
    rewrite ?lor_flag_bit, ?cleared_bit by lia; reflexivity.
Qed.

(** X6. The thresholds in units of the sample. For a non-negative EMA and
    a sample on the fixed-point scale, an update sets the CPU flag exactly
    when the sample exceeds the old EMA by at least 6670, the memory flag
    when it does by at least 5004 and the I/O flag by at least 3337: the
    thresholds 2000, 1500 and 1000 on the rate of change divided by the
    weight 0.3 of the sample and rounded up by the integer division. *)
Theorem X6_flags_from_sample_jump (sig : proc_signature) (c m i j tp : Z) :
  rising_in_range (cpu_ema sig) c ->
  rising_in_range (mem_ema sig) m ->
  rising_in_range (io_ema sig) i ->
  let sig' := fst (update_signature sig c m i j tp) in
  Z.testbit (flags sig') 0 = (c - cpu_ema sig >=? 6670)
  /\ Z.testbit (flags sig') 1 = (m - mem_ema sig >=? 5004)
  /\ Z.testbit (flags sig') 2 = (i - io_ema sig >=? 3337).
Proof.
  intros Hc Hm Hi. cbv zeta.
  destruct (update_flag_bits sig c m i j tp) as (B0 & B1 & B2).
  destruct (update_signature_fields sig c m i j tp)
    as (_ & _ & _ & R1 & R2 & R3 & _).
  cbv zeta in *. rewrite B0, B1, B2, R1, R2, R3.
  destruct (spike_iff_jump _ _ Hc) as (-> & _ & _).
  destruct (spike_iff_jump _ _ Hm) as (_ & -> & _).
  destruct (spike_iff_jump _ _ Hi) as (_ & _ & ->).
  repeat split.
Qed.

Lemma X6_flags_from_sample_jump_witness :
  let sig := new_signature 0 1 None in
  rising_in_range (cpu_ema sig) 6670
  /\ Z.testbit (flags (fst (update_signature sig 6670 5003 0 1 0))) 0 = true
  /\ Z.testbit (flags (fst (update_signature sig 6670 5003 0 1 0))) 1 = false.
Proof.
  cbv zeta.
  assert (H : forall s, 0 <= s <= 10000 -> rising_in_range 0 s).
  { intros s Hs. unfold rising_in_range, fits_scale, INT_MAX.
    change ((2 ^ 31 - 1) / 100) with 21474836. lia. }
  split; [apply H; lia|].
  destruct (X6_flags_from_sample_jump (new_signature 0 1 None) 6670 5003 0 1 0)
    as (H0 & H1 & _); try (apply H; lia).
  split; [exact H0|exact H1].
Defined.

(** *** The predictions file *)

(** The loop entered with [count = k < 100] prints the next [100 - k] rows. *)
Lemma predictions_loop_spec (walk : list proc_signature) :
  forall (k : nat) out, (k < 100)%nat ->
    predictions_loop walk (Z.of_nat k) out
    = (Z.of_nat (k + length (take (100 - k) walk)),
       out ++ map prediction_row (take (100 - k) walk)
           ++ (if (100 - k <=? length walk)%nat then [TruncatedNote] else [])).
Proof.
  induction walk as [|sig rest IH]; intros k out Hk.
  - cbn [predictions_loop]. rewrite take_nil. cbn [length map].
    destruct (Nat.leb_spec (100 - k) 0); [lia|].
    rewrite Nat.add_0_r, !app_nil_r. reflexivity.
  - cbn [predictions_loop].
    rewrite int_add_small
      by (unfold in_int, INT_MIN, INT_MAX; lia).
    replace (100 - k)%nat with (S (99 - k)) by lia.
    cbn [take length map].
    destruct (Z.geb_spec (Z.of_nat k + 1) 100) as [Hge|Hlt].
    + assert (k = 99%nat) by lia. subst k. cbn [Nat.sub].
      rewrite take_0. cbn [length map Nat.leb].
      rewrite <- app_assoc. reflexivity.
    + replace (Z.of_nat k + 1) with (Z.of_nat (S k)) by lia.
      rewrite IH by lia.
      replace (100 - S k)%nat with (99 - k)%nat by lia.
      rewrite <- app_assoc. cbn [app].
      apply pair_equal_spec. split; [lia|reflexivity].
Qed.

(** X7. [predictions_show] prints one row for each of the first 100
    signatures the table yields and no other row; the note that the list
    was truncated follows as soon as the table holds 100 signatures, also
    when it holds exactly 100 and nothing was cut; the note that no
    process is tracked appears exactly for the empty table. *)
Theorem X7_predictions_show_rows (walk : list proc_signature) :
  predictions_show walk
  = map prediction_row (take 100 walk)
    ++ (if (100 <=? length walk)%nat then [TruncatedNote] else [])
    ++ (match walk with [] => [NoProcessesNote] | _ :: _ => [] end).
Proof.
  unfold predictions_show.
  change 0 with (Z.of_nat 0) at 1.
  rewrite (predictions_loop_spec walk 0 []) by lia.
  cbn [Nat.sub app Nat.add].
  destruct walk as [|sig rest].
  - reflexivity.
  - cbn [take length]. rewrite app_nil_r.
    destruct (Z.eqb_spec (Z.of_nat (S (length (take 99 rest)))) 0); [lia|].
    reflexivity.
Qed.

(** X8. The row printed for a signature of the table after any run of
    ticks carries the pid it is stored under, and its three marks are
    ['*'] exactly for the rates of change of the last update that are
    above their thresholds. *)
Theorem X8_shown_marks_follow_rates (ticks : list (tick_env * list task_struct))
    (q : Z) (sig : proc_signature) :
  proc_signatures (run_ticks ticks module_init) !! q = Some sig ->
  prediction_row sig
  = PredictionRow q (comm sig)
      (cpu_roc sig >? CPU_SPIKE_THRESHOLD)
      (mem_roc sig >? MEM_SPIKE_THRESHOLD)
      (io_roc sig >? IO_SPIKE_THRESHOLD)
      (flags sig).
Proof.
  intros H.
  destruct (table_ok_run ticks module_init table_ok_init) as [_ H3].
  destruct (H3 _ _ H) as [Hpid (_ & _ & _ & Hfl)].
  unfold prediction_row. rewrite Hpid, Hfl. unfold expected_flags.
  destruct (cpu_roc sig >? CPU_SPIKE_THRESHOLD),
    (mem_roc sig >? MEM_SPIKE_THRESHOLD), (io_roc sig >? IO_SPIKE_THRESHOLD);
    reflexivity.
Qed.

Lemma X8_shown_marks_follow_rates_witness :
  let burst := mk_task 9 "burst" 0 0 100 0 1000 None 0 0 in
  exists sig,
    proc_signatures (run_ticks [(tick_1, [task_a; burst])] module_init) !! 9
    = Some sig
    /\ prediction_row sig = PredictionRow 9 "burst" true false false 129.
Proof.
  cbv zeta. eexists. split; [vm_compute; reflexivity|].
  match goal with |- prediction_row ?s = _ =>
    rewrite (X8_shown_marks_follow_rates
               [(tick_1, [task_a; mk_task 9 "burst" 0 0 100 0 1000 None 0 0])]
               9 s)
      by (vm_compute; reflexivity)
  end.
  vm_compute. reflexivity.
Defined.

(** *** EMAs within the range of the samples *)

Lemma update_ema_within (M e s : Z) :
  fits_scale M -> 0 <= e <= M -> 0 <= s <= M -> 0 <= update_ema e s <= M.
Proof.
  intros HM He Hs.
  assert (fits_scale e /\ fits_scale s) as [Fe Fs].
  { unfold fits_scale in *. split; lia. }
  destruct (update_ema_between e s Fe Fs) as [Hup Hdown].
  destruct (Z.le_ge_cases e s) as [Hle|Hge]; [specialize (Hup Hle)|
    specialize (Hdown ltac:(lia))]; lia.
Qed.

Lemma update_signature_within (M : Z) (sig : proc_signature) (c m i j tp : Z) :
  fits_scale M -> emas_within M sig ->
  0 <= c <= M -> 0 <= m <= M -> 0 <= i <= M ->
  emas_within M (fst (update_signature sig c m i j tp)).
Proof.
  intros HM [(Hc & Hm & Hi) _] Sc Sm Si.
  destruct (update_signature_fields sig c m i j tp)
    as (E1 & E2 & E3 & _). cbv zeta in *.
  split.
  - rewrite E1, E2, E3.
    split; [|split]; apply update_ema_within; assumption.
  - unfold update_signature. cbn [fst cpu_prev mem_prev io_prev].
    repeat split; lia.
Qed.

Lemma within_sample_task (M : Z) e st t :
  fits_scale M -> samples_within M e t ->
  (forall q sig, proc_signatures st !! q = Some sig -> emas_within M sig) ->
  forall q sig, proc_signatures (sample_task e st t) !! q = Some sig ->
    emas_within M sig.
Proof.
  intros HM (Sc & Sm & Si) Hall q sig.
  assert (Hnew : forall j p name, emas_within M (new_signature j p name)).
  { intros j p name. unfold emas_within, fits_scale in *. cbn.
    assert (0 <= M) by lia. lia. }
  destruct (sample_task_cases e st t)
    as [[-> _]|[(_ & s0 & Hp & ->)|(_ & Hp & _ & _ & ->)]];
    [apply Hall| |]; cbn [proc_signatures]; intros Hq;
    (destruct (decide (q = t_pid t)) as [->|Hne];
     [rewrite lookup_insert_eq in Hq; injection Hq as <-;
      apply update_signature_within; eauto
     |rewrite lookup_insert_ne in Hq by congruence; eauto]).
Qed.

Lemma within_run (M : Z) ticks : forall st,
  fits_scale M ->
  Forall (fun tk => Forall (samples_within M (fst tk)) (snd tk)) ticks ->
  (forall q sig, proc_signatures st !! q = Some sig -> emas_within M sig) ->
  forall q sig, proc_signatures (run_ticks ticks st) !! q = Some sig ->
    emas_within M sig.
Proof.
  unfold run_ticks, sample_timer_callback.
  induction ticks as [|[e tasks] ticks IH]; intros st HM Hs Hall;
    [exact Hall|].
  apply Forall_cons in Hs as [Hs0 Hs]. cbn [fst snd] in Hs0.
  cbn [fold_left fst snd]. apply IH; [exact HM|exact Hs|].
  clear IH Hs. revert st Hall.
  induction tasks as [|t tasks IHt]; intros st Hall; [exact Hall|].
  apply Forall_cons in Hs0 as [Ht Hs0].
  cbn [fold_left]. apply IHt; [exact Hs0|].
  apply within_sample_task; assumption.
Qed.

(** X26. An EMA stays within the range of the samples it averages: if
    every sample read in a run of ticks lies between 0 and a bound [M] on
    the fixed-point scale, then in every signature of the table the three
    EMAs lie between 0 and [M] (the integer division never pushes them
    out), and the three rates of change between [-M] and [M]. *)
Theorem X26_emas_stay_within_samples (M : Z)
    (ticks : list (tick_env * list task_struct)) (q : Z) (sig : proc_signature) :
  fits_scale M ->
  Forall (fun tk => Forall (samples_within M (fst tk)) (snd tk)) ticks ->
  proc_signatures (run_ticks ticks module_init) !! q = Some sig ->
  (0 <= cpu_ema sig <= M /\ 0 <= mem_ema sig <= M /\ 0 <= io_ema sig <= M)
  /\ (- M <= cpu_roc sig <= M /\ - M <= mem_roc sig <= M
      /\ - M <= io_roc sig <= M).
Proof.
  intros HM Hs Hq.
  assert (Hw : emas_within M sig).
  { apply (within_run M ticks module_init HM Hs) with (q := q); [|exact Hq].
    intros q' s' H. cbn in H. rewrite lookup_empty in H. discriminate. }
  destruct (table_ok_run ticks module_init table_ok_init) as [_ H3].
  destruct (H3 _ _ Hq) as [_ (_ & _ & (Rc & Rm & Ri) & _)].
  destruct Hw as [He Hp]. split; [exact He|].
  rewrite Rc, Rm, Ri. lia.
Qed.

Lemma X26_emas_stay_within_samples_witness :
  let ticks := [(tick_1, [task_a; task_b]); (tick_2, [task_a])] in
  fits_scale 10000
  /\ Forall (fun tk => Forall (samples_within 10000 (fst tk)) (snd tk)) ticks
  /\ exists sig,
       proc_signatures (run_ticks ticks module_init) !! 7 = Some sig
       /\ 0 <= cpu_ema sig <= 10000 /\ - 10000 <= cpu_roc sig <= 10000.
Proof.
  cbv zeta.
  assert (HM : fits_scale 10000) by (vm_compute; discriminate).
  assert (Hs : Forall (fun tk => Forall (samples_within 10000 (fst tk)) (snd tk))
                 [(tick_1, [task_a; task_b]); (tick_2, [task_a])]).
  { repeat constructor; vm_compute; discriminate. }
  split; [exact HM|]. split; [exact Hs|].
  eexists. split; [vm_compute; reflexivity|].
  match goal with |- 0 <= cpu_ema ?s <= _ /\ _ =>
    destruct (X26_emas_stay_within_samples 10000
                [(tick_1, [task_a; task_b]); (tick_2, [task_a])] 7 s HM Hs)
      as [(H1 & _) (H2 & _)]; [vm_compute; reflexivity|]
  end.
  split; assumption.
Defined.

(** *** The update on machine integers *)

Lemma wrap_int_idem_add (a b : Z) :
  wrap_int (wrap_int a + wrap_int b) = wrap_int (a + b).
Proof.
  unfold wrap_int. change (2 ^ 31) with 2147483648.
  change (2 ^ 32) with 4294967296.
  Z.to_euclidean_division_equations. lia.
Qed.

(** [update_ema] on machine integers: the weighted sum is reduced to an
    [int], then divided. *)
Lemma update_ema_machine (e s : Z) :
  update_ema e s = Z.quot (wrap_int (30 * s + 70 * e)) 100.
Proof.
  unfold update_ema, int_div, int_add, int_mul, ALPHA_COMPLEMENT, ALPHA.
  rewrite wrap_int_idem_add. change (100 - 30) with 70.
  apply wrap_int_small.
  pose proof (wrap_int_range (30 * s + 70 * e)) as H.
  unfold in_int, INT_MIN, INT_MAX in *.
  Z.to_euclidean_division_equations. lia.
Qed.

(** The result is the quotient of the recurrence exactly when the weighted
    sum is an [int]. *)
Lemma update_ema_exact_iff (e s : Z) :
  update_ema e s = Z.quot (30 * s + 70 * e) 100 <-> in_int (30 * s + 70 * e).
Proof.
  rewrite update_ema_machine. split.
  - intros H. unfold in_int, INT_MIN, INT_MAX.
    revert H. unfold wrap_int. change (2 ^ 31) with 2147483648.
    change (2 ^ 32) with 4294967296.
    Z.to_euclidean_division_equations. lia.
  - intros H. now rewrite wrap_int_small.
Qed.

Lemma fits_scale_sum_in_int (e s : Z) :
  fits_scale e -> fits_scale s -> in_int (30 * s + 70 * e).
Proof.
  unfold fits_scale, in_int.
  change (INT_MAX / 100) with 21474836.
  change INT_MAX with 2147483647. change INT_MIN with (-2147483648). lia.
Qed.

(** C4 (as the code has it). For each of the three resources the update
    stores [ema_new = wrap (30 * sample + 70 * ema_old) / 100], the sum
    reduced to a 32-bit [int] before the truncating division of C, and
    [roc = wrap (ema_new - ema_old)]. The stored EMA is the recurrence
    [(30 * sample + 70 * ema_old) / 100] exactly when that sum is an
    [int]; this is so whenever the sample and the old EMA are at most
    [INT_MAX / 100 = 21474836] in absolute value. The rate of change is
    the plain difference whenever the old EMA is on that scale, as every
    stored EMA is. From [ema = 0] the sample 8000 gives 2400; the same
    sample again gives 4080 with [roc = 1680], which does not set the CPU
    flag. *)
Theorem C4_predictor_recurrence (sig : proc_signature) (c m i j tp : Z) :
  let sig' := fst (update_signature sig c m i j tp) in
  ((cpu_ema sig' = Z.quot (wrap_int (30 * c + 70 * cpu_ema sig)) 100
    /\ cpu_roc sig' = wrap_int (cpu_ema sig' - cpu_ema sig))
   /\ (mem_ema sig' = Z.quot (wrap_int (30 * m + 70 * mem_ema sig)) 100
       /\ mem_roc sig' = wrap_int (mem_ema sig' - mem_ema sig))
   /\ (io_ema sig' = Z.quot (wrap_int (30 * i + 70 * io_ema sig)) 100
       /\ io_roc sig' = wrap_int (io_ema sig' - io_ema sig)))
  /\ ((cpu_ema sig' = Z.quot (30 * c + 70 * cpu_ema sig) 100
       <-> in_int (30 * c + 70 * cpu_ema sig))
      /\ (mem_ema sig' = Z.quot (30 * m + 70 * mem_ema sig) 100
          <-> in_int (30 * m + 70 * mem_ema sig))
      /\ (io_ema sig' = Z.quot (30 * i + 70 * io_ema sig) 100
          <-> in_int (30 * i + 70 * io_ema sig)))
  /\ ((fits_scale (cpu_ema sig) -> cpu_roc sig' = cpu_ema sig' - cpu_ema sig)
      /\ (fits_scale (mem_ema sig) -> mem_roc sig' = mem_ema sig' - mem_ema sig)
      /\ (fits_scale (io_ema sig) -> io_roc sig' = io_ema sig' - io_ema sig))
  /\ ((fits_scale (cpu_ema sig) -> fits_scale c ->
       cpu_ema sig' = Z.quot (30 * c + 70 * cpu_ema sig) 100)
      /\ (fits_scale (mem_ema sig) -> fits_scale m ->
          mem_ema sig' = Z.quot (30 * m + 70 * mem_ema sig) 100)
      /\ (fits_scale (io_ema sig) -> fits_scale i ->
          io_ema sig' = Z.quot (30 * i + 70 * io_ema sig) 100))
  /\ (let s1 := fst (update_signature (new_signature 0 1 None) 8000 0 0 1 0) in
      let s2 := fst (update_signature s1 8000 0 0 2 0) in
      cpu_ema (new_signature 0 1 None) = 0
      /\ cpu_ema s1 = 2400
      /\ cpu_ema s2 = 4080
      /\ cpu_roc s2 = 1680
      /\ is_spike_predicted (cpu_roc s2) CPU_SPIKE_THRESHOLD = false
      /\ Z.land (flags s2) FLAG_CPU_SPIKE_PREDICTED = 0).
Proof.
  intros sig'.
  destruct (update_signature_fields sig c m i j tp)
    as (E1 & E2 & E3 & R1 & R2 & R3 & _).
  fold sig' in E1, E2, E3, R1, R2, R3.
  split; [|split; [|split; [|split]]].
  - rewrite R1, R2, R3, E1, E2, E3, !update_ema_machine.
    unfold calc_rate_of_change, int_sub. repeat split.
  - rewrite E1, E2, E3. split; [|split]; apply update_ema_exact_iff.
  - rewrite R1, R2, R3, E1, E2, E3.
    repeat split; intros H; apply roc_of_fitting;
      auto using update_ema_always_fits.
  - rewrite E1, E2, E3.
    repeat split; intros He Hs; apply update_ema_exact_iff;
      now apply fits_scale_sum_in_int.
  - vm_compute. repeat split.
Qed.

Lemma C4_predictor_recurrence_witness :
  let sig := fst (update_signature (new_signature 0 1 None) 8000 0 0 1 0) in
  fits_scale (cpu_ema sig) /\ fits_scale 8000
  /\ cpu_ema (fst (update_signature sig 8000 0 0 2 0))
     = Z.quot (30 * 8000 + 70 * 2400) 100
  /\ cpu_roc (fst (update_signature sig 8000 0 0 2 0)) = 4080 - 2400.
Proof.
  cbv zeta.
  assert (H1 : fits_scale
                 (cpu_ema (fst (update_signature (new_signature 0 1 None)
                                  8000 0 0 1 0))))
    by (vm_compute; discriminate).
  assert (H2 : fits_scale 8000) by (vm_compute; discriminate).
  split; [exact H1|]. split; [exact H2|].
  destruct (C4_predictor_recurrence
              (fst (update_signature (new_signature 0 1 None) 8000 0 0 1 0))
              8000 0 0 2 0) as (_ & _ & (R & _) & (E & _) & _).
  split; [exact (E H1 H2)|]. rewrite (R H1), (E H1 H2). reflexivity.
Defined.

(** C4, where the recurrence does not hold. The memory sample of a task
    with 295279001 pages is 28835839; at the fourth tick that sees it the
    module holds the EMA 18945145 and stores -21037319, where the
    recurrence gives 21912353, and a rate of change of -39982464. Likewise
    [update_ema 0 100000000] is -12949672 and not 30000000. *)
Lemma C4_counterexample_overflow :
  get_mem_sample task_big = 28835839
  /\ ~ fits_scale 28835839
  /\ (exists sig,
        proc_signatures (run_ticks big_ticks module_init) !! 11 = Some sig
        /\ mem_prev sig = 18945145
        /\ mem_ema sig = -21037319
        /\ Z.quot (30 * 28835839 + 70 * mem_prev sig) 100 = 21912353
        /\ mem_roc sig = -39982464)
  /\ update_ema 0 100000000 = -12949672
  /\ Z.quot (30 * 100000000 + 70 * 0) 100 = 30000000.
Proof.
  split; [reflexivity|]. split; [vm_compute; intros H; apply H; reflexivity|].
  split; [|split; reflexivity].
  eexists. split; [vm_compute; reflexivity|]. repeat split.
Qed.

(** *** Repeated samples *)

(** One update brings the EMA closer to the sample by a factor 7/10, up to
    the rounding of the division. *)
Lemma update_ema_contracts (e s : Z) :
  fits_scale e -> fits_scale s ->
  10 * Z.abs (s - update_ema e s) <= 7 * Z.abs (s - e) + 10.
Proof.
  intros He Hs.
  rewrite (proj2 (update_ema_exact_iff e s) (fits_scale_sum_in_int e s He Hs)).
  Z.to_euclidean_division_equations. lia.
Qed.

(** An EMA the update leaves in place is within 3 of the sample. *)
Lemma update_ema_fixed_near (e s : Z) :
  fits_scale e -> fits_scale s -> update_ema e s = e -> Z.abs (s - e) <= 3.
Proof.
  intros He Hs.
  rewrite (proj2 (update_ema_exact_iff e s) (fits_scale_sum_in_int e s He Hs)).
  Z.to_euclidean_division_equations. lia.
Qed.

(** C9 (as the code has it). For a starting EMA and a sample [s] that are
    both at most [INT_MAX / 100 = 21474836] in absolute value, fed [s] at
    every tick the EMA moves monotonically toward [s] (up when it starts
    below, down when it starts above) and never passes [s]; the rate of
    change is the step just made; each step leaves at most 7/10 of the
    distance to [s], plus 1; the EMA moves as long as it is 4 or more away
    from [s]; and after finitely many ticks it stops, within 3 of [s],
    from when on the rate of change is 0. *)
Theorem C9_ema_monotone_convergence (e0 s : Z) :
  fits_scale e0 -> fits_scale s ->
  (e0 <= s -> forall n, ema_seq e0 s n <= ema_seq e0 s (S n) <= s)
  /\ (s <= e0 -> forall n, s <= ema_seq e0 s (S n) <= ema_seq e0 s n)
  /\ (forall n, roc_seq e0 s n = ema_seq e0 s (S n) - ema_seq e0 s n)
  /\ (forall n, 10 * Z.abs (s - ema_seq e0 s (S n))
                <= 7 * Z.abs (s - ema_seq e0 s n) + 10)
  /\ (forall n, 4 <= Z.abs (s - ema_seq e0 s n) ->
                ema_seq e0 s (S n) <> ema_seq e0 s n)
  /\ exists N, forall n, (N <= n)%nat ->
       ema_seq e0 s (S n) = ema_seq e0 s n
       /\ roc_seq e0 s n = 0
       /\ Z.abs (s - ema_seq e0 s n) <= 3.
Proof.
  intros He Hs.
  assert (Hfit : forall n, fits_scale (ema_seq e0 s n))
    by (intros n; now apply ema_seq_fits).
  split; [|split; [|split; [|split; [|split]]]].
  - intros Hle n.
    pose proof (ema_seq_below e0 s n He Hs Hle) as Hn.
    destruct (update_ema_between (ema_seq e0 s n) s (Hfit n) Hs) as [Hup _].
    cbn [ema_seq]. lia.
  - intros Hle n.
    pose proof (ema_seq_above e0 s n He Hs Hle) as Hn.
    destruct (update_ema_between (ema_seq e0 s n) s (Hfit n) Hs) as [_ Hdown].
    cbn [ema_seq]. lia.
  - intros n. unfold roc_seq. apply roc_of_fitting; apply Hfit.
  - intros n. cbn [ema_seq]. apply update_ema_contracts; [apply Hfit|exact Hs].
  - intros n Hfar Hstay. cbn [ema_seq] in Hstay.
    pose proof (update_ema_fixed_near _ _ (Hfit n) Hs Hstay). lia.
  - destruct (ema_seq_stabilises (Z.to_nat (Z.abs (s - e0))) e0 s He Hs)
      as [N HN]; [lia|].
    exists N. intros n Hn. split; [now apply HN|]. split.
    + unfold roc_seq. rewrite (HN n Hn).
      unfold calc_rate_of_change, int_sub. rewrite Z.sub_diag. reflexivity.
    + apply update_ema_fixed_near; [apply Hfit|exact Hs|].
      pose proof (HN n Hn) as H. cbn [ema_seq] in H. exact H.
Qed.

Lemma C9_ema_monotone_convergence_witness :
  fits_scale 0 /\ fits_scale 8000
  /\ (forall n, ema_seq 0 8000 n <= ema_seq 0 8000 (S n) <= 8000)
  /\ ema_seq 0 8000 1 = 2400 /\ ema_seq 0 8000 2 = 4080
  /\ roc_seq 0 8000 1 = 1680
  /\ exists N, forall n, (N <= n)%nat ->
       ema_seq 0 8000 (S n) = ema_seq 0 8000 n
       /\ roc_seq 0 8000 n = 0
       /\ Z.abs (8000 - ema_seq 0 8000 n) <= 3.
Proof.
  assert (fits_scale 0) as H0 by (vm_compute; discriminate).
  assert (fits_scale 8000) as H1 by (vm_compute; discriminate).
  destruct (C9_ema_monotone_convergence 0 8000 H0 H1)
    as (Hup & _ & Hroc & _ & _ & Hfix).
  split; [exact H0|]. split; [exact H1|].
  split; [|split; [|split; [|split]]].
  - apply Hup. vm_compute; discriminate.
  - reflexivity.
  - reflexivity.
  - rewrite Hroc. reflexivity.
  - exact Hfix.
Defined.

(** C9, where it does not hold. With the memory sample 28835839 of
    [task_big] at every tick, the EMA starts at 0, below the sample, and
    goes 8650751, 14706277, 18945145, -21037319: the fourth update goes
    down, to a value below the start. These are the values the module
    stores for the task. *)
Lemma C9_counterexample_not_monotone :
  get_mem_sample task_big = 28835839
  /\ map (ema_seq 0 28835839) [1; 2; 3; 4]%nat
     = [8650751; 14706277; 18945145; -21037319]
  /\ 0 <= 28835839
  /\ ~ (ema_seq 0 28835839 3 <= ema_seq 0 28835839 4)
  /\ ~ (0 <= ema_seq 0 28835839 4)
  /\ (exists sig,
        proc_signatures (run_ticks big_ticks module_init) !! 11 = Some sig
        /\ mem_ema sig = ema_seq 0 28835839 4
        /\ mem_prev sig = ema_seq 0 28835839 3).
Proof.
  split; [reflexivity|]. split; [reflexivity|]. split; [lia|].
  split; [vm_compute; intros H; apply H; reflexivity|].
  split; [vm_compute; intros H; apply H; reflexivity|].
  eexists. split; [vm_compute; reflexivity|]. split; reflexivity.
Qed.

End KernelFacts.

(** ** The response daemon *)

Module DaemonFacts.
Import Daemon.

(** *** Escalation *)


(** *** Tracking table *)

Lemma find_from_Some k p l i x :
  find_from k p l = Some (i, x) ->
  (k <= i)%nat /\ l !! (i - k)%nat = Some x /\ pid x = p.
Proof.
  revert k. induction l as [|y rest IH]; intros k H; cbn in H; [discriminate|].
  destruct (Z.eqb_spec (pid y) p) as [Hy|Hy].
  - injection H as <- <-. rewrite Nat.sub_diag. now repeat split.
  - apply IH in H as (Hk & Hl & Hp). split; [lia|]. split; [|assumption].
    replace (i - k)%nat with (S (i - S k)) by lia. exact Hl.
Qed.

Lemma find_from_None k p l :
  find_from k p l = None <-> Forall (fun x => pid x <> p) l.
Proof.
  revert k. induction l as [|y rest IH]; intros k; cbn.
  - split; [constructor|reflexivity].
  - destruct (Z.eqb_spec (pid y) p) as [Hy|Hy].
    + split; [discriminate|]. intros H. apply Forall_cons in H as [H _]. contradiction.
    + rewrite IH. split; [now constructor|]. intros H. now apply Forall_cons in H as [_ H].
Qed.

Lemma find_from_pids k p l l' :
  map pid l = map pid l' -> find_from k p l = None -> find_from k p l' = None.
Proof.
  rewrite !find_from_None. intros Hm H.
  apply Forall_forall. intros x Hx.
  assert (pid x ∈ map pid l') as Hin by (apply list_elem_of_fmap; eauto).
  rewrite <- Hm in Hin. apply list_elem_of_fmap in Hin as (y & Hy & Hin).
  rewrite Forall_forall in H. rewrite Hy. now apply H.
Qed.

Lemma find_from_insert k p l i x x' :
  find_from k p l = Some (i, x) -> pid x' = pid x ->
  find_from k p (<[(i - k)%nat := x']> l) = Some (i, x').
Proof.
  revert k. induction l as [|y rest IH]; intros k H Hp; cbn in H; [discriminate|].
  destruct (Z.eqb_spec (pid y) p) as [Hy|Hy].
  - injection H as <- <-. rewrite Nat.sub_diag. cbn.
    rewrite Hp. destruct (Z.eqb_spec (pid y) p); [reflexivity|contradiction].
  - pose proof (find_from_Some _ _ _ _ _ H) as (Hk & _).
    replace (i - k)%nat with (S (i - S k)) by lia. cbn.
    destruct (Z.eqb_spec (pid y) p); [contradiction|]. now apply IH.
Qed.

Lemma find_from_app_new k p l x :
  find_from k p l = None -> pid x = p ->
  find_from k p (l ++ [x]) = Some ((k + length l)%nat, x).
Proof.
  revert k. induction l as [|y rest IH]; intros k H Hp; cbn in *.
  - destruct (Z.eqb_spec (pid x) p); [|contradiction]. now rewrite Nat.add_0_r.
  - destruct (Z.eqb_spec (pid y) p); [discriminate|].
    rewrite IH by assumption. f_equal. f_equal. lia.
Qed.


(** Case analysis on every test of the goal. *)
Ltac split_ifs :=
  repeat match goal with
         | |- context [if ?b then _ else _] => destruct b eqn:?
         end.

Lemma handle_found k w p0 c roc d i p :
  find_tracked p0 d = Some (i, p) ->
  exists p', same_slot p p'
    /\ tracked (handle k w p0 c roc d) = <[i:=p']> (tracked d)
    /\ dry_run (handle k w p0 c roc d) = dry_run d.
Proof.
  intros Hf.
  destruct k; unfold handle, handle_cpu_spike, handle_mem_spike,
    handle_io_spike; rewrite Hf; cbv zeta;
    unfold set_nice, set_io_priority; split_ifs; cbn;
    rewrite ?list_insert_insert_eq;
    (eexists; split; [|split; [reflexivity|reflexivity]]);
    (split; [reflexivity|]); unfold well_marked; cbn; intros; try lia; auto.
Qed.

Lemma insert_last {A} (l : list A) (x y : A) :
  <[length l := x]> (l ++ [y]) = l ++ [x].
Proof.
  rewrite insert_app_r_alt by lia. now rewrite Nat.sub_diag.
Qed.

Lemma handle_full k w p0 c roc d :
  find_tracked p0 d = None -> MAX_TRACKED <= tracked_count d ->
  handle k w p0 c roc d = d.
Proof.
  intros Hf Hfull.
  destruct k; unfold handle, handle_cpu_spike, handle_mem_spike,
    handle_io_spike, add_tracked; rewrite Hf;
    destruct (Z.geb_spec (tracked_count d) MAX_TRACKED); try lia; reflexivity.
Qed.

Lemma handle_new k w p0 c roc d :
  find_tracked p0 d = None -> tracked_count d < MAX_TRACKED ->
  exists p', pid p' = p0 /\ well_marked p'
    /\ tracked (handle k w p0 c roc d) = tracked d ++ [p']
    /\ dry_run (handle k w p0 c roc d) = dry_run d.
Proof.
  intros Hf Hroom.
  destruct k; unfold handle, handle_cpu_spike, handle_mem_spike,
    handle_io_spike, add_tracked; rewrite Hf;
    destruct (Z.geb_spec (tracked_count d) MAX_TRACKED); try lia; cbv zeta;
    unfold set_nice, set_io_priority; split_ifs; cbn;
    rewrite ?list_insert_insert_eq, ?insert_last;
    (eexists; split; [|split; [|split; [reflexivity|reflexivity]]]);
    try reflexivity; unfold well_marked; cbn; intros; try lia; auto.
Qed.

Lemma sink_calls_app (a b : list event) :
  sink_calls (a ++ b) = (sink_calls a + sink_calls b)%nat.
Proof. unfold sink_calls. now rewrite List.filter_app, length_app. Qed.

Lemma restore_slot_spec w d i p :
  tracked d !! i = Some p ->
  tracked (restore_slot w d i)
  = (if restore_due w p && set_nice_ok w d (pid p) (original_nice p)
     then <[i:=restored p]> (tracked d) else tracked d)
  /\ dry_run (restore_slot w d i) = dry_run d
  /\ sink_calls (trace (restore_slot w d i))
     = (sink_calls (trace d) + (if restore_due w p then 1 else 0))%nat.
Proof.
  intros Hp. unfold restore_slot, set_nice, set_nice_ok. rewrite Hp.
  destruct (restore_due w p), (dry_run d) eqn:Hdry,
    (setpriority_ok w (pid p) (original_nice p));
    cbn -[sink_calls]; rewrite ?sink_calls_app; cbn; repeat split;
    try assumption; lia.
Qed.

Lemma restore_slot_out w d i :
  tracked d !! i = None -> restore_slot w d i = d.
Proof. intros Hp. unfold restore_slot. now rewrite Hp. Qed.


Lemma restore_fold w : forall m k d,
  (k + m = length (tracked d))%nat ->
  let d' := fold_left (restore_slot w) (seq k m) d in
  dry_run d' = dry_run d
  /\ length (tracked d') = length (tracked d)
  /\ (forall i p, tracked d !! i = Some p ->
        tracked d' !! i
        = Some (if (k <=? i)%nat then restore_outcome w d p else p))
  /\ sink_calls (trace d')
     = (sink_calls (trace d)
        + length (List.filter (restore_due w) (drop k (tracked d))))%nat.
Proof.
  induction m as [|m IH]; intros k d Hlen; cbn [seq fold_left].
  - cbv zeta. repeat split.
    + intros i p Hp. rewrite Hp.
      apply lookup_lt_Some in Hp.
      destruct (Nat.leb_spec k i); [lia|reflexivity].
    + rewrite drop_ge by lia. cbn. lia.
  - assert (is_Some (tracked d !! k)) as [pk Hpk]
      by (apply lookup_lt_is_Some; lia).
    destruct (restore_slot_spec w d k pk Hpk) as (Htr & Hdry & Hsink).
    assert (length (tracked (restore_slot w d k)) = length (tracked d)) as Hl.
    { rewrite Htr. destruct (_ && _); [apply length_insert|reflexivity]. }
    destruct (IH (S k) (restore_slot w d k)) as (IH1 & IH2 & IH3 & IH4);
      [lia|].
    cbv zeta. split; [congruence|]. split; [congruence|]. split.
    + intros i p Hp.
      destruct (Nat.eq_dec i k) as [->|Hne].
      * assert (p = pk) as -> by congruence.
        assert (tracked (restore_slot w d k) !! k
                = Some (restore_outcome w d pk)) as Hk.
        { rewrite Htr. unfold restore_outcome.
          destruct (_ && _); [|assumption].
          apply list_lookup_insert_eq. now apply lookup_lt_Some in Hpk. }
        rewrite (IH3 _ _ Hk).
        destruct (Nat.leb_spec (S k) k); [lia|].
        destruct (Nat.leb_spec k k); [reflexivity|lia].
      * assert (tracked (restore_slot w d k) !! i = Some p) as Hi.
        { rewrite Htr. destruct (_ && _); [|assumption].
          now rewrite list_lookup_insert_ne. }
        rewrite (IH3 _ _ Hi).
        unfold restore_outcome, set_nice_ok. rewrite Hdry.
        destruct (Nat.leb_spec (S k) i), (Nat.leb_spec k i);
          try reflexivity; lia.
    + rewrite IH4, Hsink.
      rewrite (drop_S _ _ _ Hpk). cbn [List.filter].
      assert (drop (S k) (tracked (restore_slot w d k))
              = drop (S k) (tracked d)) as ->.
      { rewrite Htr. destruct (_ && _); [|reflexivity].
        apply drop_insert_lt. lia. }
      destruct (restore_due w pk); cbn [length]; lia.
Qed.

Lemma find_tracked_insert p0 d i p p' d' :
  find_tracked p0 d = Some (i, p) -> pid p' = pid p ->
  tracked d' = <[i:=p']> (tracked d) ->
  find_tracked p0 d' = Some (i, p').
Proof.
  unfold find_tracked. intros Hf Hp ->.
  pose proof (find_from_insert 0 p0 (tracked d) i p p' Hf Hp) as H.
  now rewrite Nat.sub_0_r in H.
Qed.

Lemma handle_skips_in_cooldown k w p0 c roc d i p :
  k <> KMem ->
  find_tracked p0 d = Some (i, p) ->
  adjusted p <> 0 -> now w - adjusted_time p < 10 ->
  sink_calls (trace (handle k w p0 c roc d)) = sink_calls (trace d).
Proof.
  intros Hk Hf Hadj Hcool.
  destruct k; [|contradiction|];
    unfold handle, handle_cpu_spike, handle_io_spike; rewrite Hf; cbv zeta;
    unfold in_cooldown; cbn [adjusted adjusted_time mark_spike];
    destruct (level_eqb _ _);
    cbn -[sink_calls]; rewrite ?sink_calls_app; cbn; try lia;
    destruct (Z.eqb_spec (adjusted p) 0); try contradiction;
    destruct (Z.ltb_spec (now w - adjusted_time p) 10); try lia;
    reflexivity.
Qed.

Lemma find_from_insert0 p l i x x' :
  find_from 0 p l = Some (i, x) -> pid x' = pid x ->
  find_from 0 p (<[i:=x']> l) = Some (i, x').
Proof.
  intros Hf Hp. pose proof (find_from_insert 0 p l i x x' Hf Hp) as H.
  now rewrite Nat.sub_0_r in H.
Qed.

Lemma first_spike_level k w p c :
  get_escalation_level (mark_spike k w (fresh_tracked w p c))
  = ESCALATION_ADVISORY.
Proof. reflexivity. Qed.

Lemma first_cpu_spike_level k w n p c :
  get_escalation_level
    (mark_spike k w (set_original_nice n (fresh_tracked w p c)))
  = ESCALATION_ADVISORY.
Proof. reflexivity. Qed.

Lemma handle_acts_success k w p0 c roc d :
  k <> KMem ->
  sink_calls (trace (handle k w p0 c roc d)) <> sink_calls (trace d) ->
  sink_succeeds w d p0 ->
  sink_calls (trace (handle k w p0 c roc d)) = S (sink_calls (trace d))
  /\ exists i p, find_tracked p0 (handle k w p0 c roc d) = Some (i, p)
                 /\ adjusted p = 1 /\ adjusted_time p = now w
                 /\ last_seen p = now w.
Proof.
  intros Hk Hcall Hok.
  destruct (find_tracked p0 d) as [[i p]|] eqn:Hf.
  - pose proof Hf as Hf0. unfold find_tracked in Hf0.
    destruct k; [|contradiction|];
      revert Hcall;
      unfold handle, handle_cpu_spike, handle_io_spike; rewrite Hf; cbv zeta;
      unfold set_nice, set_io_priority; cbn [dry_run store with_tracked];
      (destruct Hok as [Hdry | [Hnice Hio]];
       [rewrite Hdry | rewrite ?Hnice, ?Hio]);
      split_ifs; cbn -[sink_calls]; rewrite ?sink_calls_app; cbn;
      intros Hcall; try lia;
      (split; [lia|]); rewrite ?list_insert_insert_eq;
      eexists i, _;
      (split; [apply (find_from_insert0 _ _ _ _ _ Hf0); reflexivity|]);
      repeat split.
  - exfalso. apply Hcall.
    destruct (Z.lt_ge_cases (tracked_count d) MAX_TRACKED) as [Hroom|Hfull].
    + destruct k; [|contradiction|];
        unfold handle, handle_cpu_spike, handle_io_spike, add_tracked;
        rewrite Hf;
        destruct (Z.geb_spec (tracked_count d) MAX_TRACKED); try lia;
        cbv zeta; rewrite ?first_spike_level, ?first_cpu_spike_level;
        cbn -[sink_calls]; rewrite ?sink_calls_app; cbn; lia.
    + now rewrite handle_full.
Qed.

Lemma find_from_first k p l i x :
  find_from k p l = Some (i, x) ->
  forall j y, (j < i - k)%nat -> l !! j = Some y -> pid y <> p.
Proof.
  revert k. induction l as [|z rest IH]; intros k H j y Hj Hy; cbn in H;
    [discriminate|].
  destruct (Z.eqb_spec (pid z) p) as [Hz|Hz].
  - injection H as <- <-. lia.
  - destruct j as [|j]; cbn in Hy.
    + now injection Hy as <-.
    + apply (IH (S k) H j y); [lia|assumption].
Qed.

Lemma find_from_intro p l : forall k i x,
  l !! i = Some x -> pid x = p ->
  (forall j y, (j < i)%nat -> l !! j = Some y -> pid y <> p) ->
  find_from k p l = Some ((k + i)%nat, x).
Proof.
  induction l as [|z rest IH]; intros k i x Hx Hp Hfirst; [discriminate|].
  cbn. destruct i as [|i]; cbn in Hx.
  - injection Hx as ->. destruct (Z.eqb_spec (pid x) p); [|contradiction].
    now rewrite Nat.add_0_r.
  - destruct (Z.eqb_spec (pid z) p) as [Hz|Hz].
    + exfalso. apply (Hfirst O z); [lia|reflexivity|assumption].
    + rewrite (IH (S k) i x Hx Hp).
      * f_equal. f_equal. lia.
      * intros j y Hj Hy. apply (Hfirst (S j) y); [lia|exact Hy].
Qed.

Lemma restore_priorities_spec w d :
  let d' := restore_priorities w d in
  dry_run d' = dry_run d
  /\ length (tracked d') = length (tracked d)
  /\ (forall i p, tracked d !! i = Some p ->
        tracked d' !! i = Some (restore_outcome w d p))
  /\ sink_calls (trace d')
     = (sink_calls (trace d)
        + length (List.filter (restore_due w) (tracked d)))%nat.
Proof.
  destruct (restore_fold w (length (tracked d)) 0 d eq_refl)
    as (H1 & H2 & H3 & H4).
  unfold restore_priorities. cbv zeta. repeat split; assumption.
Qed.

Lemma restore_outcome_pid w d p : pid (restore_outcome w d p) = pid p.
Proof. unfold restore_outcome. now destruct (_ && _). Qed.

Lemma restore_pids w d :
  map pid (tracked (restore_priorities w d)) = map pid (tracked d).
Proof.
  destruct (restore_priorities_spec w d) as (_ & Hlen & Hent & _).
  apply list_eq. intros i. rewrite !list_lookup_fmap.
  destruct (tracked d !! i) as [p|] eqn:Hp.
  - rewrite (Hent i p Hp). cbn. now rewrite restore_outcome_pid.
  - apply lookup_ge_None in Hp.
    rewrite (proj2 (lookup_ge_None _ _)); [reflexivity|lia].
Qed.

Lemma restore_keeps_found w d p0 i p :
  find_tracked p0 d = Some (i, p) -> restore_due w p = false ->
  find_tracked p0 (restore_priorities w d) = Some (i, p).
Proof.
  unfold find_tracked. intros Hf Hdue.
  destruct (restore_priorities_spec w d) as (_ & Hlen & Hent & _).
  destruct (find_from_Some _ _ _ _ _ Hf) as (_ & Hi & Hp).
  rewrite Nat.sub_0_r in Hi.
  apply (find_from_intro p0 _ 0 i p).
  - rewrite (Hent i p Hi). unfold restore_outcome. now rewrite Hdue.
  - exact Hp.
  - intros j y Hj Hy.
    assert (is_Some (tracked d !! j)) as [q Hq].
    { apply lookup_lt_is_Some. apply lookup_lt_Some in Hy. lia. }
    rewrite (Hent j q Hq) in Hy. injection Hy as <-.
    rewrite restore_outcome_pid.
    apply (find_from_first _ _ _ _ _ Hf j q); [lia|assumption].
Qed.

(** *** Invariants of the reachable states *)

Lemma handle_cases k w p0 c roc d :
  dry_run (handle k w p0 c roc d) = dry_run d
  /\ ((find_tracked p0 d = None /\ MAX_TRACKED <= tracked_count d
       /\ handle k w p0 c roc d = d)
      \/ (exists i p p', tracked d !! i = Some p /\ same_slot p p'
            /\ tracked (handle k w p0 c roc d) = <[i:=p']> (tracked d))
      \/ (exists p', tracked_count d < MAX_TRACKED /\ well_marked p'
            /\ tracked (handle k w p0 c roc d) = tracked d ++ [p'])).
Proof.
  destruct (find_tracked p0 d) as [[i p]|] eqn:Hf.
  - destruct (handle_found k w p0 c roc d i p Hf) as (p' & Hs & Ht & Hd).
    split; [exact Hd|]. right; left. exists i, p, p'.
    unfold find_tracked in Hf. apply find_from_Some in Hf as (_ & Hi & _).
    rewrite Nat.sub_0_r in Hi. split; [exact Hi|]. split; [exact Hs|exact Ht].
  - destruct (Z.lt_ge_cases (tracked_count d) MAX_TRACKED) as [Hroom|Hfull].
    + destruct (handle_new k w p0 c roc d Hf Hroom) as (p' & _ & Hm & Ht & Hd).
      split; [exact Hd|]. right; right. now exists p'.
    + rewrite (handle_full k w p0 c roc d Hf Hfull). split; [reflexivity|].
      left. now repeat split.
Qed.

Lemma step_cases d d' :
  step d d' ->
  dry_run d' = dry_run d
  /\ ((map pid (tracked d') = map pid (tracked d)
       /\ (Forall well_marked (tracked d) -> Forall well_marked (tracked d')))
      \/ (exists p', tracked_count d < MAX_TRACKED /\ well_marked p'
            /\ tracked d' = tracked d ++ [p'])).
Proof.
  assert (forall k w p0 c roc,
            dry_run (handle k w p0 c roc d) = dry_run d
            /\ ((map pid (tracked (handle k w p0 c roc d)) = map pid (tracked d)
                 /\ (Forall well_marked (tracked d) ->
                     Forall well_marked (tracked (handle k w p0 c roc d))))
                \/ (exists p', tracked_count d < MAX_TRACKED /\ well_marked p'
                      /\ tracked (handle k w p0 c roc d) = tracked d ++ [p'])))
    as Hhandle.
  { intros k w p0 c roc.
    destruct (handle_cases k w p0 c roc d)
      as (Hd & [(_ & _ & ->) | [(i & p & p' & Hi & [Hp Hm] & ->) | Hnew]]).
    - split; [reflexivity|]. left. now split.
    - split; [exact Hd|]. left. split.
      + rewrite list_fmap_insert, Hp. apply list_insert_id.
        now rewrite list_lookup_fmap, Hi.
      + intros Hall. apply Forall_insert; [assumption|].
        apply Hm. rewrite Forall_lookup in Hall. now apply (Hall i).
    - split; [exact Hd|]. now right. }
  intros Hstep. destruct Hstep as [w p0 c roc d|w p0 c roc d|w p0 c roc d|w d|w d].
  - apply (Hhandle KCpu).
  - apply (Hhandle KMem).
  - apply (Hhandle KIo).
  - destruct (restore_priorities_spec w d) as (Hd & Hlen & Hent & _).
    split; [exact Hd|]. left. split; [apply restore_pids|].
    intros Hall. apply Forall_lookup. intros i x Hx.
    assert (is_Some (tracked d !! i)) as [p Hp].
    { apply lookup_lt_is_Some. apply lookup_lt_Some in Hx. lia. }
    rewrite (Hent i p Hp) in Hx. injection Hx as <-.
    unfold restore_outcome. destruct (_ && _).
    + intros Hesc. now contradiction Hesc.
    + rewrite Forall_lookup in Hall. now apply (Hall i).
  - unfold check_persistent_spikes. destruct (_ <? _); cbn; split; try reflexivity;
      left; now split.
Qed.


Lemma steps_full_pids d d' :
  rtc step d d' -> MAX_TRACKED <= tracked_count d ->
  map pid (tracked d') = map pid (tracked d).
Proof.
  induction 1 as [|x y z Hstep Hrun IH]; intros Hfull; [reflexivity|].
  destruct (step_cases _ _ Hstep) as (_ & [[Hp _] | (p' & Hroom & _)]); [|lia].
  rewrite IH, Hp; [reflexivity|].
  unfold tracked_count in *.
  rewrite <- (length_map pid (tracked y)), Hp, length_map. exact Hfull.
Qed.

(** A whole pass of [process_predictions] is a run of single steps, so the
    invariants of the reachable states hold along the main loop. *)
Lemma process_line_steps w stats d line :
  rtc step d (process_line w stats d line).
Proof.
  unfold process_line.
  destruct (scan_prediction line) as [[[[[p0 c] f1] f2] f3]|];
    [|apply rtc_refl].
  destruct (read_roc_values stats p0) as [[r1 r2] r3].
  destruct (is_star f1), (is_star f2), (is_star f3);
    repeat first [ apply rtc_refl
                 | eapply rtc_r; [|apply step_io]
                 | eapply rtc_r; [|apply step_mem]
                 | eapply rtc_r; [|apply step_cpu] ].
Qed.

Lemma handle_lines_steps w stats content d :
  rtc step d (handle_lines w stats content d).
Proof.
  unfold handle_lines. generalize (drop 4 (file_lines content)). intros lines.
  revert d. induction lines as [|ln rest IH]; intros d; cbn [fold_left];
    [apply rtc_refl|].
  eapply rtc_trans; [apply process_line_steps|apply IH].
Qed.

Lemma process_predictions_steps w fs d :
  rtc step d (process_predictions w fs d).
Proof.
  unfold process_predictions.
  destruct (predictions_file fs) as [content|]; [|apply rtc_refl].
  eapply rtc_r; [apply handle_lines_steps|apply step_restore].
Qed.

Lemma main_loop_reachable w fs d :
  reachable d -> reachable (main_loop_body w fs d).
Proof.
  intros (dry & start & Hrun). exists dry, start. unfold main_loop_body.
  eapply rtc_r; [|apply step_persistent].
  eapply rtc_trans; [exact Hrun|apply process_predictions_steps].
Qed.

(** The table never outgrows the array. *)
Lemma reachable_within_table d :
  reachable d -> tracked_count d <= MAX_TRACKED.
Proof.
  intros (dry & start & Hrun).
  refine (rtc_ind_r (fun z => tracked_count z <= MAX_TRACKED) _ _ _ _ Hrun).
  - unfold tracked_count, MAX_TRACKED. cbn. lia.
  - intros y z _ Hstep IH.
    destruct (step_cases _ _ Hstep) as (_ & [[Hp _] | (p' & Hroom & _ & Ht)]).
    + unfold tracked_count in *.
      now rewrite <- (length_map pid (tracked z)), Hp, length_map.
    + unfold tracked_count in *. rewrite Ht, length_app. cbn [length]. lia.
Qed.

(** C6 (as the code has it). For the CPU and I/O handlers: when a tick
    reaches the action sink and the action succeeds, the next CPU or I/O
    tick for the same process, coming before the cooldown of its category
    has passed since the first, makes no call to the action sink, so the
    two ticks make exactly one. The restoration pass between the two ticks,
    at most 5 seconds after the first, leaves the entry alone. Nothing is
    said here of the memory handler. *)
Theorem C6_cooldown_single_call (k1 k2 : spike_kind) (w1 wr w2 : world)
    (p0 : Z) (c1 c2 : string) (roc1 roc2 : Z) (d : daemon) :
  k1 <> KMem -> k2 <> KMem ->
  let d1 := handle k1 w1 p0 c1 roc1 d in
  let dr := restore_priorities wr d1 in
  let d2 := handle k2 w2 p0 c2 roc2 dr in
  sink_calls (trace d1) <> sink_calls (trace d) ->
  sink_succeeds w1 d p0 ->
  now wr - now w1 <= 5 ->
  now w2 - now w1 < cooldown_secs (config_of k2) ->
  sink_calls (trace d1) = S (sink_calls (trace d))
  /\ sink_calls (trace d2) = sink_calls (trace dr).
Proof.
  intros Hk1 Hk2 d1 dr d2 Hcall Hok Hquiet Hcool.
  destruct (handle_acts_success k1 w1 p0 c1 roc1 d Hk1 Hcall Hok)
    as (Hone & i & p & Hf & Hadj & Htime & Hseen).
  split; [exact Hone|].
  assert (restore_due wr p = false) as Hdue.
  { unfold restore_due. rewrite Hseen.
    destruct (Z.gtb_spec (now wr - now w1) 5); [lia|apply andb_false_r]. }
  pose proof (restore_keeps_found wr _ p0 i p Hf Hdue) as Hfr.
  apply (handle_skips_in_cooldown k2 w2 p0 c2 roc2 dr i p Hk2 Hfr).
  - rewrite Hadj. discriminate.
  - rewrite Htime. destruct k2; [exact Hcool|contradiction|exact Hcool].
Qed.

Lemma C6_cooldown_single_call_witness :
  let d := repeat_spike KCpu (world_at 100 true) 42 2 (daemon_init false 0) in
  let d1 := handle KCpu (world_at 100 true) 42 "job" 2500 d in
  let dr := restore_priorities (world_at 100 true) d1 in
  let d2 := handle KIo (world_at 101 true) 42 "job" 1200 dr in
  sink_calls (trace d1) <> sink_calls (trace d)
  /\ sink_succeeds (world_at 100 true) d 42
  /\ sink_calls (trace d1) = S (sink_calls (trace d))
  /\ sink_calls (trace d2) = sink_calls (trace dr).
Proof.
  intros d d1 dr d2.
  assert (sink_calls (trace d1) <> sink_calls (trace d)) as Hcall
    by (vm_compute; discriminate).
  assert (sink_succeeds (world_at 100 true) d 42) as Hok
    by (right; split; intros; reflexivity).
  split; [exact Hcall|]. split; [exact Hok|].
  apply (C6_cooldown_single_call KCpu KIo (world_at 100 true)
           (world_at 100 true) (world_at 101 true) 42 "job" "job" 2500 1200 d);
    try discriminate; try assumption; vm_compute; congruence.
Defined.

(** C6, the part that does not hold. (1) A CPU action succeeds at time
    100; the process goes quiet and is restored at 106, which clears
    [adjusted]; three CPU spikes at 107 bring it back to SOFT and the third
    calls the action sink, 7 seconds after the last action and inside the
    cooldown of 10. (2) When the first CPU action fails, no time of last
    action is recorded and the tick one second later calls the action sink
    again. (3) In the memory category at CRITICAL level two ticks one second
    apart both call the action sink: that handler tests no cooldown. *)
Lemma C6_counterexample_two_calls :
  (let d1 := repeat_spike KCpu (world_at 100 true) 42 3 (daemon_init false 0) in
   let dr := restore_priorities (world_at 106 true) d1 in
   let d2 := repeat_spike KCpu (world_at 107 true) 42 2 dr in
   let d3 := handle KCpu (world_at 107 true) 42 "job" 2500 d2 in
   find_tracked 42 d1
   = Some (0%nat, mk_tracked 42 "job" 0 (-5) 1 100 100 1 3 ESCALATION_SOFT 1)
   /\ find_tracked 42 d2
      = Some (0%nat, mk_tracked 42 "job" 0 0 0 100 107 1 2 ESCALATION_NONE 1)
   /\ 107 - 100 < cooldown_secs (config_of KCpu)
   /\ sink_calls (trace d3) = S (sink_calls (trace d2))
   /\ List.last (trace d3) (EvLog "" "" 0) = EvLog "CPU" "BOOST" 42)
  /\ (let w1 := world_at 100 false in
      let w2 := world_at 101 false in
      let d := repeat_spike KCpu w1 42 2 (daemon_init false 0) in
      let d1 := handle KCpu w1 42 "job" 2500 d in
      let d2 := handle KCpu w2 42 "job" 2500 (restore_priorities w1 d1) in
      now w2 - now w1 < cooldown_secs (config_of KCpu)
      /\ sink_calls (trace d) = 0%nat
      /\ sink_calls (trace d1) = 1%nat
      /\ sink_calls (trace d2) = 2%nat)
  /\ (let w1 := world_at 100 true in
      let w2 := world_at 101 true in
      let d := repeat_spike KMem w1 42 10 (daemon_init false 0) in
      let d1 := handle KMem w1 42 "job" 1800 d in
      let d2 := handle KMem w2 42 "job" 1800 (restore_priorities w1 d1) in
      now w2 - now w1 < cooldown_secs (config_of KMem)
      /\ sink_calls (trace d) = 0%nat
      /\ sink_calls (trace d1) = 1%nat
      /\ sink_calls (trace d2) = 2%nat).
Proof. vm_compute. repeat split. Qed.

(** C10. With the table at [MAX_TRACKED] entries, a spike of any category
    for a pid that is not tracked leaves the whole daemon state as it is:
    no entry, no action, no log record, no counter. No step of the daemon
    removes an entry, so after any further run the table is still full,
    the pid still untracked and its spikes still dropped. *)
Theorem C10_full_table_drops (k : spike_kind) (w : world) (p0 : Z)
    (c : string) (roc : Z) (d : daemon) :
  MAX_TRACKED <= tracked_count d -> find_tracked p0 d = None ->
  handle k w p0 c roc d = d
  /\ forall d', rtc step d d' ->
       tracked_count d' = tracked_count d
       /\ find_tracked p0 d' = None
       /\ forall k' w' c' roc', handle k' w' p0 c' roc' d' = d'.
Proof.
  intros Hfull Hf. split; [now apply handle_full|].
  intros d' Hrun.
  pose proof (steps_full_pids d d' Hrun Hfull) as Hpids.
  assert (tracked_count d' = tracked_count d) as Hcount.
  { unfold tracked_count.
    now rewrite <- (length_map pid (tracked d')), Hpids, length_map. }
  assert (find_tracked p0 d' = None) as Hf'.
  { unfold find_tracked in *. now apply (find_from_pids 0 p0 (tracked d)). }
  split; [exact Hcount|]. split; [exact Hf'|].
  intros k' w' c' roc'. apply handle_full; [exact Hf'|lia].
Qed.

Lemma C10_full_table_drops_witness :
  MAX_TRACKED <= tracked_count full_table
  /\ find_tracked 5000 full_table = None
  /\ handle KCpu (world_at 100 true) 5000 "late" 2500 full_table = full_table
  /\ handle KMem (world_at 100 true) 5000 "late" 1800
       (handle KIo (world_at 100 true) 7 "job" 1200 full_table)
     = handle KIo (world_at 100 true) 7 "job" 1200 full_table.
Proof.
  assert (MAX_TRACKED <= tracked_count full_table) as Hfull
    by (vm_compute; discriminate).
  assert (find_tracked 5000 full_table = None) as Hf
    by (vm_compute; reflexivity).
  destruct (C10_full_table_drops KCpu (world_at 100 true) 5000 "late" 2500
              full_table Hfull Hf) as (Hdrop & Hlater).
  split; [exact Hfull|]. split; [exact Hf|]. split; [exact Hdrop|].
  apply (Hlater (handle KIo (world_at 100 true) 7 "job" 1200 full_table)).
  apply rtc_once. apply step_io.
Defined.

(** *** The response daemon over any run *)

(** X9. [find_tracked] returns the first slot of the table that holds the
    pid, with its content: a result [(i, x)] means slot [i] holds [x], [x]
    has the pid and no earlier slot has it; the result is NULL exactly when
    no slot of the table has the pid. *)
Theorem X9_find_tracked_first_match (p : Z) (d : daemon) :
  (forall i x, find_tracked p d = Some (i, x) <->
     tracked d !! i = Some x /\ pid x = p
     /\ forall j y, (j < i)%nat -> tracked d !! j = Some y -> pid y <> p)
  /\ (find_tracked p d = None <-> forall x, x ∈ tracked d -> pid x <> p).
Proof.
  unfold find_tracked. split.
  - intros i x. split.
    + intros H. pose proof (find_from_Some _ _ _ _ _ H) as (_ & Hl & Hp).
      rewrite Nat.sub_0_r in Hl. split; [exact Hl|]. split; [exact Hp|].
      intros j y Hj. apply (find_from_first _ _ _ _ _ H). lia.
    + intros (Hl & Hp & Hfirst).
      apply (find_from_intro p (tracked d) 0 i x Hl Hp Hfirst).
  - rewrite find_from_None, Forall_forall. reflexivity.
Qed.

(** What any handler does to the entry of a tracked pid. *)
Lemma handle_entry k w p0 c roc d i p :
  find_tracked p0 d = Some (i, p) ->
  exists p',
    tracked (handle k w p0 c roc d) = <[i:=p']> (tracked d)
    /\ same_identity p p'
    /\ spike_samples p' = int_add (spike_samples p) 1
    /\ last_seen p' = now w
    /\ spike_type p' = Z.lor (spike_type p) (kind_bit k)
    /\ (adjusted p' = adjusted p \/ (k <> KMem /\ adjusted p' = 1)).
Proof.
  intros Hf.
  destruct k; unfold handle, handle_cpu_spike, handle_mem_spike,
    handle_io_spike; rewrite Hf; cbv zeta;
    unfold set_nice, set_io_priority; split_ifs; cbn;
    rewrite ?list_insert_insert_eq;
    (eexists; split; [reflexivity|]);
    (split; [repeat split|]); cbn;
    repeat split; auto; right; split; (discriminate || reflexivity).
Qed.

(** The first spike of an untracked pid, with room in the table: an entry
    is appended, the spike is logged as an advisory and counted. *)
Lemma handle_fresh k w p0 c roc d :
  find_tracked p0 d = None -> tracked_count d < MAX_TRACKED ->
  tracked (handle k w p0 c roc d)
  = tracked d
    ++ [mark_spike (kind_bit k) w
          (set_original_nice (match k with KCpu => get_nice w p0 | _ => 0 end)
             (fresh_tracked w p0 c))]
  /\ stats (handle k w p0 c roc d)
     = (match k with
        | KCpu => inc_cpu_advisories
        | KMem => inc_mem_advisories
        | KIo => inc_io_advisories
        end) (stats d)
  /\ trace (handle k w p0 c roc d)
     = trace d ++ [EvLog (name (config_of k)) "ADVISORY" p0].
Proof.
  intros Hf Hroom.
  destruct k; unfold handle, handle_cpu_spike, handle_mem_spike,
    handle_io_spike, add_tracked; rewrite Hf;
    destruct (Z.geb_spec (tracked_count d) MAX_TRACKED); try lia; cbv zeta;
    rewrite ?first_spike_level, ?first_cpu_spike_level; cbn;
    rewrite ?list_insert_insert_eq, ?insert_last; repeat split.
Qed.

Lemma same_identity_refl p : same_identity p p.
Proof. now repeat split. Qed.

Lemma same_identity_trans p q r :
  same_identity p q -> same_identity q r -> same_identity p r.
Proof.
  intros (A1 & A2 & A3) (B1 & B2 & B3). repeat split; congruence.
Qed.

(** One step keeps every slot in place, with its identity, and appends at
    most one entry, for a pid the table did not hold. *)
Lemma step_slots d d' :
  step d d' ->
  (forall i p, tracked d !! i = Some p ->
     exists p', tracked d' !! i = Some p' /\ same_identity p p'
                /\ (adjusted_flag p -> adjusted_flag p'))
  /\ (length (tracked d') = length (tracked d)
      \/ exists p', tracked d' = tracked d ++ [p']
           /\ (pid p' ∉ map pid (tracked d)) /\ adjusted p' = 0
           /\ tracked_count d < MAX_TRACKED).
Proof.
  assert (forall k w p0 c roc,
    (forall i p, tracked d !! i = Some p ->
       exists p', tracked (handle k w p0 c roc d) !! i = Some p'
                  /\ same_identity p p'
                  /\ (adjusted_flag p -> adjusted_flag p'))
    /\ (length (tracked (handle k w p0 c roc d)) = length (tracked d)
        \/ exists p', tracked (handle k w p0 c roc d) = tracked d ++ [p']
             /\ (pid p' ∉ map pid (tracked d)) /\ adjusted p' = 0
             /\ tracked_count d < MAX_TRACKED)) as Hhandle.
  { intros k w p0 c roc.
    destruct (find_tracked p0 d) as [[i0 p0']|] eqn:Hf.
    - destruct (handle_entry k w p0 c roc d i0 p0' Hf)
        as (p' & -> & Hid & _ & _ & _ & Hadj).
      pose proof (find_from_Some _ _ _ _ _ Hf) as (_ & Hl & _).
      rewrite Nat.sub_0_r in Hl.
      split; [|left; apply length_insert].
      intros i p Hp. destruct (Nat.eq_dec i i0) as [->|Hne].
      + exists p'. assert (p = p0') as -> by congruence.
        split; [apply list_lookup_insert_eq; now apply lookup_lt_Some in Hl|].
        split; [exact Hid|]. unfold adjusted_flag.
        destruct Hadj as [->|[_ ->]]; auto.
      + exists p. rewrite list_lookup_insert_ne by congruence.
        split; [exact Hp|]. split; [apply same_identity_refl|auto].
    - destruct (Z.lt_ge_cases (tracked_count d) MAX_TRACKED) as [Hroom|Hfull].
      + destruct (handle_fresh k w p0 c roc d Hf Hroom) as (-> & _).
        split.
        * intros i p Hp. exists p. rewrite lookup_app_l
            by (now apply lookup_lt_Some in Hp).
          split; [exact Hp|]. split; [apply same_identity_refl|auto].
        * right. eexists. split; [reflexivity|]. cbn [pid adjusted mark_spike
            set_original_nice fresh_tracked].
          split; [|split; [reflexivity|exact Hroom]].
          unfold find_tracked in Hf. rewrite find_from_None, Forall_forall in Hf.
          intros Hin. apply list_elem_of_fmap in Hin as (y & Hy & Hin).
          apply (Hf y Hin). congruence.
      + rewrite handle_full by assumption. split; [|now left].
        intros i p Hp. exists p. split; [exact Hp|].
        split; [apply same_identity_refl|auto]. }
  intros Hstep. destruct Hstep as [w p0 c roc d|w p0 c roc d|w p0 c roc d|w d|w d].
  - apply (Hhandle KCpu).
  - apply (Hhandle KMem).
  - apply (Hhandle KIo).
  - destruct (restore_priorities_spec w d) as (_ & Hlen & Hent & _).
    split; [|now left]. intros i p Hp. rewrite (Hent i p Hp).
    eexists. split; [reflexivity|]. unfold restore_outcome.
    destruct (_ && _); [|split; [apply same_identity_refl|auto]].
    split; [now repeat split|]. intros _. now left.
  - unfold check_persistent_spikes. destruct (_ <? _); cbn [snd tracked];
      (split; [|now left]); intros i p Hp; exists p;
      (split; [exact Hp|]); (split; [apply same_identity_refl|auto]).
Qed.

Lemma handle_reachable k w p0 c roc d :
  reachable d -> reachable (handle k w p0 c roc d).
Proof.
  intros (dry & start & Hrun). exists dry, start.
  eapply rtc_r; [exact Hrun|]. destruct k; constructor.
Qed.

Lemma repeat_spike_reachable k w p n d :
  reachable d -> reachable (repeat_spike k w p n d).
Proof.
  intros H. induction n as [|n IH]; [exact H|].
  cbn [repeat_spike]. apply handle_reachable, IH.
Qed.

Lemma init_reachable dry start : reachable (daemon_init dry start).
Proof. exists dry, start. apply rtc_refl. Qed.

(** X10. In every state the daemon can reach from its start, no two slots
    of the table hold the same pid, the table has at most [MAX_TRACKED]
    entries, and [adjusted] is 0 or 1 in every entry. *)
Theorem X10_table_invariant (d : daemon) :
  reachable d ->
  NoDup (map pid (tracked d))
  /\ tracked_count d <= MAX_TRACKED
  /\ Forall adjusted_flag (tracked d).
Proof.
  intros Hr. split; [|split; [apply reachable_within_table, Hr|]];
    destruct Hr as (dry & start & Hrun).
  - refine (rtc_ind_r (fun z => NoDup (map pid (tracked z))) _ _ _ _ Hrun);
      [constructor|].
    intros y z _ Hstep IH.
    destruct (step_slots _ _ Hstep) as [Hslots [Hlen|(p' & Ht & Hnew & _)]].
    + assert (map pid (tracked z) = map pid (tracked y)) as ->; [|exact IH].
      apply list_eq. intros i. rewrite !list_lookup_fmap.
      destruct (tracked y !! i) as [p|] eqn:Hp.
      * destruct (Hslots i p Hp) as (p' & -> & (Hpid & _) & _).
        cbn. now rewrite Hpid.
      * apply lookup_ge_None in Hp.
        rewrite (proj2 (lookup_ge_None (tracked z) i)) by lia. reflexivity.
    + rewrite Ht, map_app. cbn [map].
      apply NoDup_app. split; [exact IH|]. split; [|apply NoDup_singleton].
      intros x Hx Hx'. apply list_elem_of_singleton in Hx'. subst x.
      contradiction.
  - refine (rtc_ind_r (fun z => Forall adjusted_flag (tracked z)) _ _ _ _ Hrun);
      [constructor|].
    intros y z _ Hstep IH.
    destruct (step_slots _ _ Hstep) as [Hslots Hgrow].
    apply Forall_lookup. intros i x Hx.
    destruct (tracked y !! i) as [p|] eqn:Hp.
    + destruct (Hslots i p Hp) as (p' & Hp' & _ & Hadj).
      assert (x = p') as -> by congruence.
      apply Hadj. rewrite Forall_lookup in IH. apply (IH i p Hp).
    + destruct Hgrow as [Hlen|(p' & Ht & _ & Hadj & _)].
      * apply lookup_ge_None in Hp. apply lookup_lt_Some in Hx. lia.
      * rewrite Ht in Hx. apply lookup_ge_None in Hp.
        rewrite lookup_app_r in Hx by lia.
        apply list_lookup_singleton_Some in Hx as [_ <-]. now left.
Qed.

Lemma X10_table_invariant_witness :
  let d := handle KIo (world_at 101 true) 43 "io" 1200
             (repeat_spike KCpu (world_at 100 true) 42 3 (daemon_init false 0)) in
  reachable d
  /\ NoDup (map pid (tracked d))
  /\ tracked_count d <= MAX_TRACKED.
Proof.
  cbv zeta.
  assert (Hr : reachable
    (handle KIo (world_at 101 true) 43 "io" 1200
       (repeat_spike KCpu (world_at 100 true) 42 3 (daemon_init false 0)))).
  { apply handle_reachable, repeat_spike_reachable, init_reachable. }
  split; [exact Hr|].
  destruct (X10_table_invariant _ Hr) as (H1 & H2 & _). split; assumption.
Defined.

(** The same along a run. *)
Lemma run_slots (d d' : daemon) (i : nat) (p : TrackedProcess) :
  rtc step d d' ->
  tracked d !! i = Some p ->
  exists p', tracked d' !! i = Some p' /\ same_identity p p'.
Proof.
  intros Hrun. revert p. induction Hrun as [|x y z Hstep Hrun IH]; intros p Hp.
  - exists p. split; [exact Hp|apply same_identity_refl].
  - destruct (step_slots _ _ Hstep) as [Hslots _].
    destruct (Hslots i p Hp) as (p1 & Hp1 & Hid1 & _).
    destruct (IH p1 Hp1) as (p2 & Hp2 & H2).
    exists p2. split; [exact Hp2|].
    apply (same_identity_trans p p1 p2 Hid1). exact H2.
Qed.

Lemma run_keeps_found (d d' : daemon) (p0 : Z) (i : nat) (p : TrackedProcess) :
  rtc step d d' ->
  find_tracked p0 d = Some (i, p) ->
  exists p', find_tracked p0 d' = Some (i, p') /\ same_identity p p'.
Proof.
  intros Hrun Hf. unfold find_tracked in *.
  pose proof (find_from_Some _ _ _ _ _ Hf) as (_ & Hl & Hp).
  rewrite Nat.sub_0_r in Hl.
  destruct (run_slots d d' i p Hrun Hl) as (p' & Hp' & Hid).
  exists p'. split; [|exact Hid].
  apply (find_from_intro p0 (tracked d') 0 i p' Hp');
    [destruct Hid; congruence|].
  intros j y Hj Hy.
  assert (is_Some (tracked d !! j)) as [yj Hyj].
  { apply lookup_lt_is_Some. apply lookup_lt_Some in Hl. lia. }
  destruct (run_slots d d' j yj Hrun Hyj) as (y' & Hy' & Hpid' & _).
  assert (y = y') as -> by congruence. rewrite Hpid'.
  apply (find_from_first _ _ _ _ _ Hf j yj); [lia|exact Hyj].
Qed.

(** X11. The daemon never evicts or moves an entry: a pid found in slot [i]
    is found in slot [i] after any further run of handlers, restoration
    passes and persistent-spike checks, and the entry still has the name
    and the original nice value it had; neither is read again. *)
Theorem X11_entries_stay_in_place (d d' : daemon) (p0 : Z) (i : nat)
    (p : TrackedProcess) :
  rtc step d d' ->
  find_tracked p0 d = Some (i, p) ->
  exists p', find_tracked p0 d' = Some (i, p')
    /\ comm p' = comm p /\ original_nice p' = original_nice p.
Proof.
  intros Hrun Hf.
  destruct (run_keeps_found d d' p0 i p Hrun Hf) as (p' & Hp' & _ & Hc & Ho).
  exists p'. split; [exact Hp'|]. split; assumption.
Qed.

Lemma X11_entries_stay_in_place_witness :
  let d := repeat_spike KIo (world_at 100 true) 42 1 (daemon_init false 0) in
  let d' := restore_priorities (world_at 200 true)
              (repeat_spike KCpu (world_at 101 true) 42 3 d) in
  rtc step d d'
  /\ find_tracked 42 d
     = Some (0%nat, mk_tracked 42 "job" 0 0 0 0 100 4 1 ESCALATION_NONE 0)
  /\ exists p', find_tracked 42 d' = Some (0%nat, p')
       /\ comm p' = "job" /\ original_nice p' = 0.
Proof.
  cbv zeta.
  assert (Hrun : rtc step
    (repeat_spike KIo (world_at 100 true) 42 1 (daemon_init false 0))
    (restore_priorities (world_at 200 true)
       (repeat_spike KCpu (world_at 101 true) 42 3
          (repeat_spike KIo (world_at 100 true) 42 1 (daemon_init false 0))))).
  { eapply rtc_r; [|apply step_restore]. cbn [repeat_spike handle].
    eapply rtc_r; [eapply rtc_r; [eapply rtc_r; [apply rtc_refl|]|]|];
      apply step_cpu. }
  split; [exact Hrun|]. split; [reflexivity|].
  apply (X11_entries_stay_in_place _ _ 42 0
           (mk_tracked 42 "job" 0 0 0 0 100 4 1 ESCALATION_NONE 0) Hrun).
  reflexivity.
Defined.

(** *** The handlers, level by level *)

(** [spike_samples++] away from [INT_MAX]. *)
Lemma next_sample (s : Z) : INT_MIN <= s < INT_MAX -> int_add s 1 = s + 1.
Proof.
  intros H. apply int_add_small. unfold in_int, INT_MIN, INT_MAX in *. lia.
Qed.

(** X12. A CPU spike for a tracked process that brings its sample count to
    [n >= 3], outside the cooldown (never adjusted, or adjusted at least 10
    seconds ago), with [set_nice] reporting success: the handler makes one
    call [set_nice (pid, boost)] with the absolute nice value -5 for
    [n <= 5], -10 for [n <= 10] and -15 above, whatever the nice value of
    the process was; the entry records that value as [current_nice], the
    level SOFT, HARD or CRITICAL, [adjusted = 1], the time of the action
    and one more action; [cpu_boosts] grows by one and [escalations] grows
    by one from [n = 6] on. *)
Theorem X12_cpu_boost_ladder (w : world) (p0 : Z) (c : string) (roc : Z)
    (d : daemon) (i : nat) (p : TrackedProcess) :
  find_tracked p0 d = Some (i, p) ->
  2 <= spike_samples p < INT_MAX ->
  adjusted p = 0 \/ 10 <= now w - adjusted_time p ->
  dry_run d = true \/ (forall n, setpriority_ok w p0 n = true) ->
  let n := spike_samples p + 1 in
  let boost := if n <=? 5 then -5 else if n <=? 10 then -10 else -15 in
  let level := if n <=? 5 then ESCALATION_SOFT
               else if n <=? 10 then ESCALATION_HARD else ESCALATION_CRITICAL in
  let d' := handle_cpu_spike w p0 c roc d in
  sink_events (trace d') = sink_events (trace d) ++ [EvSetNice p0 boost]
  /\ tracked d'
     = <[i := mk_tracked (pid p) (comm p) (original_nice p) boost 1 (now w)
               (now w) (Z.lor (spike_type p) SPIKE_CPU) n level
               (int_add (action_count p) 1)]> (tracked d)
  /\ cpu_boosts (stats d') = int_add (cpu_boosts (stats d)) 1
  /\ escalations (stats d')
     = (if n <=? 5 then escalations (stats d)
        else int_add (escalations (stats d)) 1).
Proof.
  intros Hf Hs Hcool Hok. cbv zeta.
  unfold handle_cpu_spike. rewrite Hf. cbv zeta.
  unfold in_cooldown, get_escalation_level, set_nice.
  cbn [mark_spike spike_samples adjusted adjusted_time dry_run store
       with_tracked].
  rewrite next_sample by (unfold INT_MIN; lia).
  unfold sink_events.
  destruct (Z.leb_spec (spike_samples p + 1) 2); [lia|].
  destruct (Z.leb_spec (spike_samples p + 1) 5);
    [|destruct (Z.leb_spec (spike_samples p + 1) 10)];
    cbn [level_eqb level_geb level_value Z.eqb Pos.eqb Z.geb Z.compare Pos.compare
         Pos.compare_cont negb andb spike_config spike_configs nth
         cooldown_secs nice_boost];
    (destruct (Z.eqb_spec (adjusted p) 0);
     destruct (Z.ltb_spec (now w - adjusted_time p) 10);
     try lia; cbn [negb andb]);
    (destruct Hok as [Hdry|Hset]; [rewrite Hdry|rewrite ?Hset;
       destruct (dry_run d)]);
    cbn; rewrite ?List.filter_app, ?list_insert_insert_eq; cbn;
    rewrite ?app_nil_r; repeat split; reflexivity.
Qed.

Lemma X12_cpu_boost_ladder_witness :
  let d := repeat_spike KCpu (world_at 100 true) 42 5 (daemon_init false 0) in
  let d' := handle_cpu_spike (world_at 111 true) 42 "job" 2500 d in
  find_tracked 42 d
  = Some (0%nat, mk_tracked 42 "job" 0 (-5) 1 100 100 1 5 ESCALATION_SOFT 1)
  /\ sink_events (trace d') = sink_events (trace d) ++ [EvSetNice 42 (-10)]
  /\ tracked d'
     = [mk_tracked 42 "job" 0 (-10) 1 111 111 1 6 ESCALATION_HARD 2].
Proof.
  cbv zeta.
  assert (Hf : find_tracked 42
                 (repeat_spike KCpu (world_at 100 true) 42 5 (daemon_init false 0))
               = Some (0%nat,
                       mk_tracked 42 "job" 0 (-5) 1 100 100 1 5 ESCALATION_SOFT 1))
    by reflexivity.
  split; [exact Hf|].
  destruct (X12_cpu_boost_ladder (world_at 111 true) 42 "job" 2500 _ _ _ Hf)
    as (He & Ht & _).
  - cbn. unfold INT_MAX. lia.
  - right. cbn. lia.
  - right. reflexivity.
  - split; [exact He|]. rewrite Ht. reflexivity.
Defined.

(** X13. An I/O spike under the same conditions makes one call
    [set_io_priority]: class 2 (best effort) level 0 for [n <= 5], class 1
    (real time) level 4 above. The entry is marked adjusted at the time of
    the action and counts one more action, [io_boosts] grows by one; the
    nice values and the stored escalation level of the entry are left as
    they were. *)
Theorem X13_io_priority_ladder (w : world) (p0 : Z) (c : string) (roc : Z)
    (d : daemon) (i : nat) (p : TrackedProcess) :
  find_tracked p0 d = Some (i, p) ->
  2 <= spike_samples p < INT_MAX ->
  adjusted p = 0 \/ 10 <= now w - adjusted_time p ->
  dry_run d = true \/ (forall cl lv, ionice_ok w p0 cl lv = true) ->
  let n := spike_samples p + 1 in
  let d' := handle_io_spike w p0 c roc d in
  sink_events (trace d')
  = sink_events (trace d)
    ++ [if n <=? 5 then EvSetIoPriority p0 2 0 else EvSetIoPriority p0 1 4]
  /\ tracked d'
     = <[i := mk_tracked (pid p) (comm p) (original_nice p) (current_nice p) 1
               (now w) (now w) (Z.lor (spike_type p) SPIKE_IO) n (escalation p)
               (int_add (action_count p) 1)]> (tracked d)
  /\ io_boosts (stats d') = int_add (io_boosts (stats d)) 1.
Proof.
  intros Hf Hs Hcool Hok. cbv zeta.
  unfold handle_io_spike. rewrite Hf. cbv zeta.
  unfold in_cooldown, get_escalation_level, set_io_priority.
  cbn [mark_spike spike_samples adjusted adjusted_time dry_run store
       with_tracked].
  rewrite next_sample by (unfold INT_MIN; lia).
  unfold sink_events.
  destruct (Z.leb_spec (spike_samples p + 1) 2); [lia|].
  destruct (Z.leb_spec (spike_samples p + 1) 5);
    [|destruct (Z.leb_spec (spike_samples p + 1) 10)];
    cbn [level_eqb level_geb level_value Z.eqb Pos.eqb Z.geb Z.compare Pos.compare
         Pos.compare_cont negb andb spike_config spike_configs nth
         cooldown_secs ionice_class ionice_level];
    (destruct (Z.eqb_spec (adjusted p) 0);
     destruct (Z.ltb_spec (now w - adjusted_time p) 10);
     try lia; cbn [negb andb]);
    (destruct Hok as [Hdry|Hset]; [rewrite Hdry|rewrite ?Hset;
       destruct (dry_run d)]);
    cbn; rewrite ?List.filter_app, ?list_insert_insert_eq; cbn;
    rewrite ?app_nil_r; repeat split; reflexivity.
Qed.

Lemma X13_io_priority_ladder_witness :
  let d := repeat_spike KIo (world_at 100 true) 42 2 (daemon_init false 0) in
  let d' := handle_io_spike (world_at 100 true) 42 "job" 1200 d in
  find_tracked 42 d
  = Some (0%nat, mk_tracked 42 "job" 0 0 0 0 100 4 2 ESCALATION_NONE 0)
  /\ sink_events (trace d') = sink_events (trace d) ++ [EvSetIoPriority 42 2 0]
  /\ tracked d' = [mk_tracked 42 "job" 0 0 1 100 100 4 3 ESCALATION_NONE 1].
Proof.
  cbv zeta.
  assert (Hf : find_tracked 42
                 (repeat_spike KIo (world_at 100 true) 42 2 (daemon_init false 0))
               = Some (0%nat,
                       mk_tracked 42 "job" 0 0 0 0 100 4 2 ESCALATION_NONE 0))
    by reflexivity.
  split; [exact Hf|].
  destruct (X13_io_priority_ladder (world_at 100 true) 42 "job" 1200 _ _ _ Hf)
    as (He & Ht & _).
  - cbn. unfold INT_MAX. lia.
  - left. reflexivity.
  - right. reflexivity.
  - split; [exact He|]. rewrite Ht. reflexivity.
Defined.




(** X15. A spike for a process that is not tracked, or whose entry has at
    most one sample, makes no call to the action sink, whatever its
    category: either the whole state is unchanged (the table is full), or
    the only event is the ADVISORY record of that category. *)
Theorem X15_first_spikes_only_log (k : spike_kind) (w : world) (p0 : Z)
    (c : string) (roc : Z) (d : daemon) :
  (forall i p, find_tracked p0 d = Some (i, p) ->
     INT_MIN <= spike_samples p <= 1) ->
  let d' := handle k w p0 c roc d in
  sink_events (trace d') = sink_events (trace d)
  /\ (d' = d
      \/ trace d' = trace d ++ [EvLog (name (config_of k)) "ADVISORY" p0]).
Proof.
  intros Hs. cbv zeta.
  destruct (find_tracked p0 d) as [[i p]|] eqn:Hf.
  - specialize (Hs i p eq_refl).
    assert (Ht : trace (handle k w p0 c roc d)
                 = trace d ++ [EvLog (name (config_of k)) "ADVISORY" p0]).
    { destruct k; unfold handle, handle_cpu_spike, handle_mem_spike,
        handle_io_spike; rewrite Hf; cbv zeta;
        unfold get_escalation_level; cbn [mark_spike spike_samples];
        rewrite next_sample by (unfold INT_MAX; lia);
        (destruct (Z.leb_spec (spike_samples p + 1) 2); [|lia]);
        reflexivity. }
    split; [|right; exact Ht].
    unfold sink_events. rewrite Ht, List.filter_app. cbn. apply app_nil_r.
  - destruct (Z.lt_ge_cases (tracked_count d) MAX_TRACKED) as [Hroom|Hfull].
    + destruct (handle_fresh k w p0 c roc d Hf Hroom) as (_ & _ & Ht).
      split; [|right; exact Ht].
      unfold sink_events. rewrite Ht, List.filter_app. cbn. apply app_nil_r.
    + rewrite handle_full by assumption. split; [reflexivity|now left].
Qed.

Lemma X15_first_spikes_only_log_witness :
  let d := handle KCpu (world_at 100 true) 42 "job" 2500 (daemon_init false 0) in
  let d' := handle KIo (world_at 100 true) 42 "job" 1200 d in
  find_tracked 42 d
  = Some (0%nat, mk_tracked 42 "job" 0 0 0 0 100 1 1 ESCALATION_NONE 0)
  /\ sink_events (trace d') = []
  /\ trace d' = trace d ++ [EvLog "I/O" "ADVISORY" 42].
Proof.
  cbv zeta.
  assert (Hf : find_tracked 42
                 (handle KCpu (world_at 100 true) 42 "job" 2500
                    (daemon_init false 0))
               = Some (0%nat,
                       mk_tracked 42 "job" 0 0 0 0 100 1 1 ESCALATION_NONE 0))
    by reflexivity.
  split; [exact Hf|].
  destruct (X15_first_spikes_only_log KIo (world_at 100 true) 42 "job" 1200
              (handle KCpu (world_at 100 true) 42 "job" 2500
                 (daemon_init false 0)))
    as (He & Ht).
  - intros i p Hp. rewrite Hf in Hp. injection Hp as _ <-. cbn.
    unfold INT_MIN. lia.
  - split; [exact He|]. destruct Ht as [Ht|Ht]; [discriminate Ht|exact Ht].
Defined.

(** X16. The memory handler never changes a priority and never marks the
    entry adjusted: on a tracked process it updates only the type, the
    sample count and the time last seen. Its only call to the action sink
    is the write to [oom_score_adj], made when the count passes 10 and the
    daemon is not in dry run, and made again on every such spike (there is
    no cooldown). Up to 5 samples it counts a memory advisory, from 6 on a
    memory action. *)
Theorem X16_memory_handler_only_marks (w : world) (p0 : Z) (c : string)
    (roc : Z) (d : daemon) (i : nat) (p : TrackedProcess) :
  find_tracked p0 d = Some (i, p) ->
  INT_MIN <= spike_samples p < INT_MAX ->
  let n := spike_samples p + 1 in
  let d' := handle_mem_spike w p0 c roc d in
  tracked d' = <[i := mark_spike SPIKE_MEM w p]> (tracked d)
  /\ sink_events (trace d')
     = sink_events (trace d)
       ++ (if (10 <? n) && negb (dry_run d) then [EvOomScoreAdj p0] else [])
  /\ mem_advisories (stats d')
     = (if n <=? 5 then int_add (mem_advisories (stats d)) 1
        else mem_advisories (stats d))
  /\ mem_actions (stats d')
     = (if n <=? 5 then mem_actions (stats d)
        else int_add (mem_actions (stats d)) 1).
Proof.
  intros Hf Hs. cbv zeta.
  unfold handle_mem_spike. rewrite Hf. cbv zeta.
  unfold get_escalation_level. cbn [mark_spike spike_samples].
  rewrite next_sample by lia. unfold sink_events.
  destruct (Z.leb_spec (spike_samples p + 1) 2),
    (Z.leb_spec (spike_samples p + 1) 5),
    (Z.leb_spec (spike_samples p + 1) 10),
    (Z.ltb_spec 10 (spike_samples p + 1)); try lia;
    cbn [level_eqb level_geb level_value Z.eqb Pos.eqb Z.geb Z.compare Pos.compare
         Pos.compare_cont negb andb];
    destruct (dry_run d) eqn:Hdry; cbn; rewrite ?Hdry; cbn;
    rewrite ?List.filter_app; cbn; rewrite ?app_nil_r;
    repeat split; reflexivity.
Qed.

Lemma X16_memory_handler_only_marks_witness :
  let d := repeat_spike KMem (world_at 100 true) 42 10 (daemon_init false 0) in
  let d' := handle_mem_spike (world_at 5000 true) 42 "job" 1800 d in
  find_tracked 42 d
  = Some (0%nat, mk_tracked 42 "job" 0 0 0 0 100 2 10 ESCALATION_NONE 0)
  /\ tracked d' = [mk_tracked 42 "job" 0 0 0 0 5000 2 11 ESCALATION_NONE 0]
  /\ sink_events (trace d') = sink_events (trace d) ++ [EvOomScoreAdj 42].
Proof.
  cbv zeta.
  assert (Hf : find_tracked 42
                 (repeat_spike KMem (world_at 100 true) 42 10 (daemon_init false 0))
               = Some (0%nat,
                       mk_tracked 42 "job" 0 0 0 0 100 2 10 ESCALATION_NONE 0))
    by reflexivity.
  split; [exact Hf|].
  destruct (X16_memory_handler_only_marks (world_at 5000 true) 42 "job" 1800
              _ _ _ Hf) as (Ht & He & _).
  - cbn. unfold INT_MIN, INT_MAX. lia.
  - split; [rewrite Ht; reflexivity|exact He].
Defined.

(** *** Restoration, call by call *)

Lemma restore_slot_events w d i p :
  tracked d !! i = Some p ->
  sink_events (trace (restore_slot w d i))
  = sink_events (trace d) ++ (if restore_due w p then [restore_call p] else []).
Proof.
  intros Hp. unfold restore_slot, set_nice, sink_events, restore_call.
  rewrite Hp.
  destruct (restore_due w p), (dry_run d),
    (setpriority_ok w (pid p) (original_nice p));
    cbn; rewrite ?List.filter_app; cbn; rewrite ?app_nil_r; reflexivity.
Qed.

Lemma restore_fold_events w : forall m k d,
  (k + m = length (tracked d))%nat ->
  sink_events (trace (fold_left (restore_slot w) (seq k m) d))
  = sink_events (trace d)
    ++ map restore_call (List.filter (restore_due w) (drop k (tracked d))).
Proof.
  induction m as [|m IH]; intros k d Hlen; cbn [seq fold_left].
  - rewrite drop_ge by lia. cbn. now rewrite app_nil_r.
  - assert (is_Some (tracked d !! k)) as [pk Hpk]
      by (apply lookup_lt_is_Some; lia).
    destruct (restore_slot_spec w d k pk Hpk) as (Htr & _ & _).
    assert (length (tracked (restore_slot w d k)) = length (tracked d)) as Hl.
    { rewrite Htr. destruct (_ && _); [apply length_insert|reflexivity]. }
    rewrite IH by lia.
    rewrite (restore_slot_events w d k pk Hpk).
    assert (drop (S k) (tracked (restore_slot w d k))
            = drop (S k) (tracked d)) as ->.
    { rewrite Htr. destruct (_ && _); [|reflexivity].
      apply drop_insert_lt. lia. }
    rewrite (drop_S _ _ _ Hpk). cbn [List.filter].
    rewrite <- app_assoc.
    destruct (restore_due w pk); reflexivity.
Qed.

(** X17. A restoration pass calls [set_nice (pid, original_nice)] once for
    each entry that is due (adjusted and not seen for more than 5
    seconds), in table order, and makes no other call to the action sink:
    an I/O priority or an OOM score set earlier is never put back. Entries
    that are not due are left as they are. *)
Theorem X17_restoration_calls (w : world) (d : daemon) :
  let d' := restore_priorities w d in
  sink_events (trace d')
  = sink_events (trace d)
    ++ map restore_call (List.filter (restore_due w) (tracked d))
  /\ (forall i p, tracked d !! i = Some p -> restore_due w p = false ->
        tracked d' !! i = Some p).
Proof.
  cbv zeta. split.
  - unfold restore_priorities.
    rewrite (restore_fold_events w (length (tracked d)) 0 d) by lia.
    now rewrite drop_0.
  - intros i p Hp Hdue.
    destruct (restore_priorities_spec w d) as (_ & _ & Hent & _).
    rewrite (Hent i p Hp). unfold restore_outcome. now rewrite Hdue.
Qed.

(** The memory handler leaves the entry as [mark_spike] made it. *)
Lemma handle_mem_tracked w p0 c roc d i p :
  find_tracked p0 d = Some (i, p) ->
  tracked (handle_mem_spike w p0 c roc d)
  = <[i := mark_spike SPIKE_MEM w p]> (tracked d).
Proof.
  intros Hf. unfold handle_mem_spike. rewrite Hf. cbv zeta.
  split_ifs; reflexivity.
Qed.

(** Lines from which [sscanf] stores fewer than five values are passed
    over. *)
Lemma skipped_lines w stats lines d :
  Forall (fun l => scan_prediction l = None) lines ->
  fold_left (process_line w stats) lines d = d.
Proof.
  induction 1 as [|l rest Hl _ IH]; cbn [fold_left]; [reflexivity|].
  unfold process_line at 2. rewrite Hl. exact IH.
Qed.

(** One pass over a file whose only row is a memory mark for a tracked
    pid that is not adjusted. *)
Lemma mem_only_pass w fs p0 d i p :
  mem_only_files p0 fs ->
  find_tracked p0 d = Some (i, p) -> adjusted p = 0 ->
  find_tracked p0 (process_predictions w fs d)
  = Some (i, mark_spike SPIKE_MEM w p).
Proof.
  intros (content & Hfile & before & line & after & Hrows & Hb
          & (c & f1 & f3 & Hscan & H1 & H3) & Ha) Hf Hadj.
  unfold process_predictions, handle_lines. rewrite Hfile, Hrows.
  rewrite fold_left_app. cbn [fold_left].
  rewrite (skipped_lines w _ before d Hb).
  rewrite (skipped_lines w _ after _ Ha).
  unfold process_line. rewrite Hscan.
  destruct (read_roc_values (stats_file fs) p0) as [[r1 r2] r3].
  rewrite H1, H3. change (is_star "*") with true. cbv iota.
  apply restore_keeps_found.
  - apply (find_tracked_insert p0 d i p); [exact Hf|reflexivity|].
    apply handle_mem_tracked, Hf.
  - unfold restore_due. cbn [mark_spike adjusted]. rewrite Hadj.
    reflexivity.
Qed.

(** X18. The sample count of a process that only spikes in memory never
    expires. Take any number of passes of [process_predictions], at any
    clock readings, each over a predictions file from which [sscanf]
    stores, after the four header lines, five values for one line only:
    the pid, a name, and a ['*'] as the memory mark alone. For an entry of
    that pid that is not marked adjusted, the count has grown by the
    number of passes and the entry is still not adjusted. Restoration
    resets counts of adjusted entries only, and the memory handler never
    adjusts. *)
Theorem X18_memory_samples_never_expire (ps : list (world * proc_files))
    (p0 : Z) (d : daemon) (i : nat) (p : TrackedProcess) :
  Forall (fun x => mem_only_files p0 (snd x)) ps ->
  find_tracked p0 d = Some (i, p) ->
  adjusted p = 0 ->
  INT_MIN <= spike_samples p ->
  spike_samples p + Z.of_nat (length ps) <= INT_MAX ->
  exists p',
    find_tracked p0 (passes ps d) = Some (i, p')
    /\ spike_samples p' = spike_samples p + Z.of_nat (length ps)
    /\ adjusted p' = 0.
Proof.
  intros Hps. revert d p.
  induction Hps as [|[w fs] ps Hfs _ IH]; intros d p Hf Hadj Hlo Hhi.
  - exists p. cbn. split; [exact Hf|]. split; [lia|exact Hadj].
  - unfold passes. cbn [fold_left fst snd].
    fold (passes ps (process_predictions w fs d)).
    cbn [length] in Hhi. cbn [snd] in Hfs.
    pose proof (mem_only_pass w fs p0 d i p Hfs Hf Hadj) as Hf1.
    destruct (IH _ _ Hf1) as (p' & Hp' & Hs & Ha).
    + exact Hadj.
    + cbn [mark_spike spike_samples]. rewrite next_sample by lia. lia.
    + cbn [mark_spike spike_samples]. rewrite next_sample by lia. lia.
    + exists p'. split; [exact Hp'|]. split; [|exact Ha].
      rewrite Hs. cbn [mark_spike spike_samples length].
      rewrite next_sample by lia. lia.
Qed.

Lemma X18_memory_samples_never_expire_witness :
  let d := handle KMem (world_at 0 true) 42 "job" 1800 (daemon_init false 0) in
  let row := "42       job                   -      *      -     0x82" in
  let fs := mk_files (Some (predictions_text [row])) None in
  let ps := map (fun k => (world_at (Z.of_nat k * 86400) true, fs)) (seq 1 10) in
  scan_prediction row = Some (42, "job", "-"%char, "*"%char, "-"%char)
  /\ find_tracked 42 d
     = Some (0%nat, mk_tracked 42 "job" 0 0 0 0 0 2 1 ESCALATION_NONE 0)
  /\ exists p',
       find_tracked 42 (passes ps d) = Some (0%nat, p')
       /\ spike_samples p' = 11 /\ adjusted p' = 0.
Proof.
  cbv zeta. split; [reflexivity|].
  assert (Hf : find_tracked 42
                 (handle KMem (world_at 0 true) 42 "job" 1800
                    (daemon_init false 0))
               = Some (0%nat,
                       mk_tracked 42 "job" 0 0 0 0 0 2 1 ESCALATION_NONE 0))
    by reflexivity.
  split; [exact Hf|].
  set (fs := mk_files
               (Some (predictions_text
                        ["42       job                   -      *      -     0x82"]))
               None).
  assert (Hall : Forall (fun x => mem_only_files 42 (snd x))
                   (map (fun k => (world_at (Z.of_nat k * 86400) true, fs))
                      (seq 1 10))).
  { apply Forall_forall. intros x Hx.
    apply list_elem_of_fmap in Hx as (k & -> & _). cbn [snd].
    eexists. split; [reflexivity|].
    exists [], (text_of ["42       job                   -      *      -     0x82"]),
      [text_of [""]; text_of ["Legend: * = spike predicted, - = normal"]].
    split; [reflexivity|]. split; [constructor|]. split.
    - exists "job", "-"%char, "-"%char. repeat split.
    - repeat constructor. }
  apply (X18_memory_samples_never_expire
           (map (fun k => (world_at (Z.of_nat k * 86400) true, fs)) (seq 1 10))
           42 _ _ _ Hall Hf).
  - reflexivity.
  - cbn. unfold INT_MIN. lia.
  - cbn. unfold INT_MAX. lia.
Defined.

Lemma restore_nothing_due w d :
  Forall (fun p => restore_due w p = false) (tracked d) ->
  restore_priorities w d = d.
Proof.
  intros Hall. unfold restore_priorities.
  generalize (seq 0 (length (tracked d))). intros l.
  induction l as [|i l IH]; [reflexivity|]. cbn [fold_left].
  assert (restore_slot w d i = d) as ->; [|exact IH].
  unfold restore_slot. destruct (tracked d !! i) as [p|] eqn:Hp; [|reflexivity].
  rewrite Forall_lookup in Hall. now rewrite (Hall i p Hp).
Qed.

(** X19. A restoration pass over a table with no entry due changes nothing
    at all; and when [set_nice] succeeds for every entry, a second pass at
    the same clock reading changes nothing: the first pass left no entry
    due. *)
Theorem X19_restoration_settles (w : world) (d : daemon) :
  (Forall (fun p => restore_due w p = false) (tracked d) ->
   restore_priorities w d = d)
  /\ (Forall (fun p => set_nice_ok w d (pid p) (original_nice p) = true)
        (tracked d) ->
      restore_priorities w (restore_priorities w d) = restore_priorities w d).
Proof.
  split; [apply restore_nothing_due|].
  intros Hok. apply restore_nothing_due.
  destruct (restore_priorities_spec w d) as (_ & Hlen & Hent & _).
  apply Forall_lookup. intros i x Hx.
  assert (is_Some (tracked d !! i)) as [p Hp].
  { apply lookup_lt_is_Some. apply lookup_lt_Some in Hx. lia. }
  rewrite (Hent i p Hp) in Hx. injection Hx as <-.
  rewrite Forall_lookup in Hok. unfold restore_outcome.
  rewrite (Hok i p Hp), andb_true_r.
  destruct (restore_due w p) eqn:Hdue; [reflexivity|exact Hdue].
Qed.

(** *** Lines of the predictions file *)

Lemma handle_entry_found k w p0 c roc d i p :
  find_tracked p0 d = Some (i, p) ->
  exists p',
    find_tracked p0 (handle k w p0 c roc d) = Some (i, p')
    /\ spike_samples p' = int_add (spike_samples p) 1.
Proof.
  intros Hf.
  destruct (handle_entry k w p0 c roc d i p Hf)
    as (p' & Ht & (Hpid & _) & Hs & _).
  exists p'. split; [|exact Hs].
  apply (find_tracked_insert p0 d i p p' _ Hf Hpid Ht).
Qed.

(** X20. A line of the predictions file from which [sscanf] stores fewer
    than five values changes nothing. One from which it stores a pid, a
    name and three marks adds to the sample count of the tracked process
    of that pid the number of ['*'] among the three marks stored: each of
    the three handlers called for the line counts one sample, so a line
    with three stars moves the process three samples up the escalation
    scale at once. The marks are the characters [sscanf] stores, not the
    columns the kernel module printed: for a name that holds a blank they
    are the characters of its second word. *)
Theorem X20_line_counts_each_mark (w : world) (stats : option string)
    (d : daemon) (line : string) :
  (scan_prediction line = None -> process_line w stats d line = d)
  /\ (forall p0 c cpu_flag mem_flag io_flag i p,
        scan_prediction line = Some (p0, c, cpu_flag, mem_flag, io_flag) ->
        find_tracked p0 d = Some (i, p) ->
        INT_MIN <= spike_samples p <= INT_MAX - 3 ->
        exists p',
          find_tracked p0 (process_line w stats d line) = Some (i, p')
          /\ spike_samples p' = spike_samples p + stars cpu_flag mem_flag io_flag).
Proof.
  split.
  { intros Hscan. unfold process_line. now rewrite Hscan. }
  intros p0 c cpu_flag mem_flag io_flag i p Hscan Hf Hs.
  unfold process_line, stars. rewrite Hscan.
  destruct (read_roc_values stats p0) as [[cpu_roc mem_roc] io_roc].
  assert (Hstep : forall k (b : bool) d0 p1 roc,
    find_tracked p0 d0 = Some (i, p1) ->
    INT_MIN <= spike_samples p1 < INT_MAX ->
    exists p2,
      find_tracked p0 (if b then handle k w p0 c roc d0 else d0)
      = Some (i, p2)
      /\ spike_samples p2 = spike_samples p1 + Z.b2z b).
  { intros k b d0 p1 roc Hf1 Hr. destruct b; cbn [Z.b2z].
    - destruct (handle_entry_found k w _ c roc d0 i p1 Hf1)
        as (p2 & Hp2 & Hs2).
      exists p2. split; [exact Hp2|]. rewrite Hs2. now apply next_sample.
    - exists p1. split; [exact Hf1|lia]. }
  destruct (Hstep KCpu (is_star cpu_flag) d p cpu_roc Hf)
    as (p1 & Hf1 & Hs1); [lia|].
  assert (0 <= Z.b2z (is_star cpu_flag) <= 1)
    by (destruct (is_star cpu_flag); cbn; lia).
  destruct (Hstep KMem (is_star mem_flag) _ p1 mem_roc Hf1)
    as (p2 & Hf2 & Hs2); [lia|].
  assert (0 <= Z.b2z (is_star mem_flag) <= 1)
    by (destruct (is_star mem_flag); cbn; lia).
  destruct (Hstep KIo (is_star io_flag) _ p2 io_roc Hf2)
    as (p3 & Hf3 & Hs3); [lia|].
  exists p3. split; [exact Hf3|lia].
Qed.

Lemma X20_line_counts_each_mark_witness :
  let d := handle KMem (world_at 100 true) 42 "job" 1800 (daemon_init false 0) in
  let w := world_at 101 true in
  let row := "42       job                   *      *      *     0x87" in
  let row_blank := "42       Web Content           *      *      *     0x87" in
  find_tracked 42 d
  = Some (0%nat, mk_tracked 42 "job" 0 0 0 0 100 2 1 ESCALATION_NONE 0)
  /\ scan_prediction row = Some (42, "job", "*"%char, "*"%char, "*"%char)
  /\ (exists p',
        find_tracked 42 (process_line w None d row) = Some (0%nat, p')
        /\ spike_samples p' = 4)
  /\ scan_prediction row_blank = Some (42, "Web", "C"%char, "o"%char, "n"%char)
  /\ (exists p',
        find_tracked 42 (process_line w None d row_blank) = Some (0%nat, p')
        /\ spike_samples p' = 1)
  /\ process_line w None d "Legend: * = spike predicted, - = normal" = d.
Proof.
  cbv zeta.
  assert (Hf : find_tracked 42
                 (handle KMem (world_at 100 true) 42 "job" 1800
                    (daemon_init false 0))
               = Some (0%nat,
                       mk_tracked 42 "job" 0 0 0 0 100 2 1 ESCALATION_NONE 0))
    by reflexivity.
  assert (Hr : INT_MIN <= 1 <= INT_MAX - 3) by (unfold INT_MIN, INT_MAX; lia).
  split; [exact Hf|]. split; [reflexivity|]. split; [|split; [reflexivity|split]].
  - apply (proj2 (X20_line_counts_each_mark (world_at 101 true) None _
                    "42       job                   *      *      *     0x87")
             42 "job" "*"%char "*"%char "*"%char 0%nat _ eq_refl Hf Hr).
  - apply (proj2 (X20_line_counts_each_mark (world_at 101 true) None _
                    "42       Web Content           *      *      *     0x87")
             42 "Web" "C"%char "o"%char "n"%char 0%nat _ eq_refl Hf Hr).
  - apply (proj1 (X20_line_counts_each_mark (world_at 101 true) None _
                    "Legend: * = spike predicted, - = normal")).
    reflexivity.
Defined.

(** X21. The original nice value is read only when a CPU spike creates the
    entry. A process first seen through a memory or I/O spike is recorded
    with original nice 0, and after any further run the entry, still in
    the slot it was appended to, has original nice 0 and the name given at
    creation (cut to 31 characters); for a process first seen through a
    CPU spike it is the value [get_nice] returned then. *)
Theorem X21_original_nice_read_once (k : spike_kind) (w : world) (p0 : Z)
    (c : string) (roc : Z) (d d' : daemon) :
  find_tracked p0 d = None ->
  tracked_count d < MAX_TRACKED ->
  rtc step (handle k w p0 c roc d) d' ->
  exists p',
    find_tracked p0 d' = Some (length (tracked d), p')
    /\ comm p' = String.substring 0 31 c
    /\ original_nice p'
       = match k with KCpu => get_nice w p0 | _ => 0 end.
Proof.
  intros Hf Hroom Hrun.
  destruct (handle_fresh k w p0 c roc d Hf Hroom) as (Ht & _).
  set (p1 := mark_spike (kind_bit k) w
               (set_original_nice (match k with KCpu => get_nice w p0 | _ => 0 end)
                  (fresh_tracked w p0 c))) in *.
  assert (Hf1 : find_tracked p0 (handle k w p0 c roc d)
                = Some (length (tracked d), p1)).
  { unfold find_tracked in *. rewrite Ht.
    rewrite (find_from_app_new 0 p0 (tracked d) p1 Hf); reflexivity. }
  destruct (run_keeps_found _ d' p0 _ p1 Hrun Hf1) as (p' & Hp' & _ & Hc & Ho).
  exists p'. split; [exact Hp'|]. split; [exact Hc|exact Ho].
Qed.

Lemma X21_original_nice_read_once_witness :
  let w := mk_world 100 (fun _ => Some 10) (fun _ _ => true)
             (fun _ _ _ => true) in
  let d1 := handle KIo w 42 "job" 1200 (daemon_init false 0) in
  let d' := repeat_spike KCpu w 42 3 d1 in
  find_tracked 42 (daemon_init false 0) = None
  /\ rtc step d1 d'
  /\ get_nice w 42 = 10
  /\ exists p', find_tracked 42 d' = Some (0%nat, p') /\ original_nice p' = 0.
Proof.
  cbv zeta.
  set (w := mk_world 100 (fun _ => Some 10) (fun _ _ => true)
              (fun _ _ _ => true)).
  assert (Hrun : rtc step (handle KIo w 42 "job" 1200 (daemon_init false 0))
                   (repeat_spike KCpu w 42 3
                      (handle KIo w 42 "job" 1200 (daemon_init false 0)))).
  { cbn [repeat_spike handle].
    eapply rtc_r; [eapply rtc_r; [eapply rtc_r; [apply rtc_refl|]|]|];
      apply step_cpu. }
  split; [reflexivity|]. split; [exact Hrun|]. split; [reflexivity|].
  destruct (X21_original_nice_read_once KIo w 42 "job" 1200
              (daemon_init false 0) _ eq_refl eq_refl Hrun)
    as (p' & Hp' & _ & Ho).
  exists p'. split; [exact Hp'|exact Ho].
Defined.

(** *** The stored level *)








(** *** Restoration in the main loop *)






End DaemonFacts.

(** ** The ranking tool *)

Module TopSpikesFacts.
Import TopSpikes.

Lemma process_of_line_score (l : stat_line) :
  line_in_range (Some l) ->
  score (process_of_line l)
  = Z.abs (ln_cpu_roc l) + Z.abs (ln_mem_roc l) + Z.abs (ln_io_roc l)
  /\ score_in_range (process_of_line l).
Proof.
  unfold line_in_range, roc_in_range, score_in_range.
  change (INT_MAX / 3) with 715827882. intros (Hc & Hm & Hi).
  cbn [process_of_line score]. unfold c_abs, int_add.
  assert (forall z, 0 <= z <= 3 * 715827882 -> wrap_int z = z) as Hsmall.
  { intros z Hz. apply wrap_int_small. unfold in_int, INT_MIN, INT_MAX. lia. }
  rewrite (Hsmall (Z.abs (ln_cpu_roc l))), (Hsmall (Z.abs (ln_mem_roc l))),
    (Hsmall (Z.abs (ln_io_roc l))) by lia.
  rewrite (Hsmall (Z.abs (ln_cpu_roc l) + Z.abs (ln_mem_roc l))) by lia.
  rewrite Hsmall by lia. unfold INT_MAX. lia.
Qed.

Lemma read_lines_elem (lines : list (option stat_line)) :
  forall procs p, p ∈ read_lines lines procs ->
    p ∈ procs \/ exists l, Some l ∈ lines /\ p = process_of_line l.
Proof.
  induction lines as [|ln rest IH]; intros procs p Hp; cbn [read_lines] in Hp;
    [now left|].
  destruct (length procs <? MAX_PROCS)%nat; [|now left].
  destruct ln as [l|].
  - destruct (IH _ _ Hp) as [Hin | (l' & Hin & ->)].
    + apply elem_of_app in Hin as [Hin|Hin]; [now left|].
      apply list_elem_of_singleton in Hin. right. exists l. split; [left|exact Hin].
    + right. exists l'. split; [now right|reflexivity].
  - destruct (IH _ _ Hp) as [Hin | (l' & Hin & ->)]; [now left|].
    right. exists l'. split; [now right|reflexivity].
Qed.

Lemma read_lines_length (lines : list (option stat_line)) :
  forall procs, (length procs <= MAX_PROCS)%nat ->
    (length (read_lines lines procs) <= MAX_PROCS)%nat.
Proof.
  induction lines as [|ln rest IH]; intros procs Hp; cbn [read_lines]; [exact Hp|].
  destruct (Nat.ltb_spec (length procs) MAX_PROCS); [|exact Hp].
  destruct ln as [l|]; apply IH; [|exact Hp].
  rewrite length_app. cbn. lia.
Qed.

Lemma read_stats_scores (lines : list (option stat_line)) :
  Forall line_in_range lines ->
  Forall (fun p => score p = Z.abs (cpu_roc p) + Z.abs (mem_roc p)
                             + Z.abs (io_roc p)
                   /\ score_in_range p) (read_stats lines).
Proof.
  intros Hall. apply Forall_forall. intros p Hp.
  destruct (read_lines_elem lines [] p Hp) as [Hin | (l & Hin & ->)].
  - now apply elem_of_nil in Hin.
  - rewrite Forall_forall in Hall. apply (process_of_line_score l).
    now apply Hall.
Qed.

Lemma compare_by_score_le (a b : Process) :
  score_in_range a -> score_in_range b ->
  (compare_by_score a b <= 0 <-> by_score_desc a b).
Proof.
  unfold score_in_range, compare_by_score, by_score_desc, int_sub.
  intros Ha Hb. rewrite wrap_int_small; [lia|].
  unfold in_int, INT_MIN, INT_MAX in *. lia.
Qed.

Lemma sorted_by_score (l : list Process) :
  Forall score_in_range l ->
  Sorted (fun a b => compare_by_score a b <= 0) l ->
  StronglySorted by_score_desc l.
Proof.
  intros Hall Hs. apply Sorted_StronglySorted.
  { intros a b c. unfold by_score_desc. lia. }
  induction Hs as [|a l Hs IH Hhd]; [constructor|].
  apply Forall_cons in Hall as [Ha Hall].
  constructor; [now apply IH|].
  destruct Hhd as [|b l Hab]; constructor.
  apply Forall_cons in Hall as [Hb _]. now apply compare_by_score_le.
Qed.

Lemma StronglySorted_take {A} (R : A -> A -> Prop) (l : list A) (n : nat) :
  StronglySorted R l ->
  StronglySorted R (take n l)
  /\ forall a b, a ∈ take n l -> b ∈ drop n l -> R a b.
Proof.
  revert n. induction l as [|x l IH]; intros n Hs.
  - rewrite take_nil, drop_nil. split; [constructor|].
    intros a b Ha. now apply elem_of_nil in Ha.
  - apply StronglySorted_inv in Hs as [Hs Hx].
    destruct n as [|n]; cbn [take drop].
    + split; [constructor|]. intros a b Ha. now apply elem_of_nil in Ha.
    + destruct (IH n Hs) as [Ht Hd]. split.
      * constructor; [exact Ht|].
        apply Forall_forall. intros y Hy. rewrite Forall_forall in Hx.
        apply Hx. now apply (subseteq_take n l).
      * intros a b Ha Hb. apply elem_of_cons in Ha as [->|Ha].
        -- rewrite Forall_forall in Hx. apply Hx.
           now apply (subseteq_drop n l).
        -- now apply Hd.
Qed.

Lemma sorted_perm_unique {A} (R : A -> A -> Prop) (l1 : list A) :
  forall l2,
    (forall x y, x ∈ l1 -> y ∈ l1 -> R x y -> R y x -> x = y) ->
    StronglySorted R l1 -> StronglySorted R l2 -> Permutation l1 l2 ->
    l1 = l2.
Proof.
  induction l1 as [|a l1 IH]; intros l2 Hanti H1 H2 Hperm.
  - apply Permutation_nil in Hperm. now subst.
  - destruct l2 as [|b l2].
    { symmetry in Hperm. now apply Permutation_nil in Hperm. }
    apply StronglySorted_inv in H1 as [H1 Ha].
    apply StronglySorted_inv in H2 as [H2 Hb].
    rewrite Forall_forall in Ha, Hb.
    assert (a = b) as ->.
    { assert (a ∈ b :: l2) as Hin
        by (rewrite <- Hperm; left).
      assert (b ∈ a :: l1) as Hin'
        by (rewrite Hperm; left).
      apply elem_of_cons in Hin as [->|Hin]; [reflexivity|].
      apply elem_of_cons in Hin' as [->|Hin']; [reflexivity|].
      apply Hanti; [left|now right|now apply Ha|now apply Hb]. }
    f_equal. apply IH; try assumption.
    + intros x y Hx Hy. apply Hanti; now right.
    + now apply Permutation_cons_inv in Hperm.
Qed.

Lemma insert_by_perm cmp x l : Permutation (x :: l) (insert_by cmp x l).
Proof.
  induction l as [|y l IH]; cbn [insert_by]; [reflexivity|].
  destruct (cmp x y <=? 0); [reflexivity|].
  rewrite perm_swap. now apply perm_skip.
Qed.

Lemma isort_by_perm cmp l : Permutation l (isort_by cmp l).
Proof.
  induction l as [|x l IH]; cbn [isort_by]; [reflexivity|].
  rewrite <- insert_by_perm. now apply perm_skip.
Qed.

Lemma insert_by_sorted cmp x l :
  (forall a b, cmp a b <= 0 \/ cmp b a <= 0) ->
  Sorted (fun a b => cmp a b <= 0) l ->
  Sorted (fun a b => cmp a b <= 0) (insert_by cmp x l).
Proof.
  intros Htotal Hs. induction Hs as [|y l Hs IH Hhd]; cbn [insert_by].
  - repeat constructor.
  - destruct (Z.leb_spec (cmp x y) 0) as [Hle|Hgt].
    + constructor; [now constructor|now constructor].
    + constructor; [exact IH|].
      destruct Hhd as [|z l Hyz]; cbn [insert_by].
      * constructor. destruct (Htotal y x); [assumption|lia].
      * destruct (cmp x z <=? 0); constructor; [|assumption].
        destruct (Htotal y x); [assumption|lia].
Qed.

Lemma isort_by_sorted cmp l :
  (forall a b, cmp a b <= 0 \/ cmp b a <= 0) ->
  Sorted (fun a b => cmp a b <= 0) (isort_by cmp l).
Proof.
  intros Htotal. induction l as [|x l IH]; cbn [isort_by]; [constructor|].
  now apply insert_by_sorted.
Qed.

Lemma compare_by_score_total (a b : Process) :
  compare_by_score a b <= 0 \/ compare_by_score b a <= 0.
Proof.
  unfold compare_by_score, int_sub, wrap_int.
  pose proof (Z.mod_pos_bound (score b - score a + 2 ^ 31) (2 ^ 32)).
  pose proof (Z.mod_pos_bound (score a - score b + 2 ^ 31) (2 ^ 32)).
  Z.to_euclidean_division_equations. lia.
Qed.

Lemma isort_is_qsort_result (l : list Process) :
  qsort_result compare_by_score l (isort_by compare_by_score l).
Proof.
  split; [apply isort_by_perm|].
  apply isort_by_sorted. apply compare_by_score_total.
Qed.

Lemma parse_top_n_range (opt_n : option Z) :
  1 <= parse_top_n opt_n <= 100
  /\ (opt_n = None -> parse_top_n opt_n = 10)
  /\ (forall m, opt_n = Some m ->
        (m < 1 -> parse_top_n opt_n = 1)
        /\ (1 <= m <= 100 -> parse_top_n opt_n = m)
        /\ (100 < m -> parse_top_n opt_n = 100)).
Proof.
  unfold parse_top_n. destruct opt_n as [n|].
  - assert ((if (if n <? 1 then 1 else n) >? 100 then 100
             else if n <? 1 then 1 else n)
            = Z.max 1 (Z.min n 100)) as ->.
    { destruct (Z.ltb_spec n 1), (Z.gtb_spec n 100), (Z.gtb_spec 1 100); lia. }
    split; [lia|]. split; [discriminate|].
    intros k Hk. injection Hk as <-. lia.
  - split; [lia|]. split; [reflexivity|]. discriminate.
Qed.

Lemma top_spikes_shape (opt_n : option Z) (lines : list (option stat_line))
    (shown : list Process) :
  top_spikes opt_n by_score lines shown ->
  length shown
  = Nat.min (Z.to_nat (parse_top_n opt_n)) (length (read_stats lines))
  /\ exists rest, Permutation (read_stats lines) (shown ++ rest)
       /\ (Forall line_in_range lines ->
           StronglySorted by_score_desc shown
           /\ forall a b, a ∈ shown -> b ∈ rest -> score b <= score a).
Proof.
  intros (sorted & [Hperm Hsorted] & ->). unfold print_results.
  split.
  - rewrite length_take. now rewrite (Permutation_length Hperm).
  - exists (drop (Z.to_nat (parse_top_n opt_n)) sorted).
    rewrite take_drop. split; [exact Hperm|].
    intros Hrange.
    assert (Forall score_in_range sorted) as Hscores.
    { rewrite <- Hperm. eapply Forall_impl; [apply read_stats_scores|];
        [exact Hrange|]. intros p [_ Hp]. exact Hp. }
    apply StronglySorted_take. now apply sorted_by_score.
Qed.

(** C8 (as the code has it). Sorting by total score, the tool reads at
    most [MAX_PROCS] rows, gives each the score
    [|cpu_roc| + |mem_roc| + |io_roc|], sorts with [qsort] and shows the
    first [min n (rows read)] rows, where [n] is 10 by default and the
    argument of [-n] forced into 1..100. The rows shown are in descending
    order of score, and none of the rows left out has a higher score than
    a row shown. For the scores 10, 9000, 50, 200 and [n = 3] the rows
    shown are those with 9000, 200 and 50, in that order. Rates of change
    are taken in the range where the score does not overflow. Nothing is
    claimed on the order of rows with equal scores. *)
Theorem C8_top_n_by_score (opt_n : option Z)
    (lines : list (option stat_line)) (shown : list Process) :
  Forall line_in_range lines ->
  top_spikes opt_n by_score lines shown ->
  let procs := read_stats lines in
  let n := parse_top_n opt_n in
  (1 <= n <= 100
   /\ (opt_n = None -> n = 10)
   /\ (forall m, opt_n = Some m ->
         (m < 1 -> n = 1) /\ (1 <= m <= 100 -> n = m) /\ (100 < m -> n = 100)))
  /\ (length procs <= MAX_PROCS)%nat
  /\ length shown = Nat.min (Z.to_nat n) (length procs)
  /\ Forall (fun p => score p = Z.abs (cpu_roc p) + Z.abs (mem_roc p)
                                + Z.abs (io_roc p)) procs
  /\ StronglySorted by_score_desc shown
  /\ (exists rest, Permutation procs (shown ++ rest)
        /\ forall a b, a ∈ shown -> b ∈ rest -> score b <= score a)
  /\ (forall shown4, top_spikes (Some 3) by_score four_lines shown4 ->
        map score (read_stats four_lines) = [10; 9000; 50; 200]
        /\ map score shown4 = [9000; 200; 50]
        /\ map pid shown4 = [2; 4; 3]).
Proof.
  intros Hrange Hrun procs n.
  destruct (top_spikes_shape opt_n lines shown Hrun)
    as (Hlen & rest & Hperm & Hdesc).
  destruct (Hdesc Hrange) as [Hsorted Hgreatest].
  split; [apply parse_top_n_range|].
  split; [apply (read_lines_length lines []); cbn; lia|].
  split; [exact Hlen|].
  split.
  { eapply Forall_impl; [apply read_stats_scores; exact Hrange|].
    intros p [Hp _]. exact Hp. }
  split; [exact Hsorted|].
  split; [exists rest; now split|].
  intros shown4 (sorted & [Hperm4 Hsorted4] & ->).
  split; [reflexivity|].
  assert (Forall line_in_range four_lines) as Hrange4.
  { unfold four_lines, line_with_score, line_in_range, roc_in_range.
    change (INT_MAX / 3) with 715827882. repeat constructor; cbn; lia. }
  assert (Forall score_in_range sorted) as Hscores.
  { rewrite <- Hperm4. eapply Forall_impl; [apply read_stats_scores|];
      [exact Hrange4|]. intros p [_ Hp]. exact Hp. }
  pose proof (sorted_by_score sorted Hscores Hsorted4) as Hs4.
  pose proof (isort_is_qsort_result (read_stats four_lines)) as [Hpi Hsi].
  assert (isort_by compare_by_score (read_stats four_lines) = sorted) as <-.
  { apply (sorted_perm_unique by_score_desc).
    - intros x y Hx Hy. unfold by_score_desc.
      let l := eval vm_compute in
                 (isort_by compare_by_score (read_stats four_lines)) in
      change (isort_by compare_by_score (read_stats four_lines)) with l
        in Hx, Hy.
      repeat match goal with
             | H : _ ∈ _ :: _ |- _ => apply elem_of_cons in H as [->|H]
             | H : _ ∈ [] |- _ => now apply elem_of_nil in H
             end; cbn; intros; try reflexivity; lia.
    - apply sorted_by_score; [|exact Hsi].
      rewrite <- Hpi. eapply Forall_impl; [apply read_stats_scores|];
        [exact Hrange4|]. intros p [_ Hp]. exact Hp.
    - exact Hs4.
    - now rewrite <- Hpi. }
  split; reflexivity.
Qed.

Lemma C8_top_n_by_score_witness :
  let shown :=
    print_results (parse_top_n (Some 3))
      (isort_by compare_by_score (read_stats four_lines)) in
  Forall line_in_range four_lines
  /\ top_spikes (Some 3) by_score four_lines shown
  /\ length shown = 3%nat
  /\ StronglySorted by_score_desc shown
  /\ map score shown = [9000; 200; 50].
Proof.
  intros shown.
  assert (Forall line_in_range four_lines) as Hrange.
  { unfold four_lines, line_with_score, line_in_range, roc_in_range.
    change (INT_MAX / 3) with 715827882. repeat constructor; cbn; lia. }
  assert (top_spikes (Some 3) by_score four_lines shown) as Hrun.
  { exists (isort_by compare_by_score (read_stats four_lines)).
    split; [apply isort_is_qsort_result|reflexivity]. }
  destruct (C8_top_n_by_score (Some 3) four_lines shown Hrange Hrun)
    as (_ & _ & Hlen & _ & Hsorted & _ & Hfour).
  split; [exact Hrange|]. split; [exact Hrun|]. split; [exact Hlen|].
  split; [exact Hsorted|]. exact (proj1 (proj2 (Hfour shown Hrun))).
Defined.

Lemma many_lines_read (n : nat) :
  (n <= MAX_PROCS)%nat -> length (read_stats (many_lines n)) = n.
Proof.
  intros Hn. unfold read_stats, many_lines.
  assert (forall l procs, (length procs + length l <= MAX_PROCS)%nat ->
            length (read_lines
                      (map (fun k => line_with_score (Z.of_nat k) (Z.of_nat k)) l)
                      procs)
            = (length procs + length l)%nat) as Hgen.
  { induction l as [|k l IH]; intros procs Hp; cbn [map read_lines length] in *;
      [lia|].
    destruct (Nat.ltb_spec (length procs) MAX_PROCS); [|lia].
    unfold line_with_score at 1. rewrite IH; rewrite length_app; cbn; lia. }
  rewrite Hgen; rewrite length_seq; cbn; lia.
Qed.

(** C8, the part that does not hold: with 101 rows in the file and
    [-n 101], well inside the capacity of the store, the tool shows 100
    rows: the bound on [n] is the constant 100. *)
Lemma C8_counterexample_clamp :
  parse_top_n (Some 101) = 100
  /\ length (read_stats (many_lines 101)) = 101%nat
  /\ (exists shown, top_spikes (Some 101) by_score (many_lines 101) shown)
  /\ (forall shown, top_spikes (Some 101) by_score (many_lines 101) shown ->
        length shown = 100%nat).
Proof.
  assert (length (read_stats (many_lines 101)) = 101%nat) as Hread
    by (apply many_lines_read; unfold MAX_PROCS; lia).
  split; [reflexivity|]. split; [exact Hread|]. split.
  - eexists. eexists. split; [apply isort_is_qsort_result|reflexivity].
  - intros shown Hrun.
    destruct (top_spikes_shape _ _ _ Hrun) as [Hlen _].
    rewrite Hlen, Hread. reflexivity.
Qed.

(** Two rows with the same score: the contract of [qsort] admits both
    orders, so the code does not fix the order of ties. *)
Lemma qsort_leaves_ties_open :
  let a := process_of_line (mk_line 1 0 0 0 500 0 0) in
  let b := process_of_line (mk_line 2 0 0 0 0 500 0) in
  score a = score b
  /\ qsort_result compare_by_score [a; b] [a; b]
  /\ qsort_result compare_by_score [a; b] [b; a].
Proof.
  cbv zeta. split; [reflexivity|]. split; split.
  - reflexivity.
  - repeat constructor. vm_compute. discriminate.
  - apply perm_swap.
  - repeat constructor. vm_compute. discriminate.
Qed.

(** *** Reading and the other sort modes *)

(** The reading loop entered with a partly filled array. *)
Lemma read_lines_take (lines : list (option stat_line)) :
  forall procs, (length procs <= MAX_PROCS)%nat ->
    read_lines lines procs
    = procs ++ take (MAX_PROCS - length procs)
                 (map process_of_line (parsed_lines lines)).
Proof.
  unfold parsed_lines.
  induction lines as [|ln rest IH]; intros procs Hlen; cbn [read_lines].
  - cbn. now rewrite take_nil, app_nil_r.
  - destruct (Nat.ltb_spec (length procs) MAX_PROCS) as [Hlt|Hge].
    + destruct ln as [l|]; cbn [omap id].
      * rewrite IH by (rewrite length_app; cbn; lia).
        rewrite length_app. cbn [length map option_bind].
        replace (MAX_PROCS - length procs)%nat
          with (S (MAX_PROCS - (length procs + 1))) by lia.
        cbn [take]. rewrite <- app_assoc. reflexivity.
      * now apply IH.
    + replace (MAX_PROCS - length procs)%nat with 0%nat by lia.
      rewrite take_0. now rewrite app_nil_r.
Qed.

(** X22. [read_stats] fills the array with the first [MAX_PROCS] = 512
    lines that [sscanf] accepts, in file order, each with its score; lines
    that do not parse are skipped and lines after the 512th accepted one
    are not read. *)
Theorem X22_read_stats_first_rows (lines : list (option stat_line)) :
  read_stats lines = take MAX_PROCS (map process_of_line (parsed_lines lines)).
Proof.
  unfold read_stats. rewrite read_lines_take by (cbn; lia).
  cbn [length app]. now rewrite Nat.sub_0_r.
Qed.

Lemma read_stats_half_range (lines : list (option stat_line)) (m : sort_mode) :
  m <> by_score ->
  Forall line_in_half_range lines ->
  Forall (fun p => rate_in_half_range (sort_key m p)) (read_stats lines).
Proof.
  intros Hm Hall. apply Forall_forall. intros p Hp.
  destruct (read_lines_elem lines [] p Hp) as [Hin | (l & Hin & ->)].
  - now apply elem_of_nil in Hin.
  - rewrite Forall_forall in Hall. destruct (Hall _ Hin) as (Hc & Hme & Hi).
    destruct m; [contradiction|exact Hc|exact Hme|exact Hi].
Qed.

(** In the half range a comparison by rate is the comparison of the rates. *)
Lemma comparator_le (m : sort_mode) (a b : Process) :
  m <> by_score ->
  rate_in_half_range (sort_key m a) -> rate_in_half_range (sort_key m b) ->
  (comparator m a b <= 0 <-> by_key_desc m a b).
Proof.
  unfold rate_in_half_range, by_key_desc. change (INT_MAX / 2) with 1073741823.
  intros Hm Ha Hb.
  destruct m; [contradiction| | |];
    cbn [comparator sort_key] in *;
    unfold compare_by_cpu, compare_by_mem, compare_by_io, int_sub;
    (rewrite wrap_int_small; [lia|]);
    unfold in_int, INT_MIN, INT_MAX; lia.
Qed.

Lemma sorted_by_key (m : sort_mode) (l : list Process) :
  m <> by_score ->
  Forall (fun p => rate_in_half_range (sort_key m p)) l ->
  Sorted (fun a b => comparator m a b <= 0) l ->
  StronglySorted (by_key_desc m) l.
Proof.
  intros Hm Hall Hs. apply Sorted_StronglySorted.
  { intros a b c. unfold by_key_desc. lia. }
  induction Hs as [|a l Hs IH Hhd]; [constructor|].
  apply Forall_cons in Hall as [Ha Hall].
  constructor; [now apply IH|].
  destruct Hhd as [|b l Hab]; constructor.
  apply Forall_cons in Hall as [Hb _]. now apply comparator_le.
Qed.

(** X23. Sorting by CPU, memory or I/O rate of change ([-c], [-m], [-i]):
    for rates of change of absolute value at most [INT_MAX / 2], where the
    subtraction in the comparison function cannot overflow, the rows shown
    are the first [min n (rows read)] rows in descending order of the
    signed rate (a falling rate ranks below every rising one), and no row
    left out has a higher rate than a row shown. *)
Theorem X23_top_n_by_rate (m : sort_mode) (opt_n : option Z)
    (lines : list (option stat_line)) (shown : list Process) :
  m <> by_score ->
  Forall line_in_half_range lines ->
  top_spikes opt_n m lines shown ->
  length shown
  = Nat.min (Z.to_nat (parse_top_n opt_n)) (length (read_stats lines))
  /\ StronglySorted (by_key_desc m) shown
  /\ exists rest, Permutation (read_stats lines) (shown ++ rest)
       /\ forall a b, a ∈ shown -> b ∈ rest -> sort_key m b <= sort_key m a.
Proof.
  intros Hm Hrange (sorted & [Hperm Hsorted] & ->). unfold print_results.
  assert (Hkeys : Forall (fun p => rate_in_half_range (sort_key m p)) sorted).
  { rewrite <- Hperm. now apply read_stats_half_range. }
  pose proof (sorted_by_key m sorted Hm Hkeys Hsorted) as Hstrong.
  destruct (StronglySorted_take (by_key_desc m) sorted
              (Z.to_nat (parse_top_n opt_n)) Hstrong) as [Htake Hcut].
  split; [|split; [exact Htake|]].
  - rewrite length_take. now rewrite (Permutation_length Hperm).
  - exists (drop (Z.to_nat (parse_top_n opt_n)) sorted).
    rewrite take_drop. split; [exact Hperm|exact Hcut].
Qed.

(** X24. In every sort mode and without any condition on the values: when
    the file has at most [top_n] lines that parse, every one of them is
    shown exactly once, and when it has none (an empty table) no row is
    shown. *)
Theorem X24_small_tables_shown_whole (m : sort_mode) (opt_n : option Z)
    (lines : list (option stat_line)) (shown : list Process) :
  top_spikes opt_n m lines shown ->
  (Z.of_nat (length (parsed_lines lines)) <= parse_top_n opt_n ->
   Permutation (map process_of_line (parsed_lines lines)) shown)
  /\ (parsed_lines lines = [] -> shown = []).
Proof.
  intros (sorted & [Hperm Hsorted] & ->). unfold print_results.
  pose proof (parse_top_n_range opt_n) as [Hn _].
  assert (Hread : read_stats lines
                  = take MAX_PROCS (map process_of_line (parsed_lines lines))).
  { unfold read_stats. rewrite read_lines_take by (cbn; lia).
    cbn [length app]. now rewrite Nat.sub_0_r. }
  rewrite Hread in Hperm. clear Hread.
  split.
  - intros Hall.
    rewrite take_ge in Hperm by (rewrite length_map; unfold MAX_PROCS; lia).
    rewrite take_ge; [exact Hperm|].
    rewrite <- (Permutation_length Hperm), length_map. lia.
  - intros Hnil. rewrite Hnil in Hperm. cbn [map] in Hperm.
    rewrite take_nil in Hperm.
    apply Permutation_nil in Hperm. subst sorted. apply take_nil.
Qed.

(** Every comparison function is total, also where it overflows, so
    insertion sort meets the contract of [qsort] in every mode. *)
Lemma comparator_total (m : sort_mode) (a b : Process) :
  comparator m a b <= 0 \/ comparator m b a <= 0.
Proof.
  destruct m; cbn [comparator];
    unfold compare_by_score, compare_by_cpu, compare_by_mem, compare_by_io,
      int_sub, wrap_int;
    match goal with
    | |- (?x + _) mod _ - _ <= 0 \/ (?y + _) mod _ - _ <= 0 =>
        pose proof (Z.mod_pos_bound (x + 2 ^ 31) (2 ^ 32));
        pose proof (Z.mod_pos_bound (y + 2 ^ 31) (2 ^ 32))
    end;
    Z.to_euclidean_division_equations; lia.
Qed.

Lemma isort_meets_contract (m : sort_mode) (l : list Process) :
  qsort_result (comparator m) l (isort_by (comparator m) l).
Proof.
  split; [apply isort_by_perm|].
  apply isort_by_sorted. apply comparator_total.
Qed.

Lemma X23_top_n_by_rate_witness :
  let shown :=
    print_results (parse_top_n (Some 2))
      (isort_by (comparator by_cpu) (read_stats falling_lines)) in
  Forall line_in_half_range falling_lines
  /\ top_spikes (Some 2) by_cpu falling_lines shown
  /\ length shown = 2%nat
  /\ StronglySorted (by_key_desc by_cpu) shown
  /\ map pid shown = [3; 2].
Proof.
  cbv zeta.
  assert (Hrange : Forall line_in_half_range falling_lines).
  { unfold falling_lines, line_in_half_range, rate_in_half_range.
    change (INT_MAX / 2) with 1073741823.
    repeat constructor; cbn; lia. }
  assert (Htop : top_spikes (Some 2) by_cpu falling_lines
                   (print_results (parse_top_n (Some 2))
                      (isort_by (comparator by_cpu) (read_stats falling_lines)))).
  { eexists. split; [apply isort_meets_contract|reflexivity]. }
  split; [exact Hrange|]. split; [exact Htop|].
  destruct (X23_top_n_by_rate by_cpu (Some 2) falling_lines _
              ltac:(discriminate) Hrange Htop) as (Hlen & Hsorted & _).
  split; [rewrite Hlen; reflexivity|]. split; [exact Hsorted|reflexivity].
Defined.

Lemma X24_small_tables_shown_whole_witness :
  let shown :=
    print_results (parse_top_n None)
      (isort_by (comparator by_io) (read_stats falling_lines)) in
  top_spikes None by_io falling_lines shown
  /\ Z.of_nat (length (parsed_lines falling_lines)) <= parse_top_n None
  /\ Permutation (map process_of_line (parsed_lines falling_lines)) shown.
Proof.
  cbv zeta.
  assert (Htop : top_spikes None by_io falling_lines
                   (print_results (parse_top_n None)
                      (isort_by (comparator by_io) (read_stats falling_lines)))).
  { eexists. split; [apply isort_meets_contract|reflexivity]. }
  assert (Hfew : Z.of_nat (length (parsed_lines falling_lines))
                 <= parse_top_n None) by (cbn; lia).
  split; [exact Htop|]. split; [exact Hfew|].
  destruct (X24_small_tables_shown_whole by_io None falling_lines _ Htop)
    as [Hall _].
  exact (Hall Hfew).
Defined.

End TopSpikesFacts.

(** ** The ranking tool on the output of the module *)

Module PipelineFacts.
Import Pipeline.

Lemma consistent_line_in_range (sig : Kernel.proc_signature) :
  Kernel.sig_consistent sig ->
  TopSpikes.line_in_range (Some (stats_line sig)).
Proof.
  intros ((Hc & Hm & Hi) & (Hpc & Hpm & Hpi) & (Rc & Rm & Ri) & _).
  unfold TopSpikes.line_in_range, TopSpikes.roc_in_range, stats_line,
    Kernel.fits_scale in *.
  cbn [TopSpikes.ln_cpu_roc TopSpikes.ln_mem_roc TopSpikes.ln_io_roc].
  change (INT_MAX / 3) with 715827882.
  change (INT_MAX / 100) with 21474836 in *.
  rewrite Rc, Rm, Ri. lia.
Qed.

Lemma stats_lines_in_range (ticks : list (Kernel.tick_env * list Kernel.task_struct))
    (walk : list Kernel.proc_signature) :
  walk_of (Kernel.run_ticks ticks Kernel.module_init) walk ->
  Forall TopSpikes.line_in_range (stats_lines walk).
Proof.
  intros Hwalk. unfold stats_lines. apply Forall_fmap.
  eapply Forall_impl; [exact Hwalk|].
  intros sig (q & Hq). cbn. apply consistent_line_in_range.
  destruct (KernelFacts.table_ok_run ticks Kernel.module_init
              KernelFacts.table_ok_init) as [_ H].
  apply (H q sig Hq).
Qed.

(** X25. On the stats file of the module the ranking by score is exact:
    after any run of ticks, for the lines [stats_show] prints for
    signatures of the table, the score the tool computes for every row
    shown is [|cpu_roc| + |mem_roc| + |io_roc|] without overflow, and the
    rows shown are in descending order of score. The rates of change the
    module stores are differences of two EMAs of absolute value at most
    [INT_MAX / 100], which is inside the range the tool needs. *)
Theorem X25_ranking_exact_on_module_output
    (ticks : list (Kernel.tick_env * list Kernel.task_struct))
    (walk : list Kernel.proc_signature) (opt_n : option Z)
    (shown : list TopSpikes.Process) :
  walk_of (Kernel.run_ticks ticks Kernel.module_init) walk ->
  TopSpikes.top_spikes opt_n TopSpikes.by_score (stats_lines walk) shown ->
  StronglySorted TopSpikes.by_score_desc shown
  /\ Forall (fun p => TopSpikes.score p
                      = Z.abs (TopSpikes.cpu_roc p) + Z.abs (TopSpikes.mem_roc p)
                        + Z.abs (TopSpikes.io_roc p)) shown.
Proof.
  intros Hwalk Htop.
  pose proof (stats_lines_in_range ticks walk Hwalk) as Hrange.
  destruct (TopSpikesFacts.top_spikes_shape opt_n (stats_lines walk) shown Htop)
    as (_ & rest & Hperm & Hsorted).
  destruct (Hsorted Hrange) as [Hs _]. split; [exact Hs|].
  pose proof (TopSpikesFacts.read_stats_scores (stats_lines walk) Hrange) as Hsc.
  rewrite Hperm in Hsc. apply Forall_app in Hsc as [Hsc _].
  eapply Forall_impl; [exact Hsc|]. intros p [Hp _]. exact Hp.
Qed.

Lemma X25_ranking_exact_on_module_output_witness :
  let burst := Kernel.mk_task 9 "burst" 0 0 100 0 1000 None 0 0 in
  let st := Kernel.run_ticks
              [(Kernel.tick_1, [Kernel.task_a; burst; Kernel.task_b])]
              Kernel.module_init in
  let walk := map snd (map_to_list (Kernel.proc_signatures st)) in
  let shown :=
    TopSpikes.print_results (TopSpikes.parse_top_n (Some 2))
      (TopSpikes.isort_by TopSpikes.compare_by_score
         (TopSpikes.read_stats (stats_lines walk))) in
  walk_of st walk
  /\ TopSpikes.top_spikes (Some 2) TopSpikes.by_score (stats_lines walk) shown
  /\ StronglySorted TopSpikes.by_score_desc shown
  /\ map TopSpikes.pid shown = [9; 7].
Proof.
  cbv zeta.
  set (st := Kernel.run_ticks
               [(Kernel.tick_1,
                 [Kernel.task_a;
                  Kernel.mk_task 9 "burst" 0 0 100 0 1000 None 0 0;
                  Kernel.task_b])]
               Kernel.module_init).
  assert (Hwalk : walk_of st (map snd (map_to_list (Kernel.proc_signatures st)))).
  { unfold walk_of. apply Forall_forall. intros sig Hin.
    apply list_elem_of_fmap in Hin as ([q s] & -> & Hin).
    apply elem_of_map_to_list in Hin. exists q. exact Hin. }
  assert (Htop : TopSpikes.top_spikes (Some 2) TopSpikes.by_score
                   (stats_lines (map snd (map_to_list (Kernel.proc_signatures st))))
                   (TopSpikes.print_results (TopSpikes.parse_top_n (Some 2))
                      (TopSpikes.isort_by TopSpikes.compare_by_score
                         (TopSpikes.read_stats
                            (stats_lines
                               (map snd (map_to_list (Kernel.proc_signatures st)))))))).
  { eexists. split; [apply TopSpikesFacts.isort_is_qsort_result|reflexivity]. }
  split; [exact Hwalk|]. split; [exact Htop|].
  destruct (X25_ranking_exact_on_module_output _ _ _ _ Hwalk Htop) as [Hs _].
  split; [exact Hs|]. vm_compute. reflexivity.
Defined.

End PipelineFacts.
